(** * EcoRoofManager: a shallow embedding of the green-roof surface model

    The development follows [src/EcoRoofManager.cc].  [Real64] values are
    read as real numbers: every arithmetic expression of the source is kept
    with its shape (operator order, integer sub-expressions such as [5/3]),
    but rounding, infinities and NaN have no counterpart here.  Module-level
    and function-[static] variables become fields of explicit state records
    that every routine takes and returns. *)

From Stdlib Require Import Reals Lra Lia ZArith Bool List.
From Equations Require Import Equations.
Open Scope R_scope.

(** ** Numeric primitives *)

Definition Real64 := R.

Definition pow_2 (x : R) : R := x * x.
Definition pow_3 (x : R) : R := x * x * x.
Definition pow_4 (x : R) : R := x * x * x * x.

(** [std::pow] on its real domain: a positive base, a zero base with a
    non-negative exponent, or an integral exponent.  Elsewhere (a negative
    base with an exponent that is no integer, a zero base with a negative
    exponent) the C library answers NaN or an infinity, which no real number
    stands for: the value this function takes there is a filler with no
    counterpart in the source.  The domain is [std_pow_defined] below;
    statements about code that may leave it are made under
    [unsaturated_flow_defined], and the input at which the source leaves it
    is exhibited apart. *)
Definition std_pow (x y : R) : R :=
  if Req_dec_T y 0 then 1
  else if Rlt_dec 0 x then Rpower x y
  else if Req_dec_T x 0 then 0
  else powerRZ x (Int_part y).

Definition KelvinConv : R := 273.15.

(** ** Host data read or written by the module *)

(** [DataWater]: the precipitation and irrigation modes the module tests. *)
Inductive RainfallMode := RainNone | RainSchedDesign.
Inductive IrrigationMode := IrrNone | IrrSchedDesign | IrrSmartSched.

(** [Material( Construct( ConstrNum ).LayerPoint( 1 ) )]: the outside layer of
    a construction.  The first four fields are rewritten by
    [UpdateSoilProps]; the others are only read. *)
Module Material.
Record t := {
  Conductivity : R;
  Density : R;
  SpecHeat : R;
  AbsorpSolar : R;
  EcoRoofCalculationMethod : Z;
  Roughness : Z;
  AbsorpThermal : R;
  HeightOfPlants : R;
  LAI : R;
  Lreflectivity : R;
  LEmissitivity : R;
  RStomata : R;
  Porosity : R;
  MinMoisture : R;
  InitMoisture : R;
  Thickness : R;
  PlantCoverage : R;
  VWC_FieldCapacity : R;
  SW_ExtCoeff : R;
  LW_ExtCoeff : R
}.
End Material.

(** The material table and its update at one index.  The source reads and
    writes the record [Material( Construct( ConstrNum ).LayerPoint( 1 ) )];
    the table here is indexed by the construction number and holds that
    record, one for each construction.  Two constructions whose outside
    layers are the same material share one record in the source: that
    aliasing is not modelled, so nothing is stated of what a write for one
    construction does to the record read for another. *)
Definition Materials := Z -> Material.t.

Definition set_material (ms : Materials) (c : Z) (m : Material.t) : Materials :=
  fun c' => if Z.eq_dec c' c then m else ms c'.

(** Mutable fields of the material record, written one at a time. *)
Definition with_Conductivity (m : Material.t) (v : R) : Material.t :=
  {| Material.Conductivity := v;
     Material.Density := Material.Density m;
     Material.SpecHeat := Material.SpecHeat m;
     Material.AbsorpSolar := Material.AbsorpSolar m;
     Material.EcoRoofCalculationMethod := Material.EcoRoofCalculationMethod m;
     Material.Roughness := Material.Roughness m;
     Material.AbsorpThermal := Material.AbsorpThermal m;
     Material.HeightOfPlants := Material.HeightOfPlants m;
     Material.LAI := Material.LAI m;
     Material.Lreflectivity := Material.Lreflectivity m;
     Material.LEmissitivity := Material.LEmissitivity m;
     Material.RStomata := Material.RStomata m;
     Material.Porosity := Material.Porosity m;
     Material.MinMoisture := Material.MinMoisture m;
     Material.InitMoisture := Material.InitMoisture m;
     Material.Thickness := Material.Thickness m;
     Material.PlantCoverage := Material.PlantCoverage m;
     Material.VWC_FieldCapacity := Material.VWC_FieldCapacity m;
     Material.SW_ExtCoeff := Material.SW_ExtCoeff m;
     Material.LW_ExtCoeff := Material.LW_ExtCoeff m |}.

Definition with_Density (m : Material.t) (v : R) : Material.t :=
  {| Material.Conductivity := Material.Conductivity m;
     Material.Density := v;
     Material.SpecHeat := Material.SpecHeat m;
     Material.AbsorpSolar := Material.AbsorpSolar m;
     Material.EcoRoofCalculationMethod := Material.EcoRoofCalculationMethod m;
     Material.Roughness := Material.Roughness m;
     Material.AbsorpThermal := Material.AbsorpThermal m;
     Material.HeightOfPlants := Material.HeightOfPlants m;
     Material.LAI := Material.LAI m;
     Material.Lreflectivity := Material.Lreflectivity m;
     Material.LEmissitivity := Material.LEmissitivity m;
     Material.RStomata := Material.RStomata m;
     Material.Porosity := Material.Porosity m;
     Material.MinMoisture := Material.MinMoisture m;
     Material.InitMoisture := Material.InitMoisture m;
     Material.Thickness := Material.Thickness m;
     Material.PlantCoverage := Material.PlantCoverage m;
     Material.VWC_FieldCapacity := Material.VWC_FieldCapacity m;
     Material.SW_ExtCoeff := Material.SW_ExtCoeff m;
     Material.LW_ExtCoeff := Material.LW_ExtCoeff m |}.

Definition with_SpecHeat (m : Material.t) (v : R) : Material.t :=
  {| Material.Conductivity := Material.Conductivity m;
     Material.Density := Material.Density m;
     Material.SpecHeat := v;
     Material.AbsorpSolar := Material.AbsorpSolar m;
     Material.EcoRoofCalculationMethod := Material.EcoRoofCalculationMethod m;
     Material.Roughness := Material.Roughness m;
     Material.AbsorpThermal := Material.AbsorpThermal m;
     Material.HeightOfPlants := Material.HeightOfPlants m;
     Material.LAI := Material.LAI m;
     Material.Lreflectivity := Material.Lreflectivity m;
     Material.LEmissitivity := Material.LEmissitivity m;
     Material.RStomata := Material.RStomata m;
     Material.Porosity := Material.Porosity m;
     Material.MinMoisture := Material.MinMoisture m;
     Material.InitMoisture := Material.InitMoisture m;
     Material.Thickness := Material.Thickness m;
     Material.PlantCoverage := Material.PlantCoverage m;
     Material.VWC_FieldCapacity := Material.VWC_FieldCapacity m;
     Material.SW_ExtCoeff := Material.SW_ExtCoeff m;
     Material.LW_ExtCoeff := Material.LW_ExtCoeff m |}.

(** [DataGlobals], [DataWater]: what one call of [UpdateSoilProps] reads from
    the simulation driver. *)
Module Driver.
Record t := {
  MinutesPerTimeStep : Z;
  WarmupFlag : bool;
  BeginEnvrnFlag : bool;
  RainFall_ModeID : RainfallMode;
  RainFall_CurrentAmount : R;
  Irrigation_ModeID : IrrigationMode;
  Irrigation_ScheduledAmount : R;
  Irrigation_IrrigationThreshold : R
}.
End Driver.

(** ** Module variables (lines 73-84) *)

Module Water.
Record t := {
  CumRunoff : R;
  CumET : R;
  CumPrecip : R;
  CumIrrigation : R;
  CurrentRunoff : R;
  CurrentET : R;
  CurrentPrecipitation : R;
  CurrentIrrigation : R
}.
End Water.

(** ** [UpdateSoilProps] (lines 1500-1932) *)

(** The routine's [static] locals that survive a call.  The capillary
    potentials, hydraulic conductivities, saturations and [TestMoisture] are
    also [static] in the source but are assigned before every use, so they
    appear below as local bindings. *)
Module SoilStatics.
Record t := {
  TopDepth : R;
  RootDepth : R;
  SecondsPerTimeStep : R;
  DryCond : R;
  DryDens : R;
  DryAbsorp : R;
  DrySpecHeat : R;
  UpdatebeginFlag : bool
}.
End SoilStatics.

(** Static initialisers: [RootDepth( 0.0 )], [UpdatebeginFlag( true )]; the
    others are zero-initialised. *)
Definition SoilStatics_initial : SoilStatics.t :=
  {| SoilStatics.TopDepth := 0;
     SoilStatics.RootDepth := 0.0;
     SoilStatics.SecondsPerTimeStep := 0;
     SoilStatics.DryCond := 0;
     SoilStatics.DryDens := 0;
     SoilStatics.DryAbsorp := 0;
     SoilStatics.DrySpecHeat := 0;
     SoilStatics.UpdatebeginFlag := true |}.

(** Soil parameters of the unsaturated-flow law (lines 1549-1553). *)
Definition alpha : R := 23.0.
Definition n : R := 1.27.
Definition lambda : R := 0.5.
Definition SoilConductivitySaturation : R := 5.157e-7.

(** Lines 1612-1613. *)
Definition RatioMax (d : Driver.t) : R :=
  1.0 + 0.20 * IZR (Driver.MinutesPerTimeStep d) / 15.0.
Definition RatioMin (d : Driver.t) : R :=
  1.0 - 0.20 * IZR (Driver.MinutesPerTimeStep d) / 15.0.

(** Lines 1615-1648: the one-time set-up.  The stability message of lines
    1631-1641 only prints and is left out. *)
Definition UpdateSoilProps_begin (d : Driver.t) (m : Material.t)
    (SoilThickness : R) (s : SoilStatics.t) : SoilStatics.t :=
  if SoilStatics.UpdatebeginFlag s then
    let TopDepth :=
      if Rgt_dec SoilThickness 0.12 then 0.06 else 0.5 * SoilThickness in
    {| SoilStatics.TopDepth := TopDepth;
       SoilStatics.RootDepth := SoilThickness - TopDepth;
       SoilStatics.SecondsPerTimeStep := IZR (Driver.MinutesPerTimeStep d) * 60.0;
       SoilStatics.DryCond := Material.Conductivity m;
       SoilStatics.DryDens := Material.Density m;
       SoilStatics.DryAbsorp := Material.AbsorpSolar m;
       SoilStatics.DrySpecHeat := Material.SpecHeat m;
       SoilStatics.UpdatebeginFlag := false |}
  else s.

(** The two reservoirs and the runoff of the current step, as they are
    threaded through the body. *)
Module Soil.
Record t := {
  Moisture : R;
  MeanRootMoisture : R;
  CurrentRunoff : R
}.
End Soil.

(** Line 1667-1668: precipitation of the step. *)
Definition precipitation_of (d : Driver.t) : R :=
  match Driver.RainFall_ModeID d with
  | RainSchedDesign => Driver.RainFall_CurrentAmount d
  | RainNone => 0.0
  end.

(** Lines 1676-1686: irrigation of the step, given the near-surface moisture
    after evaporation and rain. *)
Definition irrigation_of (d : Driver.t) (MoistureMax Moisture : R) : R :=
  match Driver.Irrigation_ModeID d with
  | IrrSchedDesign => Driver.Irrigation_ScheduledAmount d
  | IrrSmartSched =>
      if Rlt_dec Moisture (Driver.Irrigation_IrrigationThreshold d * MoistureMax)
      then Driver.Irrigation_ScheduledAmount d
      else 0.0
  | IrrNone => 0.0
  end.

(** Lines 1653-1654: extraction by evaporation and transpiration. *)
Definition after_evaporation (d : Driver.t) (s : SoilStatics.t)
    (Vfluxf Vfluxg Moisture MeanRootMoisture : R) : R * R :=
  (Moisture - Vfluxg * IZR (Driver.MinutesPerTimeStep d) * 60.0 / SoilStatics.TopDepth s,
   MeanRootMoisture - Vfluxf * IZR (Driver.MinutesPerTimeStep d) * 60.0 / SoilStatics.RootDepth s).

(** Lines 1662-1686: the precipitation and the irrigation of the step; the
    smart schedule looks at the near-surface moisture after evaporation and
    rain. *)
Definition water_inputs (d : Driver.t) (s : SoilStatics.t)
    (MoistureMax Vfluxf Vfluxg Moisture MeanRootMoisture : R) : R * R :=
  let Moisture := fst (after_evaporation d s Vfluxf Vfluxg Moisture MeanRootMoisture) in
  let CurrentPrecipitation := precipitation_of d in
  let Moisture :=
    match Driver.RainFall_ModeID d with
    | RainSchedDesign => Moisture + CurrentPrecipitation / SoilStatics.TopDepth s
    | RainNone => Moisture
    end in
  (CurrentPrecipitation, irrigation_of d MoistureMax Moisture).

(** Lines 1650-1716: evaporation, rain, irrigation, the input-rate cap and
    the saturation overflow of the top layer. *)
Definition soil_inputs (d : Driver.t) (s : SoilStatics.t)
    (MoistureMax Vfluxf Vfluxg Moisture MeanRootMoisture : R) : Soil.t :=
  let TopDepth := SoilStatics.TopDepth s in
  let CurrentRunoff := 0.0 in
  let '(CurrentPrecipitation, CurrentIrrigation) :=
    water_inputs d s MoistureMax Vfluxf Vfluxg Moisture MeanRootMoisture in
  let '(Moisture, MeanRootMoisture) :=
    after_evaporation d s Vfluxf Vfluxg Moisture MeanRootMoisture in
  let Moisture :=
    match Driver.RainFall_ModeID d with
    | RainSchedDesign => Moisture + CurrentPrecipitation / TopDepth
    | RainNone => Moisture
    end in
  let Moisture := Moisture + CurrentIrrigation / TopDepth in
  let limit := 0.5 * 0.0254 * IZR (Driver.MinutesPerTimeStep d) / 60.0 in
  let CurrentRunoff :=
    if Rgt_dec (CurrentIrrigation + CurrentPrecipitation) limit
    then CurrentIrrigation + CurrentPrecipitation - limit
    else CurrentRunoff in
  let Moisture :=
    if Rgt_dec (CurrentIrrigation + CurrentPrecipitation) limit
    then Moisture - CurrentRunoff / TopDepth
    else Moisture in
  if Rgt_dec Moisture MoistureMax then
    {| Soil.Moisture := MoistureMax;
       Soil.MeanRootMoisture := MeanRootMoisture;
       Soil.CurrentRunoff := CurrentRunoff + (Moisture - MoistureMax) * TopDepth |}
  else
    {| Soil.Moisture := Moisture;
       Soil.MeanRootMoisture := MeanRootMoisture;
       Soil.CurrentRunoff := CurrentRunoff |}.

(** Lines 1735-1751: the proportional-diffusion law
    ([EcoRoofCalculationMethod == 1]). *)
Definition redistribute_diffusion (d : Driver.t) (s : SoilStatics.t)
    (MoistureMax : R) (w : Soil.t) : Soil.t :=
  let TopDepth := SoilStatics.TopDepth s in
  let RootDepth := SoilStatics.RootDepth s in
  let Moisture := Soil.Moisture w in
  let MeanRootMoisture := Soil.MeanRootMoisture w in
  if Rgt_dec Moisture MeanRootMoisture then
    let MoistureDiffusion :=
      Rmin ((MoistureMax - MeanRootMoisture) * RootDepth)
           ((Moisture - MeanRootMoisture) * TopDepth) in
    let MoistureDiffusion := Rmax 0.0 MoistureDiffusion in
    let MoistureDiffusion :=
      MoistureDiffusion * (0.00005 * IZR (Driver.MinutesPerTimeStep d) * 60.0) in
    {| Soil.Moisture := Moisture - MoistureDiffusion / TopDepth;
       Soil.MeanRootMoisture := MeanRootMoisture + MoistureDiffusion / RootDepth;
       Soil.CurrentRunoff := Soil.CurrentRunoff w |}
  else if Rgt_dec MeanRootMoisture Moisture then
    let MoistureDiffusion :=
      Rmin ((MoistureMax - Moisture) * TopDepth)
           ((MeanRootMoisture - Moisture) * RootDepth) in
    let MoistureDiffusion := Rmax 0.0 MoistureDiffusion in
    let MoistureDiffusion :=
      MoistureDiffusion * (0.00001 * IZR (Driver.MinutesPerTimeStep d) * 60.0) in
    {| Soil.Moisture := Moisture + MoistureDiffusion / TopDepth;
       Soil.MeanRootMoisture := MeanRootMoisture - MoistureDiffusion / RootDepth;
       Soil.CurrentRunoff := Soil.CurrentRunoff w |}
  else w.

(** Lines 1780 and 1785: unsaturated hydraulic conductivity at a relative
    saturation.  For a saturation in (0, 1] every power is taken in the
    domain of [std::pow]; for a negative one the source has a NaN. *)
Definition SoilHydroConductivity (RelativeSoilSaturation : R) : R :=
  SoilConductivitySaturation * std_pow RelativeSoilSaturation lambda
  * pow_2 (1.0 - std_pow (1.0 - std_pow RelativeSoilSaturation (n / (n - 1.0)))
                         ((n - 1.0) / n)).

(** Lines 1781 and 1786: capillary potential at a relative saturation.  For
    a saturation in (0, 1] the quotient has a non-zero divisor and the powers
    are taken in the domain of [std::pow]; at zero the source divides by
    zero and below zero it has a NaN, neither of which this function
    reproduces. *)
Definition CapillaryPotential (RelativeSoilSaturation : R) : R :=
  (-1.0 / alpha)
  * std_pow (std_pow (1.0 / RelativeSoilSaturation) (n / (n - 1.0)) - 1.0) (1.0 / n).

(** Lines 1770-1779: relative saturation of the top layer with its floor. *)
Definition RelativeSoilSaturationTop (MoistureMax MoistureResidual Moisture : R) : R :=
  let r := (Moisture - MoistureResidual) / (MoistureMax - MoistureResidual) in
  if Rlt_dec r 0.0001 then 0.0001 else r.

(** Line 1784: relative saturation of the root layer.  Unlike the top
    layer's it has no floor: a root zone at or below the residual moisture
    gives a saturation that is zero or negative. *)
Definition RelativeSoilSaturationRoot (MoistureMax MoistureResidual MeanRootMoisture : R) : R :=
  (MeanRootMoisture - MoistureResidual) / (MoistureMax - MoistureResidual).

(** Lines 1804-1809: bottom drainage conductivity with its one-drop floor. *)
Definition SoilConductivityAveRoot (SoilHydroConductivityRoot : R) : R :=
  if Rle_dec (SoilHydroConductivityRoot * 3600.0) 2.33e-7 then 0.0
  else SoilHydroConductivityRoot.

(** Lines 1780-1789 as functions of the two moistures on entry to the
    law. *)
Definition CapillaryPotentialTop (MoistureMax MoistureResidual Moisture : R) : R :=
  CapillaryPotential (RelativeSoilSaturationTop MoistureMax MoistureResidual Moisture).

Definition CapillaryPotentialRoot (MoistureMax MoistureResidual MeanRootMoisture : R) : R :=
  CapillaryPotential (RelativeSoilSaturationRoot MoistureMax MoistureResidual MeanRootMoisture).

Definition SoilHydroConductivityRoot (MoistureMax MoistureResidual MeanRootMoisture : R) : R :=
  SoilHydroConductivity (RelativeSoilSaturationRoot MoistureMax MoistureResidual MeanRootMoisture).

Definition SoilConductivityAveTop (MoistureMax MoistureResidual : R) (w : Soil.t) : R :=
  (SoilHydroConductivity
     (RelativeSoilSaturationTop MoistureMax MoistureResidual (Soil.Moisture w))
   + SoilHydroConductivityRoot MoistureMax MoistureResidual (Soil.MeanRootMoisture w))
  * 0.5.

(** Line 1790: the near-surface moisture after the flow, before its
    clamps. *)
Definition top_after_flow (s : SoilStatics.t) (MoistureMax MoistureResidual : R)
    (w : Soil.t) : R :=
  let K := SoilConductivityAveTop MoistureMax MoistureResidual w in
  Soil.Moisture w
  + (SoilStatics.SecondsPerTimeStep s / SoilStatics.TopDepth s)
    * ((K * (CapillaryPotentialTop MoistureMax MoistureResidual (Soil.Moisture w)
             - CapillaryPotentialRoot MoistureMax MoistureResidual (Soil.MeanRootMoisture w))
        / SoilStatics.TopDepth s)
       - K).

(** Line 1813: the root-zone moisture after the flow, before its clamps. *)
Definition root_after_flow (s : SoilStatics.t) (MoistureMax MoistureResidual : R)
    (w : Soil.t) : R :=
  let K := SoilConductivityAveTop MoistureMax MoistureResidual w in
  Soil.MeanRootMoisture w
  + (SoilStatics.SecondsPerTimeStep s / SoilStatics.RootDepth s)
    * ((K * (CapillaryPotentialTop MoistureMax MoistureResidual (Soil.Moisture w)
             - CapillaryPotentialRoot MoistureMax MoistureResidual (Soil.MeanRootMoisture w))
        / SoilStatics.RootDepth s)
       + K
       - SoilConductivityAveRoot
           (SoilHydroConductivityRoot MoistureMax MoistureResidual (Soil.MeanRootMoisture w))).

(** Lines 1770-1827: the unsaturated-flow law (any other
    [EcoRoofCalculationMethod]).  The runoff statement of line 1795 reads
    [Moisture] after line 1794 has overwritten it, and that of line 1818
    reads [Moisture] where the root zone was clamped.  The function follows
    the source for a soil state within [unsaturated_flow_defined]; for a
    root zone at or below the residual moisture the source computes NaN
    moistures, which the finite values computed here do not stand for. *)
Definition redistribute_unsaturated (s : SoilStatics.t)
    (MoistureMax MoistureResidual : R) (w : Soil.t) : Soil.t :=
  let TopDepth := SoilStatics.TopDepth s in
  let RootDepth := SoilStatics.RootDepth s in
  let CurrentRunoff := Soil.CurrentRunoff w in
  let Moisture := top_after_flow s MoistureMax MoistureResidual w in
  let '(Moisture, CurrentRunoff) :=
    if Rge_dec Moisture MoistureMax then
      let Moisture := 0.9999 * MoistureMax in
      (Moisture, CurrentRunoff + (Moisture - MoistureMax * 0.9999) * TopDepth)
    else (Moisture, CurrentRunoff) in
  let Moisture :=
    if Rle_dec Moisture (1.01 * MoistureResidual) then 1.01 * MoistureResidual
    else Moisture in
  let MeanRootMoisture := root_after_flow s MoistureMax MoistureResidual w in
  let '(MeanRootMoisture, CurrentRunoff) :=
    if Rge_dec MeanRootMoisture MoistureMax then
      (0.9999 * MoistureMax, CurrentRunoff + (Moisture - MoistureMax * 0.9999) * RootDepth)
    else (MeanRootMoisture, CurrentRunoff) in
  let MeanRootMoisture :=
    if Rle_dec MeanRootMoisture (1.01 * MoistureResidual) then 1.01 * MoistureResidual
    else MeanRootMoisture in
  {| Soil.Moisture := Moisture;
     Soil.MeanRootMoisture := MeanRootMoisture;
     Soil.CurrentRunoff :=
       CurrentRunoff
       + SoilConductivityAveRoot
           (SoilHydroConductivityRoot MoistureMax MoistureResidual (Soil.MeanRootMoisture w))
         * SoilStatics.SecondsPerTimeStep s |}.

(** Line 1718: the law is chosen by the material's calculation method. *)
Definition redistribute (d : Driver.t) (s : SoilStatics.t) (m : Material.t)
    (MoistureMax MoistureResidual : R) (w : Soil.t) : Soil.t :=
  if Z.eq_dec (Material.EcoRoofCalculationMethod m) 1
  then redistribute_diffusion d s MoistureMax w
  else redistribute_unsaturated s MoistureMax MoistureResidual w.

(** Lines 1838-1844: a root zone at or below the residual borrows from the
    top layer, which is floored in turn. *)
Definition root_floor (s : SoilStatics.t) (MoistureResidual : R) (w : Soil.t) : Soil.t :=
  let TopDepth := SoilStatics.TopDepth s in
  let RootDepth := SoilStatics.RootDepth s in
  if Rle_dec (Soil.MeanRootMoisture w) (MoistureResidual * 1.00001) then
    let Moisture :=
      Soil.Moisture w
      - (MoistureResidual * 1.00001 - Soil.MeanRootMoisture w) * RootDepth / TopDepth in
    let Moisture :=
      if Rlt_dec Moisture (MoistureResidual * 1.00001)
      then MoistureResidual * 1.00001 else Moisture in
    {| Soil.Moisture := Moisture;
       Soil.MeanRootMoisture := MoistureResidual * 1.00001;
       Soil.CurrentRunoff := Soil.CurrentRunoff w |}
  else w.

(** Lines 1650-1844: the moisture part of the update. *)
Definition soil_moisture_step (d : Driver.t) (s : SoilStatics.t) (m : Material.t)
    (MoistureMax MoistureResidual Vfluxf Vfluxg Moisture MeanRootMoisture : R) : Soil.t :=
  root_floor s MoistureResidual
    (redistribute d s m MoistureMax MoistureResidual
       (soil_inputs d s MoistureMax Vfluxf Vfluxg Moisture MeanRootMoisture)).

(** *** The single-step water balance *)

(** The moisture that line 1842 adds to the top layer when it floors it. *)
Definition top_floor_gain (s : SoilStatics.t) (MoistureResidual : R) (w : Soil.t) : R :=
  if Rle_dec (Soil.MeanRootMoisture w) (MoistureResidual * 1.00001) then
    let Moisture :=
      Soil.Moisture w
      - (MoistureResidual * 1.00001 - Soil.MeanRootMoisture w)
        * SoilStatics.RootDepth s / SoilStatics.TopDepth s in
    if Rlt_dec Moisture (MoistureResidual * 1.00001)
    then MoistureResidual * 1.00001 - Moisture else 0
  else 0.

(** No clamp of the unsaturated-flow path fires on the soil state [w] that
    enters the law: not the saturation floor of line 1771, not the bounds of
    lines 1793, 1799, 1816 and 1822, not the root floor of line 1838. *)
Definition unsaturated_clamp_free (s : SoilStatics.t)
    (MoistureMax MoistureResidual : R) (w : Soil.t) : Prop :=
  ~ (Soil.Moisture w - MoistureResidual) / (MoistureMax - MoistureResidual) < 0.0001
  /\ ~ top_after_flow s MoistureMax MoistureResidual w >= MoistureMax
  /\ ~ top_after_flow s MoistureMax MoistureResidual w <= 1.01 * MoistureResidual
  /\ ~ root_after_flow s MoistureMax MoistureResidual w >= MoistureMax
  /\ ~ root_after_flow s MoistureMax MoistureResidual w <= 1.01 * MoistureResidual
  /\ ~ root_after_flow s MoistureMax MoistureResidual w <= MoistureResidual * 1.00001.

(** The pair of tests that follows each [TestRatio] assignment (lines
    1863-1864, 1897-1898, 1903-1904, 1909-1910). *)
Definition limit_TestRatio (d : Driver.t) (TestRatio : R) : R :=
  let TestRatio := if Rgt_dec TestRatio (RatioMax d) then RatioMax d else TestRatio in
  if Rlt_dec TestRatio (RatioMin d) then RatioMin d else TestRatio.

(** Lines 1855-1859: the absorptance the soil ought to attain. *)
Definition SoilAbsorpSolar (s : SoilStatics.t) (MoistureMax MoistureResidual Moisture : R) : R :=
  let a :=
    SoilStatics.DryAbsorp s
    + (0.92 - SoilStatics.DryAbsorp s) * (Moisture - MoistureResidual)
      / (MoistureMax - MoistureResidual) in
  let a := if Rgt_dec a 0.95 then 0.95 else a in
  if Rlt_dec a 0.20 then 0.20 else a.

(** Line 1867. *)
Definition AvgMoisture (s : SoilStatics.t) (SoilThickness Moisture MeanRootMoisture : R) : R :=
  (SoilStatics.RootDepth s * MeanRootMoisture + SoilStatics.TopDepth s * Moisture)
  / SoilThickness.

(** Lines 1868, 1876, 1884-1885: the target density, specific heat and
    conductivity. *)
Definition SoilDensity (s : SoilStatics.t) (MoistureResidual AvgMoisture : R) : R :=
  SoilStatics.DryDens s + (AvgMoisture - MoistureResidual) * 990.0.

Definition SoilSpecHeat (s : SoilStatics.t) (AvgMoisture : R) : R :=
  SoilStatics.DrySpecHeat s + 1900.0 * AvgMoisture.

Definition SoilConductivity (s : SoilStatics.t)
    (MoistureMax MoistureResidual AvgMoisture : R) : R :=
  let SatRatio := (AvgMoisture - MoistureResidual) / (MoistureMax - MoistureResidual) in
  (SoilStatics.DryCond s / 1.15) * (1.45 * exp (4.411 * SatRatio))
  / (1.0 + 0.45 * exp (4.411 * SatRatio)).

(** Lines 1862-1865: the ground albedo after its rate-limited step. *)
Definition update_Alphag (d : Driver.t) (Alphag absorp : R) : R :=
  Alphag * limit_TestRatio d ((1.0 - absorp) / Alphag).

(** Lines 1896-1912: the rate-limited write-back into the material record. *)
Definition update_material (d : Driver.t) (m : Material.t)
    (conductivity density specheat : R) : Material.t :=
  let m :=
    with_Conductivity m
      (Material.Conductivity m
       * limit_TestRatio d (conductivity / Material.Conductivity m)) in
  let m :=
    with_Density m
      (Material.Density m * limit_TestRatio d (density / Material.Density m)) in
  with_SpecHeat m
    (Material.SpecHeat m * limit_TestRatio d (specheat / Material.SpecHeat m)).

(** Lines 1657-1691 and 1834-1836: the water-balance variables.  The
    cumulative totals move only outside warm-up. *)
Definition update_water (d : Driver.t) (w : Water.t)
    (CurrentET CurrentPrecipitation CurrentIrrigation CurrentRunoff : R) : Water.t :=
  let acc (total now : R) := if Driver.WarmupFlag d then total else total + now in
  {| Water.CumRunoff := acc (Water.CumRunoff w) CurrentRunoff;
     Water.CumET := acc (Water.CumET w) CurrentET;
     Water.CumPrecip :=
       match Driver.RainFall_ModeID d with
       | RainSchedDesign => acc (Water.CumPrecip w) CurrentPrecipitation
       | RainNone => Water.CumPrecip w
       end;
     Water.CumIrrigation := acc (Water.CumIrrigation w) CurrentIrrigation;
     Water.CurrentRunoff := CurrentRunoff;
     Water.CurrentET := CurrentET;
     Water.CurrentPrecipitation := CurrentPrecipitation;
     Water.CurrentIrrigation := CurrentIrrigation |}.

(** What a call leaves behind: the three reference arguments, the statics,
    the module variables, the material table and [Irrigation.ActualAmount]. *)
Module SoilUpdate.
Record t := {
  Moisture : R;
  MeanRootMoisture : R;
  Alphag : R;
  statics : SoilStatics.t;
  water : Water.t;
  materials : Materials;
  Irrigation_ActualAmount : R
}.
End SoilUpdate.

(** The whole routine.  The arguments [unit], [Tg], [Tf] and [Qsoil] are
    unused in the source and are not carried. *)
Definition UpdateSoilProps (d : Driver.t) (s0 : SoilStatics.t) (w0 : Water.t)
    (ms : Materials)
    (Moisture MeanRootMoisture MoistureMax MoistureResidual SoilThickness
     Vfluxf Vfluxg : R) (ConstrNum : Z) (Alphag : R) : SoilUpdate.t :=
  let m := ms ConstrNum in
  let s := UpdateSoilProps_begin d m SoilThickness s0 in
  let CurrentET := (Vfluxg + Vfluxf) * IZR (Driver.MinutesPerTimeStep d) * 60.0 in
  let '(CurrentPrecipitation, CurrentIrrigation) :=
    water_inputs d s MoistureMax Vfluxf Vfluxg Moisture MeanRootMoisture in
  let soil :=
    soil_moisture_step d s m MoistureMax MoistureResidual Vfluxf Vfluxg
      Moisture MeanRootMoisture in
  let Moisture := Soil.Moisture soil in
  let MeanRootMoisture := Soil.MeanRootMoisture soil in
  let avg := AvgMoisture s SoilThickness Moisture MeanRootMoisture in
  {| SoilUpdate.Moisture := Moisture;
     SoilUpdate.MeanRootMoisture := MeanRootMoisture;
     SoilUpdate.Alphag :=
       update_Alphag d Alphag (SoilAbsorpSolar s MoistureMax MoistureResidual Moisture);
     SoilUpdate.statics := s;
     SoilUpdate.water :=
       update_water d w0 CurrentET CurrentPrecipitation CurrentIrrigation
         (Soil.CurrentRunoff soil);
     SoilUpdate.materials :=
       set_material ms ConstrNum
         (update_material d m
            (SoilConductivity s MoistureMax MoistureResidual avg)
            (SoilDensity s MoistureResidual avg)
            (SoilSpecHeat s avg));
     SoilUpdate.Irrigation_ActualAmount := CurrentIrrigation |}.

(** ** Flux correlation functions (lines 795-986) *)

(** The part of the host's surface and weather data the module reads.
    Arrays indexed by surface, zone or construction number are functions. *)
Module Env.
Record t := {
  driver : Driver.t;
  Surface_Area : Z -> R;
  Surface_Centroid_z : Z -> R;
  Surface_ViewFactorSky : Z -> R;
  Surface_ViewFactorGround : Z -> R;
  Surface_ExtWind : Z -> bool;
  Surface_StormWinConstruction : Z -> Z;
  SurfaceWindow_StormWinFlag : Z -> Z;
  AnisoSkyMult : Z -> R;
  BeamSolarRad : R;
  DifSolarRad : R;
  GroundTempKelvin : R;
  SkyTempKelvin : R;
  OutRelHum : R;
  StdBaroPress : R;
  WindSpeedAt : R -> R;
  OutDryBulbTempAt : R -> R;
  Construct_CTFCross0 : Z -> R;
  Construct_CTFInside0 : Z -> R;
  Construct_CTFOutside0 : Z -> R;
  Construct_CTFSourceIn0 : Z -> R;
  HConvIn : Z -> R;
  CTFConstOutPart : Z -> R;
  CTFConstInPart : Z -> R;
  QRadSWInAbs : Z -> R;
  QRadThermInAbs : Z -> R;
  QsrcHist1 : Z -> R;
  NetLWRadToSurf : Z -> R;
  TempSurfIn : Z -> R;
  MAT : Z -> R
}.
End Env.

Definition nu_air : R := 15.66e-6.
Definition Pr_air : R := 0.71.

(** Lines 822-829 (and 881-888): the geometry and the two dimensionless
    numbers shared by both coefficient functions. *)
Definition roof_length (e : Env.t) (SurfNum : Z) : R := sqrt (Env.Surface_Area e SurfNum).

Definition L_cha (e : Env.t) (SurfNum : Z) : R :=
  let length := roof_length e SurfNum in
  let wide := length in
  length * wide / (2 * length + 2 * wide).

Definition Grashof (e : Env.t) (SurfNum : Z) (Tair_k surface_temp : R) : R :=
  let Tavg := 0.5 * (Tair_k + surface_temp) in
  let Beta := 1.0 / Tavg in
  Rabs (9.81 * Beta * (surface_temp - Tair_k) * pow_3 (L_cha e SurfNum) / pow_2 nu_air).

Definition Reynolds (e : Env.t) (SurfNum : Z) (WindSpeed : R) : R :=
  WindSpeed * roof_length e SurfNum / nu_air.

(** The three tests of lines 832, 838 and 846 (891, 897, 905).  The
    exponent [5/3] is an integer quotient in the source. *)
Definition forced_regime (Gr Re : R) : Prop := Gr < 0.068 * std_pow Re 2.2.
Definition mixed_regime (Gr Re : R) : Prop :=
  Gr > 0.068 * std_pow Re 2.2 /\ Gr < 55.3 * std_pow Re (IZR (5 / 3)).
Definition natural_regime (Gr Re : R) : Prop := Gr > 55.3 * std_pow Re (IZR (5 / 3)).

(** [h_conv] (lines 797-852).  The result variable has no initialiser: when
    none of the three tests holds the function returns whatever the variable
    held, here the argument [indeterminate]. *)
Definition h_conv (indeterminate : R) (e : Env.t) (SurfNum : Z)
    (Tair_k plant_temp WindSpeed k_air1 : R) : R :=
  let length := roof_length e SurfNum in
  let Gr := Grashof e SurfNum Tair_k plant_temp in
  let Re := Reynolds e SurfNum WindSpeed in
  let h_conv := indeterminate in
  let h_conv :=
    if Rlt_dec Gr (0.068 * std_pow Re 2.2) then
      let Nu := 3.0 + 1.25 * 0.0253 * std_pow Re 0.8 in
      3.0 * Nu * k_air1 / length
    else h_conv in
  let h_conv :=
    if Rgt_dec Gr (0.068 * std_pow Re 2.2) then
      if Rlt_dec Gr (55.3 * std_pow Re (IZR (5 / 3))) then
        let Nu :=
          2.7 * std_pow (Gr / std_pow Re 2.2) (IZR (1 / 3))
          * (IZR (3 * 15 / 4) + 0.0253 * 15 / 16 * std_pow Re 0.8) in
        let Norm := (Gr / std_pow Re (IZR (5 / 3))) / 60 in
        let Lmixed := L_cha e SurfNum * Norm + length * (1 - Norm) in
        3 * Nu * k_air1 / Lmixed
      else h_conv
    else h_conv in
  if Rgt_dec Gr (55.3 * std_pow Re (IZR (5 / 3))) then
    let Nu := 0.15 * std_pow (Gr * Pr_air) (IZR (1 / 3)) in
    3 * Nu * k_air1 / L_cha e SurfNum
  else h_conv.

(** [h_conv_bare] (lines 856-911): the same tests with the factor 2.1. *)
Definition h_conv_bare (indeterminate : R) (e : Env.t) (SurfNum : Z)
    (Tair_k BareSoil_temp WindSpeed k_air1 : R) : R :=
  let length := roof_length e SurfNum in
  let Gr_soil := Grashof e SurfNum Tair_k BareSoil_temp in
  let Re := Reynolds e SurfNum WindSpeed in
  let h_conv_bare := indeterminate in
  let h_conv_bare :=
    if Rlt_dec Gr_soil (0.068 * std_pow Re 2.2) then
      let Nu := 3.0 + 1.25 * 0.0253 * std_pow Re 0.8 in
      2.1 * Nu * k_air1 / length
    else h_conv_bare in
  let h_conv_bare :=
    if Rgt_dec Gr_soil (0.068 * std_pow Re 2.2) then
      if Rlt_dec Gr_soil (55.3 * std_pow Re (IZR (5 / 3))) then
        let Nu :=
          2.7 * std_pow (Gr_soil / std_pow Re 2.2) (IZR (1 / 3))
          * (IZR (3 * 15 / 4) + 0.0253 * 15 / 16 * std_pow Re 0.8) in
        let Norm := (Gr_soil / std_pow Re (IZR (5 / 3))) / 60 in
        let Lmixed := L_cha e SurfNum * Norm + length * (1 - Norm) in
        2.1 * Nu * k_air1 / Lmixed
      else h_conv_bare
    else h_conv_bare in
  if Rgt_dec Gr_soil (55.3 * std_pow Re (IZR (5 / 3))) then
    let Nu := 0.15 * std_pow (Gr_soil * Pr_air) (IZR (1 / 3)) in
    2.1 * Nu * k_air1 / L_cha e SurfNum
  else h_conv_bare.

(** Saturation vapour pressure in kPa (lines 915-923). *)
Definition e_s (Temperature : R) : R :=
  0.6108 * exp ((17.27 * (Temperature - KelvinConv)) / ((Temperature - KelvinConv) + 237.3)).

(** Lines 927-955. *)
Definition f_Hum (Temperature eair : R) : R :=
  let VPD_plants := e_s Temperature - eair in
  let f_VPD := if Rgt_dec VPD_plants 0.0 then 1.0 - 0.41 * ln VPD_plants else 1.0 in
  let f_VPD := if Rgt_dec f_VPD 1.0 then 1.0 else f_VPD in
  let f_VPD := if Rlt_dec f_VPD 0.0 then 0.05 else f_VPD in
  1.0 / f_VPD.

(** Lines 958-966. *)
Definition f_temp (Temperature : R) : R :=
  Rabs (1 / (1 - 0.0016 * pow_2 (35 - (Temperature - KelvinConv)))).

(** Psychrometric constant (lines 970-985). *)
Definition gamma_s (Temperature Cp_air Pa : R) : R :=
  let i_fg := (-2.3793 * (Temperature - KelvinConv) + 2501.1) * 1000 in
  Cp_air * (Pa / 1000) / (0.622 * i_fg).

(** ** The scalar root-find of the plant-coverage model

    Lines 487-561, 578-650 and 666-727 are three copies of one loop that
    differ only in the balance function and its derivative; the copy is
    written once over [Func] and [Func_prim]. *)

Definition Rltb (a b : R) : bool := if Rlt_dec a b then true else false.
Definition Rgtb (a b : R) : bool := if Rgt_dec a b then true else false.

(** The sign test of lines 518, 541 and 546. *)
Definition sign_change (a b : R) : bool :=
  (Rltb a 0.0 && Rgtb b 0.0) || (Rgtb a 0.0 && Rltb b 0.0).

(** An array written by index ([Solution1], [Func1], ...). *)
Definition store (a : Z -> R) (i : Z) (v : R) : Z -> R :=
  fun j => if Z.eq_dec j i then v else a j.

(** The variables of the bisection loop. *)
Module Bisect.
Record t := {
  iter_Mid : Z;
  Func_1 : R;
  Func_2 : R;
  Sol_1 : R;
  Sol_2 : R;
  MidPoint : R;
  T_new : R
}.
End Bisect.

Section RootFind.

Variable Func : R -> R.
Variable Func_prim : R -> R.

(** One pass of the bisection body (lines 522-550).  [f_iter], [f_prev],
    [s_iter] and [s_prev] are [Func1[iter1]], [Func1[iter1-1]],
    [Solution1[iter1]] and [Solution1[iter1-1]], loaded on the first pass. *)
Definition bisect_pass (f_iter f_prev s_iter s_prev : R) (b : Bisect.t) : Bisect.t :=
  let iter_Mid := (Bisect.iter_Mid b + 1)%Z in
  let first := Z.eqb iter_Mid 1 in
  let Func_1 := if first then f_iter else Bisect.Func_1 b in
  let Func_2 := if first then f_prev else Bisect.Func_2 b in
  let Sol_1 := if first then s_iter else Bisect.Sol_1 b in
  let Sol_2 := if first then s_prev else Bisect.Sol_2 b in
  let MidPoint := if Z.gtb iter_Mid 1 then Bisect.T_new b else Bisect.MidPoint b in
  let Func_MidPoint := Func MidPoint in
  if sign_change Func_MidPoint Func_1 then
    {| Bisect.iter_Mid := iter_Mid;
       Bisect.Func_1 := Func_1;
       Bisect.Func_2 := Func_MidPoint;
       Bisect.Sol_1 := Sol_1;
       Bisect.Sol_2 := MidPoint;
       Bisect.MidPoint := MidPoint;
       Bisect.T_new := 0.5 * (MidPoint + Sol_1) |}
  else if sign_change Func_MidPoint Func_2 then
    {| Bisect.iter_Mid := iter_Mid;
       Bisect.Func_1 := Func_MidPoint;
       Bisect.Func_2 := Func_2;
       Bisect.Sol_1 := MidPoint;
       Bisect.Sol_2 := Sol_2;
       Bisect.MidPoint := MidPoint;
       Bisect.T_new := 0.5 * (MidPoint + Sol_2) |}
  else
    {| Bisect.iter_Mid := iter_Mid;
       Bisect.Func_1 := Func_1;
       Bisect.Func_2 := Func_2;
       Bisect.Sol_1 := Sol_1;
       Bisect.Sol_2 := Sol_2;
       Bisect.MidPoint := MidPoint;
       Bisect.T_new := Bisect.T_new b |}.

(** The [do ... while( abs(Tp_new - MidPoint) > 0.0001 )] loop of lines
    521-551, run for at most [passes] further passes after the first. *)
Fixpoint bisect_loop (passes : nat) (f_iter f_prev s_iter s_prev : R)
    (b : Bisect.t) : Bisect.t :=
  let b := bisect_pass f_iter f_prev s_iter s_prev b in
  if Rgtb (Rabs (Bisect.T_new b - Bisect.MidPoint b)) 0.0001 then
    match passes with
    | S k => bisect_loop k f_iter f_prev s_iter s_prev b
    | O => b
    end
  else b.

(** A number of passes that the loop never uses up (see
    [bisection_budget_suffices]): after its first move the bracket is at
    most [D] wide, and every further pass halves it. *)
Definition bisection_budget (s_iter s_prev MidPoint T_new : R) : nat :=
  let D :=
    Rmax (Rabs (MidPoint - s_iter))
      (Rmax (Rabs (MidPoint - s_prev))
         (Rmax (Rabs (T_new - s_iter)) (Rabs (T_new - s_prev)))) in
  2 + Z.to_nat (up (D / 0.0001)).

(** The variables on entry to the bisection (line 519): the counter at
    zero, the midpoint computed at line 514 and the pending Newton
    estimate.  The four bracket variables are loaded by the first pass; the
    values given to them here are never read. *)
Definition bisection_entry (f_iter f_prev s_iter s_prev MidPoint T_new : R) : Bisect.t :=
  {| Bisect.iter_Mid := 0;
     Bisect.Func_1 := f_iter;
     Bisect.Func_2 := f_prev;
     Bisect.Sol_1 := s_iter;
     Bisect.Sol_2 := s_prev;
     Bisect.MidPoint := MidPoint;
     Bisect.T_new := T_new |}.

(** The bisection entered from the Newton loop with the last two function
    values and the points they were taken at. *)
Definition bisection (f_iter f_prev s_iter s_prev MidPoint T_new : R) : Bisect.t :=
  bisect_loop (bisection_budget s_iter s_prev MidPoint T_new) f_iter f_prev s_iter s_prev
    (bisection_entry f_iter f_prev s_iter s_prev MidPoint T_new).

(** Passes the Newton loop may still make before its counter reaches 100. *)
Definition passes_left (iter1 : Z) : nat := Z.to_nat (100 - iter1).

(** The Newton loop (lines 487-559): [iter1] and [Tp_new] are the counter and
    the estimate on entry to a pass, [Solution1] and [Func1] the two arrays.
    The pass that brings the counter to 100 leaves the loop, through the
    bisection when the last two function values differ in sign.  A step
    divides by [Func_prim] at the current estimate; where that is zero the
    source has an infinity or a NaN and the quotient written here has no
    meaning, so the statements about the solve assume a non-zero derivative
    at every estimate from which a step is taken. *)
Equations? newton (iter1 : Z) (Tp_new : R) (Solution1 Func1 : Z -> R) : R
  by wf (passes_left iter1) lt :=
newton iter1 Tp_new Solution1 Func1 with Z_ge_dec (iter1 + 1) 100 := {
  | left _ =>
      let iter1 := (iter1 + 1)%Z in
      let Tp_old := Tp_new in
      let Func_p := Func Tp_old in
      let Tp_new := Tp_old - Func_p / Func_prim Tp_old in
      let Solution1 := store Solution1 iter1 Tp_old in
      let Func1 := store Func1 iter1 Func_p in
      let MidPoint := 0.5 * (Solution1 iter1 + Solution1 (iter1 - 1)%Z) in
      if sign_change (Func1 iter1) (Func1 (iter1 - 1)%Z) then
        Bisect.T_new
          (bisection (Func1 iter1) (Func1 (iter1 - 1)%Z)
             (Solution1 iter1) (Solution1 (iter1 - 1)%Z) MidPoint Tp_new)
      else Tp_new
  | right _ with Rgt_dec (Rabs ((Tp_new - Func Tp_new / Func_prim Tp_new) - Tp_new)) 0.0001 := {
      | left _ =>
          newton (iter1 + 1)%Z (Tp_new - Func Tp_new / Func_prim Tp_new)
            (store Solution1 (iter1 + 1)%Z Tp_new)
            (store Func1 (iter1 + 1)%Z (Func Tp_new))
      | right _ => Tp_new - Func Tp_new / Func_prim Tp_new } }.
Proof. unfold passes_left. lia. Qed.

(** A solve as the callers start it (lines 483-485): counter at zero, the
    carried temperature as first estimate. *)
Definition root_find (T_start : R) (Solution1 Func1 : Z -> R) : R :=
  newton 0 T_start Solution1 Func1.

End RootFind.

(** ** Shared state *)

(** Static locals of [GreenRoof_with_PlantCoverage] (lines 149-274), grouped
    by the statement that assigns them together.  [Qconv_p], [Qconv_s] and
    [Qconv_bare_s] are assigned inside the loops and never read, [unit] and
    [Qsoil] are never assigned; they are not carried. *)
Module Green.

(** Read from the material on first entry (lines 324-340). *)
Record Properties := {
  LAI : R;
  Alphap : R;
  epsilong : R;
  epsilonp : R;
  MoistureMax : R;
  MoistureResidual : R;
  SoilThickness : R;
  StomatalResistanceMin : R;
  sigma_f : R;
  VWC_fc : R;
  VWC_wp : R;
  Ksw : R;
  Klw : R
}.

Record Temperatures := {
  T_plant : R;
  T_soil : R;
  T_bare_soil : R;
  Tsoil_avg : R
}.

Record Fluxes := {
  Vfluxf : R;
  Vfluxg : R;
  Q_ET_p : R;
  Q_E_s : R;
  Q_E_bare_s : R;
  Q_E_avg : R
}.

(** The report variables (lines 162-178). *)
Record Reports := {
  Tsoil_avg_Rep : R;
  T_plant_Rep : R;
  Qconv_p_Rep : R;
  Qconv_s_Rep : R;
  Qconv_bare_s_Rep : R;
  Qconv_s_avg_Rep : R;
  Q_ET_p_Rep : R;
  Q_E_s_Rep : R;
  Q_E_bare_s_Rep : R;
  Q_E_avg_Rep : R;
  Q_sol_soil_Rep : R;
  Q_sol_bare_s_Rep : R;
  Q_sol_s_avg_Rep : R;
  Q_IR_s_Rep : R;
  Q_IR_bare_s_Rep : R;
  Q_IR_s_avg_Rep : R;
  Qcond_avg_Rep : R
}.

Record t := {
  MyEnvrnFlag : bool;
  FirstEcoSurf : Z;
  props : Properties;
  Moisture : R;
  MeanRootMoisture : R;
  Alphag : R;
  Alphag_UnUsed : R;
  temps : Temperatures;
  fluxes : Fluxes;
  reports : Reports
}.

End Green.

(** Automatic variables of one activation of
    [GreenRoof_with_PlantCoverage] that are assigned only inside the
    [if (SurfNum == FirstEcoSurf)] block of lines 423-457 but read after it,
    together with the start contents of the uninitialised result variable
    of the coefficient functions and of the six arrays.  An activation
    receives the values these locations hold on entry. *)
Module Frame.
Record t := {
  WS : R;
  Tak : R;
  Pa : R;
  Rhoa : R;
  eair : R;
  r_s_sub : R;
  Q_sol_abs_plants : R;
  Q_sol_abs_soil : R;
  Q_sol_abs_bare_soil : R;
  f_solar : R;
  f_VWC : R;
  indeterminate : R;
  Solution1 : Z -> R;
  Func1 : Z -> R;
  Solution2 : Z -> R;
  Func2 : Z -> R;
  Solution3 : Z -> R;
  Func3 : Z -> R
}.
End Frame.

(** Static locals of [CalcEcoRoof] (lines 1046-1166).  [e0] and [Za] are
    never assigned and appear as constants. *)
Module Calc.
Record t := {
  FirstEcoSurf : Z;
  QuickConductionSurf : bool;
  LAI : R;
  epsilonf : R;
  epsilong : R;
  Alphag : R;
  Alphaf : R;
  RH : R;
  Pa : R;
  Tg : R;
  Tf : R;
  Zf : R;
  Moisture : R;
  MoistureResidual : R;
  MoistureMax : R;
  MeanRootMoisture : R;
  SoilThickness : R;
  StomatalResistanceMin : R;
  f3 : R;
  Zog : R;
  Lf : R;
  Vfluxf : R;
  Qsoil : R;
  sheatf : R;
  sensiblef : R;
  sheatg : R;
  sensibleg : R;
  Lg : R;
  Vfluxg : R;
  MyEnvrnFlag : bool
}.
End Calc.

(** Everything the two entry points read and write besides the host's
    read-only data: the module variables of lines 73-84, the statics of the
    three routines, the material table, [Irrigation.ActualAmount] and the
    surface temperature history [TH( SurfNum, 1, 1 )]. *)
Module World.
Record t := {
  water : Water.t;
  Tfold : R;
  Tgold : R;
  EcoRoofbeginFlag : bool;
  soil : SoilStatics.t;
  materials : Materials;
  Irrigation_ActualAmount : R;
  TH : Z -> R;
  calc : Calc.t;
  green : Green.t
}.
End World.

Definition set_TH (TH : Z -> R) (SurfNum : Z) (v : R) : Z -> R :=
  fun s => if Z.eq_dec s SurfNum then v else TH s.

(** Lines 303 and 1174: a storm window replaces the construction index. *)
Definition storm_construction (e : Env.t) (SurfNum ConstrNum : Z) : Z :=
  if Z.eq_dec (Env.SurfaceWindow_StormWinFlag e SurfNum) 1
  then Env.Surface_StormWinConstruction e SurfNum
  else ConstrNum.

(** Lines 470-478 and 1285-1294: the two conduction feed terms
    [(Qsoilpart1, Qsoilpart2)]. *)
Definition conduction_terms (e : Env.t) (SurfNum ZoneNum ConstrNum : Z) : R * R :=
  let F1temp :=
    if Rgt_dec (Env.Construct_CTFCross0 e ConstrNum) 0.01 then
      Env.Construct_CTFCross0 e ConstrNum
      / (Env.Construct_CTFInside0 e ConstrNum + Env.HConvIn e SurfNum)
    else 0.0 in
  let Qsoilpart1 :=
    if Rgt_dec (Env.Construct_CTFCross0 e ConstrNum) 0.01 then
      - Env.CTFConstOutPart e SurfNum
      + F1temp * (Env.CTFConstInPart e SurfNum + Env.QRadSWInAbs e SurfNum
                  + Env.QRadThermInAbs e SurfNum
                  + Env.Construct_CTFSourceIn0 e ConstrNum * Env.QsrcHist1 e SurfNum
                  + Env.HConvIn e SurfNum * Env.MAT e ZoneNum
                  + Env.NetLWRadToSurf e SurfNum)
    else
      - Env.CTFConstOutPart e SurfNum
      + Env.Construct_CTFCross0 e ConstrNum * Env.TempSurfIn e SurfNum in
  let Qsoilpart2 :=
    Env.Construct_CTFOutside0 e ConstrNum - F1temp * Env.Construct_CTFCross0 e ConstrNum in
  (Qsoilpart1, Qsoilpart2).

(** ** [GreenRoof_with_PlantCoverage] (lines 92-792) *)

Definition Cp_air : R := 1005.0.
Definition Le_num : R := 1.0.
Definition phi : R := 0.85.
Definition k_air : R := 0.0267.
Definition k_plants : R := 0.5.
Definition Rair : R := 0.286e3.
Definition Sigma : R := 5.6697e-08.

Section GreenBalance.

(** What the three balance equations read besides the unknown: the host
    data, the surface, the vegetation properties, the activation's
    variables and the terms computed at lines 411-478. *)
Variable e : Env.t.
Variable SurfNum : Z.
Variable p : Green.Properties.
Variable f : Frame.t.
Variables tau_lw EpsilonOne h_por Qsoilpart1 Qsoilpart2 : R.

Let ViewFactorSky := Env.Surface_ViewFactorSky e SurfNum.
Let SkyTempKelvin := Env.SkyTempKelvin e.
Let epsilonp := Green.epsilonp p.
Let epsilong := Green.epsilong p.
Let LAI := Green.LAI p.
Let sigma_f := Green.sigma_f p.
Let StomatalResistanceMin := Green.StomatalResistanceMin p.
Let Tak := Frame.Tak f.
Let WS := Frame.WS f.
Let Rhoa := Frame.Rhoa f.
Let Pa := Frame.Pa f.
Let eair := Frame.eair f.
Let r_s_sub := Frame.r_s_sub f.
Let f_solar := Frame.f_solar f.

(** *** Plant balance (lines 492-508), with [T_soil] from the last solve
    and [f_VWC] as left by lines 452-460 *)

Definition plant_h_conv (T : R) : R :=
  h_conv (Frame.indeterminate f) e SurfNum Tak T WS k_air.

Definition Q_IR_sky_p (T : R) : R :=
  (1 - tau_lw) * epsilonp * Sigma
  * (ViewFactorSky * pow_4 SkyTempKelvin - pow_4 T
     - (1 - epsilonp) * ViewFactorSky * pow_4 SkyTempKelvin).

Definition Q_IR_exch_p (T_soil T : R) : R :=
  (1 - tau_lw) * Sigma * epsilonp * epsilong * (pow_4 T_soil - pow_4 T) / EpsilonOne.

Definition Qconv_p (T : R) : R := LAI * plant_h_conv T * (T - Tak).

Definition r_a (T : R) : R :=
  Rhoa * Cp_air * std_pow Le_num (IZR (2 / 3)) / plant_h_conv T.

Definition r_s (f_VWC T : R) : R :=
  (StomatalResistanceMin / LAI) * f_solar * f_Hum T eair * f_VWC * f_temp T.

Definition Q_ET_p (f_VWC T_soil T : R) : R :=
  (LAI * Rhoa * Cp_air / gamma_s T_soil Cp_air Pa) * (e_s T - eair)
  / (r_s f_VWC T + r_a T).

Definition Func_p (f_VWC T_soil Tp_old : R) : R :=
  Frame.Q_sol_abs_plants f + Q_IR_sky_p Tp_old + Q_IR_exch_p T_soil Tp_old
  - Qconv_p Tp_old - Q_ET_p f_VWC T_soil Tp_old.

Definition Func_prim_p (f_VWC T_soil Tp_old : R) : R :=
  let Var_1 := exp (17.27 * (Tp_old - KelvinConv) / ((Tp_old - KelvinConv) + 237.3)) in
  let Var_2 := 0.0016 * pow_2 (35.0 - Tp_old + KelvinConv) - 1.0 in
  let Var_a := LAI * Rhoa * Cp_air / gamma_s T_soil Cp_air Pa in
  let Var_b := (StomatalResistanceMin / LAI) * f_solar * f_Hum Tp_old eair * f_VWC in
  - 4.0 * (1.0 - tau_lw) * epsilonp * Sigma * pow_3 Tp_old
  - 4.0 * (1 - tau_lw) * Sigma * epsilonp * epsilong * pow_3 Tp_old / EpsilonOne
  - LAI * plant_h_conv Tp_old
  - (Var_a * 0.6108 * Var_1
     * (17.27 / (Tp_old - KelvinConv + 237.3)
        - 17.27 * (Tp_old - KelvinConv) / pow_2 (Tp_old - KelvinConv + 237.3))
     / (r_a Tp_old + Var_b / Rabs Var_2))
  + Var_a * Var_b * 0.0016 * Rabs Var_2 * (eair - 0.6108 * Var_1)
    * (2.0 * 35.0 - 2.0 * Tp_old + 2.0 * KelvinConv)
    / (pow_2 (Rabs Var_2) * (r_a Tp_old + Var_b / pow_2 (Rabs Var_2))).

(** *** Vegetated-soil balance (lines 583-600), with [T_plant] just solved *)

Definition r_a_sub (T_plant : R) : R :=
  Rhoa * Cp_air * std_pow Le_num (IZR (2 / 3))
  * (1 / h_por + 1 / plant_h_conv T_plant).

Definition Q_IR_sky_s (T : R) : R :=
  tau_lw * epsilong * Sigma
  * (ViewFactorSky * pow_4 SkyTempKelvin - pow_4 T
     - (1 - epsilong) * ViewFactorSky * pow_4 SkyTempKelvin).

Definition Q_IR_exch_s (T_plant T : R) : R :=
  (1 - tau_lw) * Sigma * epsilonp * epsilong * (pow_4 T_plant - pow_4 T) / EpsilonOne.

Definition Qconv_s (T_plant T : R) : R :=
  (h_por * plant_h_conv T_plant / (h_por + plant_h_conv T_plant)) * (T - Tak).

Definition Q_E_s (T_plant T : R) : R :=
  Rmax 0.0
    (Rhoa * Cp_air / gamma_s T Cp_air Pa * (e_s T - eair)
     / (r_s_sub + r_a_sub T_plant)).

Definition Qcond_s (T_bare_soil T : R) : R :=
  - Qsoilpart1
  + Qsoilpart2 * (sigma_f * (T - KelvinConv) + (1 - sigma_f) * (T_bare_soil - KelvinConv)).

Definition Func_s (T_plant T_bare_soil Ts_old : R) : R :=
  Frame.Q_sol_abs_soil f + Q_IR_sky_s Ts_old + Q_IR_exch_s T_plant Ts_old
  - Qconv_s T_plant Ts_old - Q_E_s T_plant Ts_old - Qcond_s T_bare_soil Ts_old.

(** The derivative of the evaporation term at lines 598 and 678, for an
    aerodynamic resistance [ra]. *)
Definition Q_E_prim (ra T : R) : R :=
  ((Rhoa * Cp_air / (r_s_sub + ra)) * 0.6108 * 0.622 * pow_2 1000.0
   * exp (- (17.27 * (KelvinConv - T)) / (T - KelvinConv + 237.3))
   * (17.27 / (T - KelvinConv + 237.3)
      + (17.27 * (KelvinConv - T)) / pow_2 (T - KelvinConv + 237.3))
   * (2501.1 - (- 2.3793) * (KelvinConv - T)))
  / (Cp_air * Pa)
  - ((Rhoa * Cp_air / (r_s_sub + ra)) * 0.622 * (- 2.3793) * pow_2 1000.0
     * (eair - 0.6108 * exp (- (17.27 * (KelvinConv - T)) / (T - KelvinConv + 237.3))))
    / (Cp_air * Pa).

Definition Func_prim_s (T_plant Ts_old : R) : R :=
  let Q_E_S_prim :=
    if Req_dec_T (Q_E_s T_plant Ts_old) 0.0 then 0.0
    else Q_E_prim (r_a_sub T_plant) Ts_old in
  - 4.0 * Sigma * pow_3 Ts_old * epsilong * tau_lw
  + (4.0 * Sigma * pow_3 Ts_old * epsilong * epsilonp * (tau_lw - 1.0)) / EpsilonOne
  - (plant_h_conv T_plant * h_por) / (plant_h_conv T_plant + h_por)
  - Q_E_S_prim - Qsoilpart2 * sigma_f.

(** *** Bare-soil balance (lines 671-679), with [T_soil] just solved *)

Definition bare_h_conv (T : R) : R :=
  h_conv_bare (Frame.indeterminate f) e SurfNum Tak T WS k_air.

Definition Q_IR_sky_bare_s (T : R) : R :=
  epsilong * Sigma
  * (ViewFactorSky * pow_4 SkyTempKelvin - pow_4 T
     - (1 - epsilong) * ViewFactorSky * pow_4 SkyTempKelvin).

Definition Qconv_bare_s (T : R) : R := bare_h_conv T * (T - Tak).

Definition r_a_bare (T : R) : R :=
  Rhoa * Cp_air * std_pow Le_num (IZR (2 / 3)) / bare_h_conv T.

Definition Q_E_bare_s (T : R) : R :=
  Rhoa * Cp_air / gamma_s T Cp_air Pa * (e_s T - eair) / (r_s_sub + r_a_bare T).

Definition Qcond_bare_s (T_soil T : R) : R :=
  - Qsoilpart1
  + Qsoilpart2 * (sigma_f * (T_soil - KelvinConv) + (1 - sigma_f) * (T - KelvinConv)).

Definition Func_bare_s (T_soil Ts_bare_old : R) : R :=
  Frame.Q_sol_abs_bare_soil f + Q_IR_sky_bare_s Ts_bare_old
  - Qconv_bare_s Ts_bare_old - Q_E_bare_s Ts_bare_old - Qcond_bare_s T_soil Ts_bare_old.

Definition Func_prim_bare_s (Ts_bare_old : R) : R :=
  - 4.0 * Sigma * pow_3 Ts_bare_old * epsilong - bare_h_conv Ts_bare_old
  - Q_E_prim (r_a_bare Ts_bare_old) Ts_bare_old - Qsoilpart2 * (1 - sigma_f).

End GreenBalance.

(** Lines 319-343: the first entry into either routine reads the vegetation
    properties and remembers the surface. *)
Definition green_first_entry (m : Material.t) (SurfNum : Z) (g : Green.t) : Green.t :=
  {| Green.MyEnvrnFlag := Green.MyEnvrnFlag g;
     Green.FirstEcoSurf := SurfNum;
     Green.props :=
       {| Green.LAI := Material.LAI m;
          Green.Alphap := Material.Lreflectivity m;
          Green.epsilong := Material.AbsorpThermal m;
          Green.epsilonp := Material.LEmissitivity m;
          Green.MoistureMax := Material.Porosity m;
          Green.MoistureResidual := Material.MinMoisture m;
          Green.SoilThickness := Material.Thickness m;
          Green.StomatalResistanceMin := Material.RStomata m;
          Green.sigma_f := Material.PlantCoverage m;
          Green.VWC_fc := Material.VWC_FieldCapacity m;
          Green.VWC_wp := Material.MinMoisture m;
          Green.Ksw := Material.SW_ExtCoeff m;
          Green.Klw := Material.LW_ExtCoeff m |};
     Green.Moisture := Material.InitMoisture m;
     Green.MeanRootMoisture := Material.InitMoisture m;
     Green.Alphag := 1.0 - Material.AbsorpSolar m;
     Green.Alphag_UnUsed := Green.Alphag_UnUsed g;
     Green.temps := Green.temps g;
     Green.fluxes := Green.fluxes g;
     Green.reports := Green.reports g |}.

(** Lines 382-386: every warm-up or begin-environment call resets the
    moisture and the albedo. *)
Definition green_reset_moisture (e : Env.t) (m : Material.t) (g : Green.t) : Green.t :=
  if Driver.BeginEnvrnFlag (Env.driver e) || Driver.WarmupFlag (Env.driver e) then
    {| Green.MyEnvrnFlag := Green.MyEnvrnFlag g;
       Green.FirstEcoSurf := Green.FirstEcoSurf g;
       Green.props := Green.props g;
       Green.Moisture := Material.InitMoisture m;
       Green.MeanRootMoisture := Material.InitMoisture m;
       Green.Alphag := 1.0 - Material.AbsorpSolar m;
       Green.Alphag_UnUsed := Green.Alphag_UnUsed g;
       Green.temps := Green.temps g;
       Green.fluxes := Green.fluxes g;
       Green.reports := Green.reports g |}
  else g.

Definition Water_reset (w : Water.t) : Water.t :=
  {| Water.CumRunoff := 0.0;
     Water.CumET := 0.0;
     Water.CumPrecip := 0.0;
     Water.CumIrrigation := 0.0;
     Water.CurrentRunoff := 0.0;
     Water.CurrentET := 0.0;
     Water.CurrentPrecipitation := 0.0;
     Water.CurrentIrrigation := 0.0 |}.

(** Lines 389-408: the once-per-environment reset of the temperatures,
    the fluxes and the water totals, and the re-arming of its flag. *)
Definition green_reset_environment (e : Env.t) (SurfNum : Z) (wt : Water.t)
    (g : Green.t) : Water.t * Green.t :=
  let begin := Driver.BeginEnvrnFlag (Env.driver e) in
  let T0 := Env.OutDryBulbTempAt e (Env.Surface_Centroid_z e SurfNum) + KelvinConv in
  let fire := begin && Green.MyEnvrnFlag g in
  let flag := if fire then false else Green.MyEnvrnFlag g in
  let flag := if negb begin then true else flag in
  (if fire then Water_reset wt else wt,
   {| Green.MyEnvrnFlag := flag;
      Green.FirstEcoSurf := Green.FirstEcoSurf g;
      Green.props := Green.props g;
      Green.Moisture := Green.Moisture g;
      Green.MeanRootMoisture := Green.MeanRootMoisture g;
      Green.Alphag := Green.Alphag g;
      Green.Alphag_UnUsed := Green.Alphag_UnUsed g;
      Green.temps :=
        if fire then
          {| Green.T_plant := T0;
             Green.T_soil := T0;
             Green.T_bare_soil := T0;
             Green.Tsoil_avg := Green.Tsoil_avg (Green.temps g) |}
        else Green.temps g;
      Green.fluxes :=
        if fire then
          {| Green.Vfluxf := 0.0;
             Green.Vfluxg := 0.0;
             Green.Q_ET_p := Green.Q_ET_p (Green.fluxes g);
             Green.Q_E_s := Green.Q_E_s (Green.fluxes g);
             Green.Q_E_bare_s := Green.Q_E_bare_s (Green.fluxes g);
             Green.Q_E_avg := Green.Q_E_avg (Green.fluxes g) |}
        else Green.fluxes g;
      Green.reports := Green.reports g |}).

(** Lines 428-456: the automatic variables assigned for the reference
    surface, from the moisture and albedo just updated. *)
Definition green_frame (e : Env.t) (SurfNum : Z) (p : Green.Properties)
    (RS tau_sw Moisture : R) (fr : Frame.t) : R * Frame.t :=
  let Mg := Moisture / Green.MoistureMax p in
  let Alphag := 0.2171 * pow_2 Mg - 0.4336 * Mg + 0.3143 in
  let WS := Env.WindSpeedAt e (Env.Surface_Centroid_z e SurfNum) in
  let Ta := Env.OutDryBulbTempAt e (Env.Surface_Centroid_z e SurfNum) in
  let Tak := Ta + KelvinConv in
  let Pa := Env.StdBaroPress e in
  let Rhoa := Pa / (Rair * Tak) in
  let eair := (Env.OutRelHum e / 100.0) * e_s Tak in
  let r_s_sub := 34.52 * std_pow Mg (- 3.2678) in
  let f_VWC :=
    if Rgt_dec Moisture (0.7 * Green.VWC_fc p) then 1
    else Rmax 0.0 (1 / ((Moisture - Green.VWC_wp p)
                        / (0.7 * Green.VWC_fc p - Green.VWC_wp p))) in
  (Alphag,
   {| Frame.WS := WS;
      Frame.Tak := Tak;
      Frame.Pa := Pa;
      Frame.Rhoa := Rhoa;
      Frame.eair := eair;
      Frame.r_s_sub := r_s_sub;
      Frame.Q_sol_abs_plants := (1 - Green.Alphap p - tau_sw) * (1 + tau_sw * Alphag) * RS;
      Frame.Q_sol_abs_soil := tau_sw * (1 - Alphag) * RS;
      Frame.Q_sol_abs_bare_soil := (1 - Alphag) * RS;
      Frame.f_solar := 1 + exp (- 0.034 * (RS - 3.5));
      Frame.f_VWC := f_VWC;
      Frame.indeterminate := Frame.indeterminate fr;
      Frame.Solution1 := Frame.Solution1 fr;
      Frame.Func1 := Frame.Func1 fr;
      Frame.Solution2 := Frame.Solution2 fr;
      Frame.Func2 := Frame.Func2 fr;
      Frame.Solution3 := Frame.Solution3 fr;
      Frame.Func3 := Frame.Func3 fr |}).

(** Lines 463-467: the porous-layer coefficient. *)
Definition h_por_of (length : R) (fr : Frame.t) : R :=
  let k_por := phi * k_air + (1 - phi) * k_plants in
  let alpha_por := k_por / (Frame.Rhoa fr * Cp_air) in
  let Pe := 0.3 * Frame.WS fr * length / alpha_por in
  let NU_por := 1.128 * sqrt Pe in
  NU_por * k_por / length.

(** Latent heat at a temperature with the frost branch (lines 747-753). *)
Definition i_fg_at (T : R) : R :=
  if Rlt_dec (T - KelvinConv) 0.0 then 2.838e6
  else (- 2.3793 * (T - KelvinConv) + 2501.1) * 1000.

(** The last two statements of each routine's flux block (lines 763-764 and
    1449-1450). *)
Definition clamp_flux (Vflux : R) : R := if Rlt_dec Vflux 0.0 then 0.0 else Vflux.

(** What the block of lines 423-457 leaves behind. *)
Module Gate.
Record t := {
  soil : SoilStatics.t;
  water : Water.t;
  materials : Materials;
  Irrigation_ActualAmount : R;
  Moisture : R;
  MeanRootMoisture : R;
  Alphag : R;
  Alphag_UnUsed : R;
  frame : Frame.t
}.
End Gate.

(** Lines 423-457.  The block is closed at line 457, before the three
    solves: for any other surface nothing in it runs and the activation's
    variables keep the values they had on entry. *)
Definition green_gate (e : Env.t) (fr : Frame.t) (w : World.t) (wt : Water.t)
    (g : Green.t) (SurfNum ConstrNum : Z) (RS tau_sw : R) : Gate.t :=
  let p := Green.props g in
  if Z.eq_dec SurfNum (Green.FirstEcoSurf g) then
    let u :=
      UpdateSoilProps (Env.driver e) (World.soil w) wt (World.materials w)
        (Green.Moisture g) (Green.MeanRootMoisture g)
        (Green.MoistureMax p) (Green.MoistureResidual p) (Green.SoilThickness p)
        (Green.Vfluxf (Green.fluxes g)) (Green.Vfluxg (Green.fluxes g))
        ConstrNum (Green.Alphag_UnUsed g) in
    let framed := green_frame e SurfNum p RS tau_sw (SoilUpdate.Moisture u) fr in
    let Alphag := fst framed in
    let frame := snd framed in
    {| Gate.soil := SoilUpdate.statics u;
       Gate.water := SoilUpdate.water u;
       Gate.materials := SoilUpdate.materials u;
       Gate.Irrigation_ActualAmount := SoilUpdate.Irrigation_ActualAmount u;
       Gate.Moisture := SoilUpdate.Moisture u;
       Gate.MeanRootMoisture := SoilUpdate.MeanRootMoisture u;
       Gate.Alphag := Alphag;
       Gate.Alphag_UnUsed := SoilUpdate.Alphag u;
       Gate.frame := frame |}
  else
    {| Gate.soil := World.soil w;
       Gate.water := wt;
       Gate.materials := World.materials w;
       Gate.Irrigation_ActualAmount := World.Irrigation_ActualAmount w;
       Gate.Moisture := Green.Moisture g;
       Gate.MeanRootMoisture := Green.MeanRootMoisture g;
       Gate.Alphag := Green.Alphag g;
       Gate.Alphag_UnUsed := Green.Alphag_UnUsed g;
       Gate.frame := fr |}.

(** What the three solves and the flux block (lines 481-764) compute. *)
Module Solved.
Record t := {
  temps : Green.Temperatures;
  fluxes : Green.Fluxes;
  Q_ET_p_Rep : R;
  Qconv_p_Rep : R;
  Q_E_s_Rep : R;
  Qconv_s_Rep : R;
  Q_sol_soil_Rep : R;
  Q_IR_s_Rep : R;
  Q_E_bare_s_Rep : R;
  Qconv_bare_s_Rep : R;
  Q_sol_bare_s_Rep : R;
  Q_IR_bare_s_Rep : R
}.
End Solved.

(** Lines 481-764: the plant, vegetated-soil and bare-soil solves in this
    order, each using the temperatures already updated, then the blend and
    the two evapotranspiration rates. *)
Definition green_solve (e : Env.t) (SurfNum : Z) (p : Green.Properties)
    (fr : Frame.t) (f_VWC RS tau_sw tau_lw EpsilonOne h_por Qsoilpart1 Qsoilpart2 Alphag : R)
    (t0 : Green.Temperatures) (x0 : Green.Fluxes) (r0 : Green.Reports) : Solved.t :=
  let sigma_f := Green.sigma_f p in
  let planted := if Req_dec_T sigma_f 0.0 then false else true in
  let bare := if Req_dec_T sigma_f 1 then false else true in
  (* plant *)
  let T_plant :=
    if planted then
      root_find
        (Func_p e SurfNum p fr tau_lw EpsilonOne f_VWC (Green.T_soil t0))
        (Func_prim_p e SurfNum p fr tau_lw EpsilonOne f_VWC (Green.T_soil t0))
        (Green.T_plant t0) (Frame.Solution1 fr) (Frame.Func1 fr)
    else Green.T_plant t0 in
  let Q_ET_p_new := Q_ET_p e SurfNum p fr f_VWC (Green.T_soil t0) T_plant in
  (* vegetated soil *)
  let T_soil :=
    if planted then
      root_find
        (Func_s e SurfNum p fr tau_lw EpsilonOne h_por Qsoilpart1 Qsoilpart2
           T_plant (Green.T_bare_soil t0))
        (Func_prim_s e SurfNum p fr tau_lw EpsilonOne h_por Qsoilpart2 T_plant)
        (Green.T_soil t0) (Frame.Solution2 fr) (Frame.Func2 fr)
    else Green.T_soil t0 in
  let Q_E_s_new := Q_E_s e SurfNum fr h_por T_plant T_soil in
  (* bare soil *)
  let T_bare_soil :=
    if bare then
      root_find
        (Func_bare_s e SurfNum p fr Qsoilpart1 Qsoilpart2 T_soil)
        (Func_prim_bare_s e SurfNum p fr Qsoilpart2)
        (Green.T_bare_soil t0) (Frame.Solution3 fr) (Frame.Func3 fr)
    else Green.T_bare_soil t0 in
  let Q_E_bare_s_new := Q_E_bare_s e SurfNum fr T_bare_soil in
  (* blend and fluxes *)
  let Q_ET_p := if planted then Q_ET_p_new else Green.Q_ET_p x0 in
  let Q_E_s := if planted then Q_E_s_new else Green.Q_E_s x0 in
  let Q_E_bare_s := if bare then Q_E_bare_s_new else Green.Q_E_bare_s x0 in
  let Tsoil_avg := sigma_f * T_soil + (1 - sigma_f) * T_bare_soil in
  let i_fg_p := i_fg_at T_plant in
  let i_fg_g := i_fg_at Tsoil_avg in
  let Vfluxf := if Req_dec_T sigma_f 0.0 then 0.0 else Q_ET_p / i_fg_p / 990.0 in
  let Q_E_avg := sigma_f * Q_E_s + (1 - sigma_f) * Q_E_bare_s in
  let Vfluxg := Q_E_avg / i_fg_g / 990.0 in
  {| Solved.temps :=
       {| Green.T_plant := T_plant;
          Green.T_soil := T_soil;
          Green.T_bare_soil := T_bare_soil;
          Green.Tsoil_avg := Tsoil_avg |};
     Solved.fluxes :=
       {| Green.Vfluxf := clamp_flux Vfluxf;
          Green.Vfluxg := clamp_flux Vfluxg;
          Green.Q_ET_p := Q_ET_p;
          Green.Q_E_s := Q_E_s;
          Green.Q_E_bare_s := Q_E_bare_s;
          Green.Q_E_avg := Q_E_avg |};
     Solved.Q_ET_p_Rep := if planted then Q_ET_p_new else Green.Q_ET_p_Rep r0;
     Solved.Qconv_p_Rep :=
       if planted then Qconv_p e SurfNum p fr T_plant else Green.Qconv_p_Rep r0;
     Solved.Q_E_s_Rep := if planted then Q_E_s_new else Green.Q_E_s_Rep r0;
     Solved.Qconv_s_Rep :=
       if planted then Qconv_s e SurfNum fr h_por T_plant T_soil
       else Green.Qconv_s_Rep r0;
     Solved.Q_sol_soil_Rep :=
       if planted then tau_sw * (1 - Alphag) * RS else Green.Q_sol_soil_Rep r0;
     Solved.Q_IR_s_Rep :=
       if planted then
         Q_IR_sky_s e SurfNum p tau_lw T_soil
         + (1 - tau_lw) * Sigma * Green.epsilonp p * Green.epsilong p
           * (pow_4 T_plant - pow_4 T_soil) / EpsilonOne
       else Green.Q_IR_s_Rep r0;
     Solved.Q_E_bare_s_Rep := if bare then Q_E_bare_s_new else Green.Q_E_bare_s_Rep r0;
     Solved.Qconv_bare_s_Rep :=
       if bare then Qconv_bare_s e SurfNum fr T_bare_soil
       else Green.Qconv_bare_s_Rep r0;
     Solved.Q_sol_bare_s_Rep :=
       if bare then (1 - Alphag) * RS else Green.Q_sol_bare_s_Rep r0;
     Solved.Q_IR_bare_s_Rep :=
       if bare then Q_IR_sky_bare_s e SurfNum p T_bare_soil
       else Green.Q_IR_bare_s_Rep r0 |}.

(** Lines 773-789: the report variables. *)
Definition green_reports (p : Green.Properties) (Qsoilpart1 Qsoilpart2 : R)
    (s : Solved.t) (r0 : Green.Reports) : Green.Reports :=
  let sigma_f := Green.sigma_f p in
  let t := Solved.temps s in
  let planted := if Req_dec_T sigma_f 0.0 then false else true in
  {| Green.Tsoil_avg_Rep := Green.Tsoil_avg t - KelvinConv;
     Green.T_plant_Rep := if planted then Green.T_plant t - KelvinConv else 0.0;
     Green.Qconv_p_Rep := if planted then Solved.Qconv_p_Rep s else 0.0;
     Green.Qconv_s_Rep := Solved.Qconv_s_Rep s;
     Green.Qconv_bare_s_Rep := Solved.Qconv_bare_s_Rep s;
     Green.Qconv_s_avg_Rep :=
       sigma_f * Solved.Qconv_s_Rep s + (1 - sigma_f) * Solved.Qconv_bare_s_Rep s;
     Green.Q_ET_p_Rep := if planted then Solved.Q_ET_p_Rep s else 0.0;
     Green.Q_E_s_Rep := Solved.Q_E_s_Rep s;
     Green.Q_E_bare_s_Rep := Solved.Q_E_bare_s_Rep s;
     Green.Q_E_avg_Rep :=
       sigma_f * Solved.Q_E_s_Rep s + (1 - sigma_f) * Solved.Q_E_bare_s_Rep s;
     Green.Q_sol_soil_Rep := Solved.Q_sol_soil_Rep s;
     Green.Q_sol_bare_s_Rep := Solved.Q_sol_bare_s_Rep s;
     Green.Q_sol_s_avg_Rep :=
       sigma_f * Solved.Q_sol_soil_Rep s + (1 - sigma_f) * Solved.Q_sol_bare_s_Rep s;
     Green.Q_IR_s_Rep := Solved.Q_IR_s_Rep s;
     Green.Q_IR_bare_s_Rep := Solved.Q_IR_bare_s_Rep s;
     Green.Q_IR_s_avg_Rep :=
       sigma_f * Solved.Q_IR_s_Rep s + (1 - sigma_f) * Solved.Q_IR_bare_s_Rep s;
     Green.Qcond_avg_Rep :=
       - Qsoilpart1
       + Qsoilpart2 * (sigma_f * (Green.T_soil t - KelvinConv)
                       + (1 - sigma_f) * (Green.T_bare_soil t - KelvinConv)) |}.

(** Lines 319-408: what precedes the reference-surface test, for a
    construction index already corrected for a storm window: the water
    totals and the statics with which the rest of the call works. *)
Definition GreenRoof_entry (e : Env.t) (w : World.t) (SurfNum ConstrNum : Z)
    : Water.t * Green.t :=
  let m := World.materials w ConstrNum in
  let g :=
    if World.EcoRoofbeginFlag w then green_first_entry m SurfNum (World.green w)
    else World.green w in
  let g := green_reset_moisture e m g in
  green_reset_environment e SurfNum (World.water w) g.

(** The routine: the host data, the variables of the activation as they are
    on entry, the shared state and the three arguments; it returns the new
    state, [ConstrNum] and [TempExt].  The source closes the function body
    with the brace of line 766 although lines 770-789 still belong to it;
    they are taken as its last statements.  The calls that only register
    outputs, print, or set the host's exterior convection coefficients
    (line 309) are left out. *)
Definition GreenRoof_with_PlantCoverage (e : Env.t) (fr : Frame.t) (w : World.t)
    (SurfNum ZoneNum ConstrNum : Z) : World.t * Z * R :=
  let ConstrNum := storm_construction e SurfNum ConstrNum in
  let m := World.materials w ConstrNum in
  let RS := Env.BeamSolarRad e + Env.AnisoSkyMult e SurfNum * Env.DifSolarRad e in
  let length := sqrt (Env.Surface_Area e SurfNum) in
  let wt := fst (GreenRoof_entry e w SurfNum ConstrNum) in
  let g := snd (GreenRoof_entry e w SurfNum ConstrNum) in
  let p := Green.props g in
  let tau_sw := exp (- Green.Ksw p * Green.LAI p) in
  let tau_lw := exp (- Green.Klw p * Green.LAI p) in
  let EpsilonOne :=
    Green.epsilonp p + Green.epsilong p - Green.epsilong p * Green.epsilonp p in
  let gate := green_gate e fr w wt g SurfNum ConstrNum RS tau_sw in
  let fr := Gate.frame gate in
  let f_VWC :=
    if Rlt_dec (Gate.Moisture gate) (Green.VWC_wp p) then 1000 else Frame.f_VWC fr in
  let h_por := h_por_of length fr in
  let Qsoilpart1 := fst (conduction_terms e SurfNum ZoneNum ConstrNum) in
  let Qsoilpart2 := snd (conduction_terms e SurfNum ZoneNum ConstrNum) in
  let s :=
    green_solve e SurfNum p fr f_VWC RS tau_sw tau_lw EpsilonOne h_por
      Qsoilpart1 Qsoilpart2 (Gate.Alphag gate)
      (Green.temps g) (Green.fluxes g) (Green.reports g) in
  let TempExt := Green.Tsoil_avg (Solved.temps s) - KelvinConv in
  ({| World.water := Gate.water gate;
      World.Tfold := World.Tfold w;
      World.Tgold := World.Tgold w;
      World.EcoRoofbeginFlag := false;
      World.soil := Gate.soil gate;
      World.materials := Gate.materials gate;
      World.Irrigation_ActualAmount := Gate.Irrigation_ActualAmount gate;
      World.TH := set_TH (World.TH w) SurfNum (Green.Tsoil_avg (Solved.temps s) - KelvinConv);
      World.calc := World.calc w;
      World.green :=
        {| Green.MyEnvrnFlag := Green.MyEnvrnFlag g;
           Green.FirstEcoSurf := Green.FirstEcoSurf g;
           Green.props := p;
           Green.Moisture := Gate.Moisture gate;
           Green.MeanRootMoisture := Gate.MeanRootMoisture gate;
           Green.Alphag := Gate.Alphag gate;
           Green.Alphag_UnUsed := Gate.Alphag_UnUsed gate;
           Green.temps := Solved.temps s;
           Green.fluxes := Solved.fluxes s;
           Green.reports := green_reports p Qsoilpart1 Qsoilpart2 s (Green.reports g) |} |},
   ConstrNum, TempExt).

(** ** [CalcEcoRoof] (lines 989-1498) *)

Definition Kv : R := 0.4.
Definition rch : R := 0.63.
Definition rche : R := 0.71.
Definition g1 : R := 9.81.
Definition Cpa : R := 1005.6.
Definition e0 : R := 2.0.
Definition Za : R := 2.0.

(** The roughness indices as the comment of line 1410 lists them. *)
Definition VerySmooth : Z := 6.
Definition Smooth : Z := 5.
Definition MediumSmooth : Z := 4.
Definition MediumRough : Z := 3.
Definition Rough : Z := 2.

(** Lines 1168-1172: the wind speed at roof height with its floor. *)
Definition Ws_floor (e : Env.t) (SurfNum : Z) : R :=
  let Ws := Env.WindSpeedAt e (Env.Surface_Centroid_z e SurfNum) in
  if Rlt_dec Ws 2.0 then 2.0 else Ws.

(** The values the three-pass loop reads and does not change. *)
Module Coef.
Record t := {
  sigmaf : R;
  RS : R;
  Latm : R;
  Alphaf : R;
  Alphag : R;
  epsilonf : R;
  epsilong : R;
  EpsilonOne : R;
  sheatf : R;
  sheatg : R;
  Ta : R;
  LAI : R;
  Rhoaf : R;
  Rhoag : R;
  Cf : R;
  Ce : R;
  Lef : R;
  Leg : R;
  Waf : R;
  rn : R;
  dOne : R;
  qa : R;
  qsf : R;
  qsg : R;
  dqf : R;
  dqg : R;
  Mg : R;
  Qsoilpart1 : R;
  Qsoilpart2 : R
}.
End Coef.

Section Linearization.

Variable c : Coef.t.

Let sigmaf := Coef.sigmaf c.
Let RS := Coef.RS c.
Let Latm := Coef.Latm c.
Let Alphaf := Coef.Alphaf c.
Let Alphag := Coef.Alphag c.
Let epsilonf := Coef.epsilonf c.
Let epsilong := Coef.epsilong c.
Let EpsilonOne := Coef.EpsilonOne c.
Let sheatf := Coef.sheatf c.
Let sheatg := Coef.sheatg c.
Let Ta := Coef.Ta c.
Let LAI := Coef.LAI c.
Let Rhoaf := Coef.Rhoaf c.
Let Rhoag := Coef.Rhoag c.
Let Cf := Coef.Cf c.
Let Ce := Coef.Ce c.
Let Lef := Coef.Lef c.
Let Leg := Coef.Leg c.
Let Waf := Coef.Waf c.
Let rn := Coef.rn c.
Let dOne := Coef.dOne c.
Let qa := Coef.qa c.
Let qsf := Coef.qsf c.
Let qsg := Coef.qsg c.
Let dqf := Coef.dqf c.
Let dqg := Coef.dqg c.
Let Mg := Coef.Mg c.
Let Qsoilpart1 := Coef.Qsoilpart1 c.
Let Qsoilpart2 := Coef.Qsoilpart2 c.

(** Lines 1463-1465. *)
Definition P1 (LeafTK SoilTK : R) : R :=
  sigmaf * (RS * (1.0 - Alphaf) + epsilonf * Latm)
  - 3.0 * sigmaf * epsilonf * epsilong * Sigma * pow_4 SoilTK / EpsilonOne
  - 3.0 * (- sigmaf * epsilonf * Sigma - sigmaf * epsilonf * epsilong * Sigma / EpsilonOne)
    * pow_4 LeafTK
  + sheatf * (1.0 - 0.7 * sigmaf) * (Ta + KelvinConv)
  + LAI * Rhoaf * Cf * Lef * Waf * rn * ((1.0 - 0.7 * sigmaf) / dOne) * qa
  + LAI * Rhoaf * Cf * Lef * Waf * rn * (((0.6 * sigmaf * rn) / dOne) - 1.0)
    * (qsf - LeafTK * dqf)
  + LAI * Rhoaf * Cf * Lef * Waf * rn * ((0.1 * sigmaf * Mg) / dOne)
    * (qsg - SoilTK * dqg).

Definition P2 (SoilTK : R) : R :=
  4.0 * (sigmaf * epsilonf * epsilong * Sigma) * pow_3 SoilTK / EpsilonOne
  + 0.1 * sigmaf * sheatf
  + LAI * Rhoaf * Cf * Lef * Waf * rn * (0.1 * sigmaf * Mg) / dOne * dqg.

Definition P3 (LeafTK : R) : R :=
  4.0 * (- sigmaf * epsilonf * Sigma - (sigmaf * epsilonf * Sigma * epsilong) / EpsilonOne)
  * pow_3 LeafTK
  + (0.6 * sigmaf - 1.0) * sheatf
  + LAI * Rhoaf * Cf * Lef * Waf * rn * (((0.6 * sigmaf * rn) / dOne) - 1.0) * dqf.

(** Lines 1472-1476. *)
Definition T1G (LeafTK SoilTK : R) : R :=
  (1.0 - sigmaf) * (RS * (1.0 - Alphag) + epsilong * Latm)
  - (3.0 * (sigmaf * epsilonf * epsilong * Sigma) / EpsilonOne) * pow_4 LeafTK
  - 3.0 * (- (1.0 - sigmaf) * epsilong * Sigma
           - sigmaf * epsilonf * epsilong * Sigma / EpsilonOne) * pow_4 SoilTK
  + sheatg * (1.0 - 0.7 * sigmaf) * (Ta + KelvinConv)
  + Rhoag * Ce * Leg * Waf * Mg * ((1.0 - 0.7 * sigmaf) / dOne) * qa
  + Rhoag * Ce * Leg * Waf * Mg * (0.1 * sigmaf * Mg / dOne - Mg) * (qsg - SoilTK * dqg)
  + Rhoag * Ce * Leg * Waf * Mg * (0.6 * sigmaf * rn / dOne) * (qsf - LeafTK * dqf)
  + Qsoilpart1 + Qsoilpart2 * KelvinConv.

Definition T2G (SoilTK : R) : R :=
  4.0 * (- (1.0 - sigmaf) * epsilong * Sigma
         - sigmaf * epsilonf * epsilong * Sigma / EpsilonOne) * pow_3 SoilTK
  + (0.1 * sigmaf - 1.0) * sheatg
  + Rhoag * Ce * Leg * Waf * Mg * (0.1 * sigmaf * Mg / dOne - Mg) * dqg
  - Qsoilpart2.

Definition T3G (LeafTK : R) : R :=
  (4.0 * (sigmaf * epsilong * epsilonf * Sigma) / EpsilonOne) * pow_3 LeafTK
  + 0.6 * sigmaf * sheatg
  + Rhoag * Ce * Leg * Waf * Mg * (0.6 * sigmaf * rn / dOne) * dqf.

(** Lines 1478-1479 without the averaging: the pair [(Tf, Tg)] the source
    takes as the solution of the two linearized equations. *)
Definition closed_form (P1 P2 P3 T1G T2G T3G : R) : R * R :=
  ((P1 * T2G - P2 * T1G) / (- P3 * T2G + T3G * P2),
   (P1 * T3G - P3 * T1G) / (- P2 * T3G + P3 * T2G)).

(** Lines 1463-1479: one pass.  Both temperatures of the pair
    [(LeafTK, SoilTK)] are renewed from coefficients computed before either
    is assigned. *)
Definition EcoLoop_pass (T : R * R) : R * R :=
  let '(LeafTK, SoilTK) := T in
  let new :=
    closed_form (P1 LeafTK SoilTK) (P2 SoilTK) (P3 LeafTK)
                (T1G LeafTK SoilTK) (T2G SoilTK) (T3G LeafTK) in
  (0.5 * (LeafTK + fst new), 0.5 * (SoilTK + snd new)).

(** Passes the loop may still make when its counter is [EcoLoop]. *)
Definition EcoLoop_left (EcoLoop : Z) : nat := Z.to_nat (4 - EcoLoop).

(** Line 1462: [for ( EcoLoop = 1; EcoLoop <= 3; ++EcoLoop )]. *)
Equations? EcoLoop_for (EcoLoop : Z) (T : R * R) : R * R
  by wf (EcoLoop_left EcoLoop) lt :=
EcoLoop_for EcoLoop T with Z_le_dec EcoLoop 3 := {
  | left _ => EcoLoop_for (EcoLoop + 1)%Z (EcoLoop_pass T)
  | right _ => T }.
Proof. unfold EcoLoop_left. lia. Qed.

End Linearization.

(** Lines 1187-1216: the first entry reads the vegetation properties. *)
Definition calc_first_entry (m : Material.t) (SurfNum : Z) (k : Calc.t) : Calc.t :=
  {| Calc.FirstEcoSurf := SurfNum;
     Calc.QuickConductionSurf := Calc.QuickConductionSurf k;
     Calc.LAI := Material.LAI m;
     Calc.epsilonf := Material.LEmissitivity m;
     Calc.epsilong := Material.AbsorpThermal m;
     Calc.Alphag := 1.0 - Material.AbsorpSolar m;
     Calc.Alphaf := Material.Lreflectivity m;
     Calc.RH := Calc.RH k;
     Calc.Pa := Calc.Pa k;
     Calc.Tg := Calc.Tg k;
     Calc.Tf := Calc.Tf k;
     Calc.Zf := Material.HeightOfPlants m;
     Calc.Moisture := Material.InitMoisture m;
     Calc.MoistureResidual := Material.MinMoisture m;
     Calc.MoistureMax := Material.Porosity m;
     Calc.MeanRootMoisture := Material.InitMoisture m;
     Calc.SoilThickness := Material.Thickness m;
     Calc.StomatalResistanceMin := Material.RStomata m;
     Calc.f3 := Calc.f3 k;
     Calc.Zog := Calc.Zog k;
     Calc.Lf := Calc.Lf k;
     Calc.Vfluxf := Calc.Vfluxf k;
     Calc.Qsoil := Calc.Qsoil k;
     Calc.sheatf := Calc.sheatf k;
     Calc.sensiblef := Calc.sensiblef k;
     Calc.sheatg := Calc.sheatg k;
     Calc.sensibleg := Calc.sensibleg k;
     Calc.Lg := Calc.Lg k;
     Calc.Vfluxg := Calc.Vfluxg k;
     Calc.MyEnvrnFlag := Calc.MyEnvrnFlag k |}.

(** Lines 1248-1275: the two resets that precede the reference-surface
    test and run for every surface.  The result carries the water totals,
    [Tfold], [Tgold] and the statics. *)
Definition calc_resets (e : Env.t) (m : Material.t) (SurfNum : Z)
    (wt : Water.t) (Tfold Tgold : R) (k : Calc.t) : Water.t * R * R * Calc.t :=
  let begin := Driver.BeginEnvrnFlag (Env.driver e) in
  let soak := begin || Driver.WarmupFlag (Env.driver e) in
  let fire := begin && Calc.MyEnvrnFlag k in
  let T0 := Env.OutDryBulbTempAt e (Env.Surface_Centroid_z e SurfNum) in
  let flag := if fire then false else Calc.MyEnvrnFlag k in
  let flag := if negb begin then true else flag in
  (if fire then Water_reset wt else wt,
   if fire then T0 else Tfold,
   if fire then T0 else Tgold,
   {| Calc.FirstEcoSurf := Calc.FirstEcoSurf k;
      Calc.QuickConductionSurf := Calc.QuickConductionSurf k;
      Calc.LAI := Calc.LAI k;
      Calc.epsilonf := Calc.epsilonf k;
      Calc.epsilong := Calc.epsilong k;
      Calc.Alphag := if soak then 1.0 - Material.AbsorpSolar m else Calc.Alphag k;
      Calc.Alphaf := Calc.Alphaf k;
      Calc.RH := Calc.RH k;
      Calc.Pa := Calc.Pa k;
      Calc.Tg := if fire then 10.0 else Calc.Tg k;
      Calc.Tf := if fire then 10.0 else Calc.Tf k;
      Calc.Zf := Calc.Zf k;
      Calc.Moisture := if soak then Material.InitMoisture m else Calc.Moisture k;
      Calc.MoistureResidual := Calc.MoistureResidual k;
      Calc.MoistureMax := Calc.MoistureMax k;
      Calc.MeanRootMoisture :=
        if soak then Material.InitMoisture m else Calc.MeanRootMoisture k;
      Calc.SoilThickness := Calc.SoilThickness k;
      Calc.StomatalResistanceMin := Calc.StomatalResistanceMin k;
      Calc.f3 := Calc.f3 k;
      Calc.Zog := Calc.Zog k;
      Calc.Lf := Calc.Lf k;
      Calc.Vfluxf := if fire then 0.0 else Calc.Vfluxf k;
      Calc.Qsoil := Calc.Qsoil k;
      Calc.sheatf := Calc.sheatf k;
      Calc.sensiblef := Calc.sensiblef k;
      Calc.sheatg := Calc.sheatg k;
      Calc.sensibleg := Calc.sensibleg k;
      Calc.Lg := Calc.Lg k;
      Calc.Vfluxg := if fire then 0.0 else Calc.Vfluxg k;
      Calc.MyEnvrnFlag := flag |}).

(** Lines 1273-1275 alone: outside the start of an environment the reset
    flag is re-armed and nothing else of the statics changes. *)
Definition Calc_rearmed (k : Calc.t) : Calc.t :=
  {| Calc.FirstEcoSurf := Calc.FirstEcoSurf k;
     Calc.QuickConductionSurf := Calc.QuickConductionSurf k;
     Calc.LAI := Calc.LAI k;
     Calc.epsilonf := Calc.epsilonf k;
     Calc.epsilong := Calc.epsilong k;
     Calc.Alphag := Calc.Alphag k;
     Calc.Alphaf := Calc.Alphaf k;
     Calc.RH := Calc.RH k;
     Calc.Pa := Calc.Pa k;
     Calc.Tg := Calc.Tg k;
     Calc.Tf := Calc.Tf k;
     Calc.Zf := Calc.Zf k;
     Calc.Moisture := Calc.Moisture k;
     Calc.MoistureResidual := Calc.MoistureResidual k;
     Calc.MoistureMax := Calc.MoistureMax k;
     Calc.MeanRootMoisture := Calc.MeanRootMoisture k;
     Calc.SoilThickness := Calc.SoilThickness k;
     Calc.StomatalResistanceMin := Calc.StomatalResistanceMin k;
     Calc.f3 := Calc.f3 k;
     Calc.Zog := Calc.Zog k;
     Calc.Lf := Calc.Lf k;
     Calc.Vfluxf := Calc.Vfluxf k;
     Calc.Qsoil := Calc.Qsoil k;
     Calc.sheatf := Calc.sheatf k;
     Calc.sensiblef := Calc.sensiblef k;
     Calc.sheatg := Calc.sheatg k;
     Calc.sensibleg := Calc.sensibleg k;
     Calc.Lg := Calc.Lg k;
     Calc.Vfluxg := Calc.Vfluxg k;
     Calc.MyEnvrnFlag := true |}.

(** Lines 1410-1422: ground roughness length by roughness index. *)
Definition Zog_of (RoughSurf : Z) : R :=
  if Z.eq_dec RoughSurf VerySmooth then 0.0008
  else if Z.eq_dec RoughSurf Smooth then 0.0010
  else if Z.eq_dec RoughSurf MediumSmooth then 0.0015
  else if Z.eq_dec RoughSurf MediumRough then 0.0020
  else if Z.eq_dec RoughSurf Rough then 0.0030
  else 0.005.

(** Lines 1398-1408: the stability factor from the Richardson number. *)
Definition Gammah_of (Rib : R) : R :=
  if Rlt_dec Rib 0.0 then std_pow (1.0 - 16.0 * Rib) (- 0.5)
  else
    let Rib := if Rge_dec Rib 0.19 then 0.19 else Rib in
    std_pow (1.0 - 5.0 * Rib) (- 0.5).

(** What the flux block of lines 1281-1450 hands on: the loop's constants
    and the statics it assigns. *)
Module FluxBlock.
Record t := {
  coef : Coef.t;
  Pa : R;
  RH : R;
  f3 : R;
  Zog : R;
  sensiblef : R;
  sensibleg : R;
  Lf : R;
  Lg : R;
  Vfluxf : R;
  Vfluxg : R
}.
End FluxBlock.

(** Lines 1281-1450, after [UpdateSoilProps]: [Tg] and [Tf] are the
    temperatures of the last step, [Moisture], [MeanRootMoisture] and
    [Alphag] the values just updated. *)
Definition calc_fluxes (e : Env.t) (k : Calc.t) (SurfNum ZoneNum ConstrNum RoughSurf : Z)
    (Ws RS Latm Tfold Tgold Moisture MeanRootMoisture Alphag : R) : FluxBlock.t :=
  let LAI := Calc.LAI k in
  let epsilonf := Calc.epsilonf k in
  let epsilong := Calc.epsilong k in
  let MoistureMax := Calc.MoistureMax k in
  let MoistureResidual := Calc.MoistureResidual k in
  let Zf := Calc.Zf k in
  let Ta := Env.OutDryBulbTempAt e (Env.Surface_Centroid_z e SurfNum) in
  let Tg := Tgold in
  let Tf := Tfold in
  let '(Qsoilpart1, Qsoilpart2) := conduction_terms e SurfNum ZoneNum ConstrNum in
  let Pa := Env.StdBaroPress e in
  let Tgk := Tg + KelvinConv in
  let Tak := Ta + KelvinConv in
  let sigmaf := 0.9 - 0.7 * exp (- 0.75 * LAI) in
  let EpsilonOne := epsilonf + epsilong - epsilong * epsilonf in
  let RH := Env.OutRelHum e in
  let eair := (RH / 100.0) * 611.2 * exp (17.67 * Ta / (Tak - 29.65)) in
  let qa := (0.622 * eair) / (Pa - 1.000 * eair) in
  let Rhoa := Pa / (Rair * Tak) in
  let Tif := Tf in
  let Tafk :=
    (1.0 - sigmaf) * Tak + sigmaf * (0.3 * Tak + 0.6 * (Tif + KelvinConv) + 0.1 * Tgk) in
  let Taf := Tafk - KelvinConv in
  let Rhof := Pa / (Rair * Tafk) in
  let Rhoaf := (Rhoa + Rhof) / 2.0 in
  let Zd := 0.701 * std_pow Zf 0.979 in
  let Zo := 0.131 * std_pow Zf 0.997 in
  let Zo := if Rlt_dec Zo 0.02 then 0.02 else Zo in
  let Cfhn := pow_2 (Kv / ln ((Za - Zd) / Zo)) in
  let Waf := 0.83 * sqrt Cfhn * sigmaf * Ws + (1.0 - sigmaf) * Ws in
  let Cf := 0.01 * (1.0 + 0.3 / Waf) in
  let sheatf := e0 + 1.1 * LAI * Rhoaf * Cpa * Cf * Waf in
  let sensiblef := sheatf * (Taf - Tf) in
  let esf := 611.2 * exp (17.67 * Tif / (Tif + KelvinConv - 29.65)) in
  let qsf := 0.622 * esf / (Pa - 1.000 * esf) in
  let ra := 1.0 / (Cf * Waf) in
  let f1inv := Rmin 1.0 ((0.004 * RS + 0.005) / (0.81 * (0.004 * RS + 1.0))) in
  let f1 := 1.0 / f1inv in
  let f2inv :=
    if Req_dec_T MoistureMax MoistureResidual then 1.0e10
    else (MeanRootMoisture - MoistureResidual) / (MoistureMax - MoistureResidual) in
  let f2 := 1.0 / f2inv in
  let f3 := 1.0 / exp (- 0.0 * (esf - eair)) in
  let r_s := Calc.StomatalResistanceMin k * f1 * f2 * f3 / LAI in
  let rn := ra / (ra + r_s) in
  let Mg := Moisture / MoistureMax in
  let dOne := 1.0 - sigmaf * (0.6 * (1.0 - rn) + 0.1 * (1.0 - Mg)) in
  let Lef :=
    if Rlt_dec Tfold 0.0 then 2.838e6
    else 1.91846e6 * pow_2 ((Tif + KelvinConv) / (Tif + KelvinConv - 33.91)) in
  let Desf :=
    611.2 * exp (17.67 * (Tf / (Tf + KelvinConv - 29.65)))
    * (17.67 * Tf * (- 1.0) * std_pow (Tf + KelvinConv - 29.65) (-2)
       + 17.67 / (KelvinConv - 29.65 + Tf)) in
  let dqf := ((0.622 * Pa) / pow_2 (Pa - esf)) * Desf in
  let esg := 611.2 * exp (17.67 * (Tg / ((Tg + KelvinConv) - 29.65))) in
  let qsg := 0.622 * esg / (Pa - esg) in
  let Leg :=
    if Rlt_dec Tgold 0.0 then 2.838e6
    else 1.91846e6 * pow_2 (Tgk / (Tgk - 33.91)) in
  let Desg :=
    611.2 * exp (17.67 * (Tg / (Tg + KelvinConv - 29.65)))
    * (17.67 * Tg * (- 1.0) * std_pow (Tg + KelvinConv - 29.65) (-2)
       + 17.67 / (KelvinConv - 29.65 + Tg)) in
  let dqg := (0.622 * Pa / pow_2 (Pa - esg)) * Desg in
  let Rhog := Pa / (Rair * Tgk) in
  let Rhoag := (Rhoa + Rhog) / 2.0 in
  let Rib := 2.0 * g1 * Za * (Taf - Tg) / ((Tafk + Tgk) * pow_2 Waf) in
  let Gammah := Gammah_of Rib in
  let Zog := Zog_of RoughSurf in
  let Chng := pow_2 (Kv / ln (Za / Zog)) / rch in
  let Chg := Gammah * ((1.0 - sigmaf) * Chng + sigmaf * Cfhn) in
  let sheatg := e0 + Rhoag * Cpa * Chg * Waf in
  let sensibleg := sheatg * (Taf - Tg) in
  let Chne := pow_2 (Kv / ln (Za / Zog)) / rche in
  let Ce := Gammah * ((1.0 - sigmaf) * Chne + sigmaf * Cfhn) in
  let qaf :=
    ((1.0 - sigmaf) * qa + sigmaf * (0.3 * qa + 0.6 * qsf * rn + 0.1 * qsg * Mg))
    / (1.0 - sigmaf * (0.6 * (1.0 - rn) + 0.1 * (1.0 - Mg))) in
  let qg := Mg * qsg + (1.0 - Mg) * qaf in
  let Lf := Lef * LAI * Rhoaf * Cf * Waf * rn * (qaf - qsf) in
  let Lg := Ce * Leg * Waf * Rhoag * (qaf - qg) * Mg in
  {| FluxBlock.coef :=
       {| Coef.sigmaf := sigmaf; Coef.RS := RS; Coef.Latm := Latm;
          Coef.Alphaf := Calc.Alphaf k; Coef.Alphag := Alphag;
          Coef.epsilonf := epsilonf; Coef.epsilong := epsilong;
          Coef.EpsilonOne := EpsilonOne;
          Coef.sheatf := sheatf; Coef.sheatg := sheatg; Coef.Ta := Ta;
          Coef.LAI := LAI; Coef.Rhoaf := Rhoaf; Coef.Rhoag := Rhoag;
          Coef.Cf := Cf; Coef.Ce := Ce; Coef.Lef := Lef; Coef.Leg := Leg;
          Coef.Waf := Waf; Coef.rn := rn; Coef.dOne := dOne; Coef.qa := qa;
          Coef.qsf := qsf; Coef.qsg := qsg; Coef.dqf := dqf; Coef.dqg := dqg;
          Coef.Mg := Mg; Coef.Qsoilpart1 := Qsoilpart1; Coef.Qsoilpart2 := Qsoilpart2 |};
     FluxBlock.Pa := Pa;
     FluxBlock.RH := RH;
     FluxBlock.f3 := f3;
     FluxBlock.Zog := Zog;
     FluxBlock.sensiblef := sensiblef;
     FluxBlock.sensibleg := sensibleg;
     FluxBlock.Lf := Lf;
     FluxBlock.Lg := Lg;
     FluxBlock.Vfluxf := clamp_flux (- 1.0 * Lf / Lef / 990.0);
     FluxBlock.Vfluxg := clamp_flux (- 1.0 * Lg / Leg / 990.0) |}.

(** Lines 1187-1275: what precedes the reference-surface test, for a
    construction index already corrected for a storm window: the water
    totals, [Tfold], [Tgold] and the statics with which the rest of the
    call works. *)
Definition CalcEcoRoof_entry (e : Env.t) (w : World.t) (SurfNum ConstrNum : Z)
    : Water.t * R * R * Calc.t :=
  let m := World.materials w ConstrNum in
  let k :=
    if World.EcoRoofbeginFlag w then calc_first_entry m SurfNum (World.calc w)
    else World.calc w in
  calc_resets e m SurfNum (World.water w) (World.Tfold w) (World.Tgold w) k.

(** The routine.  Everything between the test of line 1278 and the brace of
    line 1492 runs for the reference surface only; the two assignments of
    lines 1495-1496 run for every surface.  As above, output registration,
    the warning of line 1189 and the call of line 1180 are left out. *)
Definition CalcEcoRoof (e : Env.t) (w : World.t) (SurfNum ZoneNum ConstrNum : Z)
    : World.t * Z * R :=
  let Ws := Ws_floor e SurfNum in
  let ConstrNum := storm_construction e SurfNum ConstrNum in
  let m := World.materials w ConstrNum in
  let RoughSurf := Material.Roughness m in
  let RS := Env.BeamSolarRad e + Env.AnisoSkyMult e SurfNum * Env.DifSolarRad e in
  let Latm :=
    1.0 * Sigma * 1.0 * Env.Surface_ViewFactorGround e SurfNum * pow_4 (Env.GroundTempKelvin e)
    + 1.0 * Sigma * 1.0 * Env.Surface_ViewFactorSky e SurfNum * pow_4 (Env.SkyTempKelvin e) in
  let entry := CalcEcoRoof_entry e w SurfNum ConstrNum in
  let wt := fst (fst (fst entry)) in
  let Tfold := snd (fst (fst entry)) in
  let Tgold := snd (fst entry) in
  let k := snd entry in
  if Z.eq_dec SurfNum (Calc.FirstEcoSurf k) then
    let u :=
      UpdateSoilProps (Env.driver e) (World.soil w) wt (World.materials w)
        (Calc.Moisture k) (Calc.MeanRootMoisture k)
        (Calc.MoistureMax k) (Calc.MoistureResidual k) (Calc.SoilThickness k)
        (Calc.Vfluxf k) (Calc.Vfluxg k) ConstrNum (Calc.Alphag k) in
    let fb :=
      calc_fluxes e k SurfNum ZoneNum ConstrNum RoughSurf Ws RS Latm Tfold Tgold
        (SoilUpdate.Moisture u) (SoilUpdate.MeanRootMoisture u) (SoilUpdate.Alphag u) in
    let c := FluxBlock.coef fb in
    let LeafTK := fst (EcoLoop_for c 1 (Tfold + KelvinConv, Tgold + KelvinConv)) in
    let SoilTK := snd (EcoLoop_for c 1 (Tfold + KelvinConv, Tgold + KelvinConv)) in
    let Qsoil := - 1.0 * (Coef.Qsoilpart1 c - Coef.Qsoilpart2 c * (SoilTK - KelvinConv)) in
    ({| World.water := SoilUpdate.water u;
        World.Tfold := LeafTK - KelvinConv;
        World.Tgold := SoilTK - KelvinConv;
        World.EcoRoofbeginFlag := false;
        World.soil := SoilUpdate.statics u;
        World.materials := SoilUpdate.materials u;
        World.Irrigation_ActualAmount := SoilUpdate.Irrigation_ActualAmount u;
        World.TH := set_TH (World.TH w) SurfNum (SoilTK - KelvinConv);
        World.calc :=
          {| Calc.FirstEcoSurf := Calc.FirstEcoSurf k;
             Calc.QuickConductionSurf :=
               if Rgt_dec (Env.Construct_CTFCross0 e ConstrNum) 0.01 then true
               else Calc.QuickConductionSurf k;
             Calc.LAI := Calc.LAI k;
             Calc.epsilonf := Calc.epsilonf k;
             Calc.epsilong := Calc.epsilong k;
             Calc.Alphag := SoilUpdate.Alphag u;
             Calc.Alphaf := Calc.Alphaf k;
             Calc.RH := FluxBlock.RH fb;
             Calc.Pa := FluxBlock.Pa fb;
             Calc.Tg := Tgold;
             Calc.Tf := Tfold;
             Calc.Zf := Calc.Zf k;
             Calc.Moisture := SoilUpdate.Moisture u;
             Calc.MoistureResidual := Calc.MoistureResidual k;
             Calc.MoistureMax := Calc.MoistureMax k;
             Calc.MeanRootMoisture := SoilUpdate.MeanRootMoisture u;
             Calc.SoilThickness := Calc.SoilThickness k;
             Calc.StomatalResistanceMin := Calc.StomatalResistanceMin k;
             Calc.f3 := FluxBlock.f3 fb;
             Calc.Zog := FluxBlock.Zog fb;
             Calc.Lf := FluxBlock.Lf fb;
             Calc.Vfluxf := FluxBlock.Vfluxf fb;
             Calc.Qsoil := Qsoil;
             Calc.sheatf := Coef.sheatf c;
             Calc.sensiblef := FluxBlock.sensiblef fb;
             Calc.sheatg := Coef.sheatg c;
             Calc.sensibleg := FluxBlock.sensibleg fb;
             Calc.Lg := FluxBlock.Lg fb;
             Calc.Vfluxg := FluxBlock.Vfluxg fb;
             Calc.MyEnvrnFlag := Calc.MyEnvrnFlag k |};
        World.green := World.green w |},
     ConstrNum, SoilTK - KelvinConv)
  else
    ({| World.water := wt;
        World.Tfold := Tfold;
        World.Tgold := Tgold;
        World.EcoRoofbeginFlag := false;
        World.soil := World.soil w;
        World.materials := World.materials w;
        World.Irrigation_ActualAmount := World.Irrigation_ActualAmount w;
        World.TH := set_TH (World.TH w) SurfNum Tgold;
        World.calc := k;
        World.green := World.green w |},
     ConstrNum, Tgold).

(** ** Initial state *)

(** Lines 73-84: the module variables as initialised. *)
Definition Water_initial : Water.t :=
  {| Water.CumRunoff := 0.0;
     Water.CumET := 0.0;
     Water.CumPrecip := 0.0;
     Water.CumIrrigation := 0.0;
     Water.CurrentRunoff := 0;
     Water.CurrentET := 0;
     Water.CurrentPrecipitation := 0;
     Water.CurrentIrrigation := 0 |}.

(** Lines 1046-1166: the initialisers of [CalcEcoRoof]'s statics; those
    without one start at zero. *)
Definition Calc_initial : Calc.t :=
  {| Calc.FirstEcoSurf := 0;
     Calc.QuickConductionSurf := false;
     Calc.LAI := 0.2;
     Calc.epsilonf := 0.95;
     Calc.epsilong := 0.95;
     Calc.Alphag := 0.3;
     Calc.Alphaf := 0.2;
     Calc.RH := 50.0;
     Calc.Pa := 101325.0;
     Calc.Tg := 10.0;
     Calc.Tf := 10.0;
     Calc.Zf := 0.2;
     Calc.Moisture := 0;
     Calc.MoistureResidual := 0.05;
     Calc.MoistureMax := 0.5;
     Calc.MeanRootMoisture := 0;
     Calc.SoilThickness := 0.2;
     Calc.StomatalResistanceMin := 0;
     Calc.f3 := 1.0;
     Calc.Zog := 0.001;
     Calc.Lf := 0;
     Calc.Vfluxf := 0.0;
     Calc.Qsoil := 0.0;
     Calc.sheatf := 0;
     Calc.sensiblef := 0;
     Calc.sheatg := 0;
     Calc.sensibleg := 0;
     Calc.Lg := 0.0;
     Calc.Vfluxg := 0.0;
     Calc.MyEnvrnFlag := true |}.

(** Lines 149-274: the initialisers of
    [GreenRoof_with_PlantCoverage]'s statics. *)
Definition Green_initial : Green.t :=
  {| Green.MyEnvrnFlag := true;
     Green.FirstEcoSurf := 0;
     Green.props :=
       {| Green.LAI := 0; Green.Alphap := 0; Green.epsilong := 0;
          Green.epsilonp := 0; Green.MoistureMax := 0;
          Green.MoistureResidual := 0; Green.SoilThickness := 0;
          Green.StomatalResistanceMin := 0; Green.sigma_f := 0;
          Green.VWC_fc := 0; Green.VWC_wp := 0; Green.Ksw := 0; Green.Klw := 0 |};
     Green.Moisture := 0;
     Green.MeanRootMoisture := 0;
     Green.Alphag := 0;
     Green.Alphag_UnUsed := 0.3;
     Green.temps :=
       {| Green.T_plant := 0; Green.T_soil := 0; Green.T_bare_soil := 0;
          Green.Tsoil_avg := 0 |};
     Green.fluxes :=
       {| Green.Vfluxf := 0.0; Green.Vfluxg := 0.0; Green.Q_ET_p := 0;
          Green.Q_E_s := 0; Green.Q_E_bare_s := 0; Green.Q_E_avg := 0 |};
     Green.reports :=
       {| Green.Tsoil_avg_Rep := 0; Green.T_plant_Rep := 0; Green.Qconv_p_Rep := 0;
          Green.Qconv_s_Rep := 0; Green.Qconv_bare_s_Rep := 0;
          Green.Qconv_s_avg_Rep := 0; Green.Q_ET_p_Rep := 0; Green.Q_E_s_Rep := 0;
          Green.Q_E_bare_s_Rep := 0; Green.Q_E_avg_Rep := 0; Green.Q_sol_soil_Rep := 0;
          Green.Q_sol_bare_s_Rep := 0; Green.Q_sol_s_avg_Rep := 0;
          Green.Q_IR_s_Rep := 0; Green.Q_IR_bare_s_Rep := 0;
          Green.Q_IR_s_avg_Rep := 0; Green.Qcond_avg_Rep := 0 |} |}.

(** The state before the first call, over a given material table and
    surface temperature history. *)
Definition World_initial (ms : Materials) (TH : Z -> R) : World.t :=
  {| World.water := Water_initial;
     World.Tfold := 0;
     World.Tgold := 0;
     World.EcoRoofbeginFlag := true;
     World.soil := SoilStatics_initial;
     World.materials := ms;
     World.Irrigation_ActualAmount := 0;
     World.TH := TH;
     World.calc := Calc_initial;
     World.green := Green_initial |}.

(** The host calls one of the two routines once per eco-roof surface and
    time step; a run is the sequence of these calls. *)
Module Call.
Record t := {
  env : Env.t;
  frame : Frame.t;
  SurfNum : Z;
  ZoneNum : Z;
  ConstrNum : Z
}.
End Call.

Definition run_CalcEcoRoof (calls : list Call.t) (w : World.t) : World.t :=
  fold_left
    (fun w c =>
       fst (fst (CalcEcoRoof (Call.env c) w (Call.SurfNum c) (Call.ZoneNum c)
                   (Call.ConstrNum c))))
    calls w.

Definition run_GreenRoof (calls : list Call.t) (w : World.t) : World.t :=
  fold_left
    (fun w c =>
       fst (fst (GreenRoof_with_PlantCoverage (Call.env c) (Call.frame c) w
                   (Call.SurfNum c) (Call.ZoneNum c) (Call.ConstrNum c))))
    calls w.

(** * Sample data and notions used in the statements *)

(** ** A sample roof and its surroundings *)

Definition sample_material (method : Z) : Material.t :=
  {| Material.Conductivity := 0.4;
     Material.Density := 641.0;
     Material.SpecHeat := 1100.0;
     Material.AbsorpSolar := 0.7;
     Material.EcoRoofCalculationMethod := method;
     Material.Roughness := 3;
     Material.AbsorpThermal := 0.95;
     Material.HeightOfPlants := 0.2;
     Material.LAI := 1.0;
     Material.Lreflectivity := 0.22;
     Material.LEmissitivity := 0.95;
     Material.RStomata := 180.0;
     Material.Porosity := 0.5;
     Material.MinMoisture := 0.1;
     Material.InitMoisture := 0.1;
     Material.Thickness := 0.2;
     Material.PlantCoverage := 0.5;
     Material.VWC_FieldCapacity := 0.3;
     Material.SW_ExtCoeff := 0.6;
     Material.LW_ExtCoeff := 0.8 |}.

(** A dry step of [minutes] minutes: no rain, no irrigation, no warm-up. *)
Definition dry_driver (minutes : Z) : Driver.t :=
  {| Driver.MinutesPerTimeStep := minutes;
     Driver.WarmupFlag := false;
     Driver.BeginEnvrnFlag := false;
     Driver.RainFall_ModeID := RainNone;
     Driver.RainFall_CurrentAmount := 0.0;
     Driver.Irrigation_ModeID := IrrNone;
     Driver.Irrigation_ScheduledAmount := 0.0;
     Driver.Irrigation_IrrigationThreshold := 0.4 |}.

(** A warm-up step of 15 minutes. *)
Definition warmup_driver : Driver.t :=
  {| Driver.MinutesPerTimeStep := 15;
     Driver.WarmupFlag := true;
     Driver.BeginEnvrnFlag := false;
     Driver.RainFall_ModeID := RainNone;
     Driver.RainFall_CurrentAmount := 0.0;
     Driver.Irrigation_ModeID := IrrNone;
     Driver.Irrigation_ScheduledAmount := 0.0;
     Driver.Irrigation_IrrigationThreshold := 0.4 |}.

(** The statics [UpdateSoilProps] sets up for the sample roof. *)
Definition sample_statics (minutes : Z) : SoilStatics.t :=
  {| SoilStatics.TopDepth := 0.06;
     SoilStatics.RootDepth := 0.14;
     SoilStatics.SecondsPerTimeStep := IZR minutes * 60.0;
     SoilStatics.DryCond := 0.4;
     SoilStatics.DryDens := 641.0;
     SoilStatics.DryAbsorp := 0.7;
     SoilStatics.DrySpecHeat := 1100.0;
     SoilStatics.UpdatebeginFlag := false |}.

Definition moist_top_wet_root : Soil.t :=
  {| Soil.Moisture := 0.3; Soil.MeanRootMoisture := 0.5; Soil.CurrentRunoff := 0 |}.

(** A 4 m by 4 m roof under still, clear conditions; [wind] is the wind
    speed at roof height and [air] the outdoor temperature in Celsius. *)
Definition sample_env (d : Driver.t) (wind air : R) : Env.t :=
  {| Env.driver := d;
     Env.Surface_Area := fun _ => 16;
     Env.Surface_Centroid_z := fun _ => 3;
     Env.Surface_ViewFactorSky := fun _ => 1;
     Env.Surface_ViewFactorGround := fun _ => 0;
     Env.Surface_ExtWind := fun _ => true;
     Env.Surface_StormWinConstruction := fun _ => 0%Z;
     Env.SurfaceWindow_StormWinFlag := fun _ => 0%Z;
     Env.AnisoSkyMult := fun _ => 1;
     Env.BeamSolarRad := 0;
     Env.DifSolarRad := 0;
     Env.GroundTempKelvin := 293.15;
     Env.SkyTempKelvin := 283.15;
     Env.OutRelHum := 50;
     Env.StdBaroPress := 101325;
     Env.WindSpeedAt := fun _ => wind;
     Env.OutDryBulbTempAt := fun _ => air;
     Env.Construct_CTFCross0 := fun _ => 0;
     Env.Construct_CTFInside0 := fun _ => 1;
     Env.Construct_CTFOutside0 := fun _ => 1;
     Env.Construct_CTFSourceIn0 := fun _ => 0;
     Env.HConvIn := fun _ => 1;
     Env.CTFConstOutPart := fun _ => 0;
     Env.CTFConstInPart := fun _ => 0;
     Env.QRadSWInAbs := fun _ => 0;
     Env.QRadThermInAbs := fun _ => 0;
     Env.QsrcHist1 := fun _ => 0;
     Env.NetLWRadToSurf := fun _ => 0;
     Env.TempSurfIn := fun _ => 20;
     Env.MAT := fun _ => 20 |}.

Definition sample_frame : Frame.t :=
  {| Frame.WS := 0; Frame.Tak := 0; Frame.Pa := 0; Frame.Rhoa := 0; Frame.eair := 0;
     Frame.r_s_sub := 0; Frame.Q_sol_abs_plants := 0; Frame.Q_sol_abs_soil := 0;
     Frame.Q_sol_abs_bare_soil := 0; Frame.f_solar := 0; Frame.f_VWC := 0;
     Frame.indeterminate := 0;
     Frame.Solution1 := fun _ => 0; Frame.Func1 := fun _ => 0;
     Frame.Solution2 := fun _ => 0; Frame.Func2 := fun _ => 0;
     Frame.Solution3 := fun _ => 0; Frame.Func3 := fun _ => 0 |}.

(** The sample roof in warm-up: the first call ever is made for surface 1,
    the next one, in the same time step, for surface 2. *)
Definition warm_env : Env.t := sample_env warmup_driver 2 20.

Definition fresh_world : World.t :=
  World_initial (fun _ => sample_material 1) (fun _ => 20).

Definition after_first_call : World.t :=
  fst (fst (CalcEcoRoof warm_env fresh_world 1 1 1)).

Definition after_second_call : World.t :=
  fst (fst (CalcEcoRoof warm_env after_first_call 2 1 1)).

(** ** Water held by the soil model *)

(** Water held by the two layers plus the runoff so far, in metres. *)
Definition water_of (s : SoilStatics.t) (w : Soil.t) : R :=
  Soil.CurrentRunoff w
  + Soil.Moisture w * SoilStatics.TopDepth s
  + Soil.MeanRootMoisture w * SoilStatics.RootDepth s.

(** ** Evapotranspiration rates *)

(** The two rates carried from one call to the next are not negative. *)
Definition Calc_rates_nonneg (k : Calc.t) : Prop :=
  0 <= Calc.Vfluxf k /\ 0 <= Calc.Vfluxg k.

Definition Green_rates_nonneg (g : Green.t) : Prop :=
  0 <= Green.Vfluxf (Green.fluxes g) /\ 0 <= Green.Vfluxg (Green.fluxes g).

(** ** Newton-Raphson estimates and the bisection bracket *)

Section NewtonIterates.

Variable Func : R -> R.
Variable Func_prim : R -> R.

(** The Newton-Raphson iteration as the description states it: the
    [k]-th estimate from the first one.  A step from an estimate at which
    [Func_prim] is zero has no real value (the source divides by zero);
    the estimates are meant under the assumption that it is not. *)
Definition newton_step (x : R) : R := x - Func x / Func_prim x.

Fixpoint newton_iterate (k : nat) (x : R) : R :=
  match k with
  | O => x
  | S k => newton_step (newton_iterate k x)
  end.

(** Estimates [k] and [k+1] are further apart than the tolerance. *)
Definition far_apart (k : nat) (x : R) : Prop :=
  Rabs (newton_iterate (S k) x - newton_iterate k x) > 0.0001.

(** What the hundredth pass returns, from the last two points at which the
    function was evaluated. *)
Definition hundredth_pass (x_prev x_cur : R) : R :=
  if sign_change (Func x_cur) (Func x_prev) then
    Bisect.T_new
      (bisection Func (Func x_cur) (Func x_prev) x_cur x_prev
         (0.5 * (x_cur + x_prev)) (newton_step x_cur))
  else newton_step x_cur.

(** Distance between the estimate a bisection pass leaves and its midpoint:
    the quantity the loop tests. *)
Definition bisect_gap (b : Bisect.t) : R := Rabs (Bisect.T_new b - Bisect.MidPoint b).

Definition bisect_width (b : Bisect.t) : R := Rabs (Bisect.Sol_1 b - Bisect.Sol_2 b).

(** The state between two passes once a pass has moved an end of the
    bracket: the pending estimate is the middle of the bracket. *)
Definition bisect_centred (b : Bisect.t) : Prop :=
  (Bisect.iter_Mid b >= 1)%Z
  /\ Bisect.T_new b = 0.5 * (Bisect.Sol_1 b + Bisect.Sol_2 b).

End NewtonIterates.

(** A solve that never meets the tolerance: with [Func x = x] and the
    slope taken as one half, every Newton step mirrors the estimate, the
    function values alternate in sign, and the hundredth pass bisects
    between -1 and 1. *)
Definition mirror_Func (x : R) : R := x.
Definition mirror_prim (_ : R) : R := 0.5.

(** ** Further sample data and notions *)

(** A 15-minute step at the start of an environment. *)
Definition begin_driver : Driver.t :=
  {| Driver.MinutesPerTimeStep := 15;
     Driver.WarmupFlag := false;
     Driver.BeginEnvrnFlag := true;
     Driver.RainFall_ModeID := RainNone;
     Driver.RainFall_CurrentAmount := 0.0;
     Driver.Irrigation_ModeID := IrrNone;
     Driver.Irrigation_ScheduledAmount := 0.0;
     Driver.Irrigation_IrrigationThreshold := 0.4 |}.

(** The vegetation and soil parameters that [CalcEcoRoof] reads from the
    material on its first entry (lines 1187-1216). *)
Definition Calc_parameters (k : Calc.t) : Z * (R * R * R * R * R) * (R * R * R * R) :=
  (Calc.FirstEcoSurf k,
   (Calc.LAI k, Calc.epsilonf k, Calc.epsilong k, Calc.Alphaf k, Calc.Zf k),
   (Calc.MoistureResidual k, Calc.MoistureMax k, Calc.SoilThickness k,
    Calc.StomatalResistanceMin k)).

Definition Material_parameters (SurfNum : Z) (m : Material.t)
    : Z * (R * R * R * R * R) * (R * R * R * R) :=
  (SurfNum,
   (Material.LAI m, Material.LEmissitivity m, Material.AbsorpThermal m,
    Material.Lreflectivity m, Material.HeightOfPlants m),
   (Material.MinMoisture m, Material.Porosity m, Material.Thickness m,
    Material.RStomata m)).

(** The bracket of the bisection: the two function values are those of the
    two end points and differ in sign. *)
Definition bisect_bracket (Func : R -> R) (b : Bisect.t) : Prop :=
  Bisect.Func_1 b = Func (Bisect.Sol_1 b)
  /\ Bisect.Func_2 b = Func (Bisect.Sol_2 b)
  /\ sign_change (Bisect.Func_1 b) (Bisect.Func_2 b) = true.

(** ** The real domain of the arithmetic

    [Real64] values are read as real numbers, so a [std::pow] or a division
    that in the source leaves the reals (a NaN or an infinity) has no
    counterpart here.  The statements about code that takes powers or
    divides by a computed value carry the conditions below, under which the
    source stays within the reals. *)

(** Where [std::pow] has a real value (overflow apart): a positive base, a
    zero base with a positive exponent, or an integral exponent that is
    non-negative when the base is zero. *)
Definition std_pow_defined (x y : R) : Prop :=
  0 < x
  \/ (x = 0 /\ 0 < y)
  \/ (exists k : Z, y = IZR k /\ (x <> 0 \/ (0 <= k)%Z)).

(** The powers and quotients of lines 1770-1786 are real for the soil
    state [w] that enters the unsaturated-flow law: the two moisture limits
    differ, the top layer is not above the porosity (below the residual its
    saturation is floored by line 1771), and the root zone, whose
    saturation has no floor, lies above the residual and not above the
    porosity. *)
Definition unsaturated_flow_defined (MoistureMax MoistureResidual : R) (w : Soil.t) : Prop :=
  MoistureResidual < MoistureMax
  /\ Soil.Moisture w <= MoistureMax
  /\ MoistureResidual < Soil.MeanRootMoisture w <= MoistureMax.

(** The quotients of a call of [UpdateSoilProps] have non-zero divisors
    and, under the unsaturated-flow law, the soil state that enters it is
    in the domain above. *)
Definition UpdateSoilProps_defined (d : Driver.t) (s : SoilStatics.t) (m : Material.t)
    (Moisture MeanRootMoisture MoistureMax MoistureResidual SoilThickness
     Vfluxf Vfluxg Alphag : R) : Prop :=
  SoilStatics.TopDepth s <> 0
  /\ SoilStatics.RootDepth s <> 0
  /\ SoilThickness <> 0
  /\ MoistureResidual < MoistureMax
  /\ Material.Conductivity m <> 0
  /\ Material.Density m <> 0
  /\ Material.SpecHeat m <> 0
  /\ Alphag <> 0
  /\ (Material.EcoRoofCalculationMethod m <> 1%Z ->
      unsaturated_flow_defined MoistureMax MoistureResidual
        (soil_inputs d s MoistureMax Vfluxf Vfluxg Moisture MeanRootMoisture)).

(** A solve that never meets the tolerance and whose bracket has no root
    at its middle: the function [x - 0.1] with slopes chosen so that every
    Newton step goes from 1 to -1 and back. *)
Definition skew_Func (x : R) : R := x - 0.1.
Definition skew_prim (x : R) : R := if Rlt_dec 0 x then 0.45 else 0.55.

(** The state between two passes of the bisection once a pass has moved an
    end of the bracket, for a bracket first taken between [lo] and [hi]:
    the counter is past its first value, both ends lie between [lo] and
    [hi], the function values stored are those of the ends and differ in
    sign, and the pending estimate is the middle of the bracket. *)
Definition bisect_inside (Func : R -> R) (lo hi : R) (b : Bisect.t) : Prop :=
  bisect_centred b
  /\ bisect_bracket Func b
  /\ lo <= Bisect.Sol_1 b <= hi
  /\ lo <= Bisect.Sol_2 b <= hi.

(** ** The call of [CalcEcoRoof] for the reference surface *)

(** The soil update of line 1280, from the statics as lines 1187-1275
    leave them. *)
Definition CalcEcoRoof_soil (e : Env.t) (w : World.t) (SurfNum ConstrNum : Z)
    : SoilUpdate.t :=
  let ConstrNum := storm_construction e SurfNum ConstrNum in
  let entry := CalcEcoRoof_entry e w SurfNum ConstrNum in
  let k := snd entry in
  UpdateSoilProps (Env.driver e) (World.soil w) (fst (fst (fst entry))) (World.materials w)
    (Calc.Moisture k) (Calc.MeanRootMoisture k)
    (Calc.MoistureMax k) (Calc.MoistureResidual k) (Calc.SoilThickness k)
    (Calc.Vfluxf k) (Calc.Vfluxg k) ConstrNum (Calc.Alphag k).

(** The flux block of lines 1281-1450 as that call computes it when the
    wind speed given to the correlations is [Ws]. *)
Definition CalcEcoRoof_fluxes (e : Env.t) (w : World.t) (SurfNum ZoneNum ConstrNum : Z)
    (Ws : R) : FluxBlock.t :=
  let u := CalcEcoRoof_soil e w SurfNum ConstrNum in
  let ConstrNum := storm_construction e SurfNum ConstrNum in
  let entry := CalcEcoRoof_entry e w SurfNum ConstrNum in
  let RS := Env.BeamSolarRad e + Env.AnisoSkyMult e SurfNum * Env.DifSolarRad e in
  let Latm :=
    1.0 * Sigma * 1.0 * Env.Surface_ViewFactorGround e SurfNum * pow_4 (Env.GroundTempKelvin e)
    + 1.0 * Sigma * 1.0 * Env.Surface_ViewFactorSky e SurfNum * pow_4 (Env.SkyTempKelvin e) in
  calc_fluxes e (snd entry) SurfNum ZoneNum ConstrNum
    (Material.Roughness (World.materials w ConstrNum)) Ws RS Latm
    (snd (fst (fst entry))) (snd (fst entry))
    (SoilUpdate.Moisture u) (SoilUpdate.MeanRootMoisture u) (SoilUpdate.Alphag u).

(** Lines 1318-1323: the bulk transfer coefficient of the canopy at neutral
    stability, from the plant height. *)
Definition Cfhn_of (Zf : R) : R :=
  let Zd := 0.701 * std_pow Zf 0.979 in
  let Zo := 0.131 * std_pow Zf 0.997 in
  let Zo := if Rlt_dec Zo 0.02 then 0.02 else Zo in
  pow_2 (Kv / ln ((Za - Zd) / Zo)).

(** ** The call of [GreenRoof_with_PlantCoverage] *)

(** The statics as lines 319-408 leave them. *)
Definition GreenRoof_statics (e : Env.t) (w : World.t) (SurfNum ConstrNum : Z) : Green.t :=
  snd (GreenRoof_entry e w SurfNum (storm_construction e SurfNum ConstrNum)).

(** What the block of lines 423-457 leaves. *)
Definition GreenRoof_gate (e : Env.t) (fr : Frame.t) (w : World.t)
    (SurfNum ConstrNum : Z) : Gate.t :=
  let ConstrNum := storm_construction e SurfNum ConstrNum in
  let RS := Env.BeamSolarRad e + Env.AnisoSkyMult e SurfNum * Env.DifSolarRad e in
  let wt := fst (GreenRoof_entry e w SurfNum ConstrNum) in
  let g := snd (GreenRoof_entry e w SurfNum ConstrNum) in
  green_gate e fr w wt g SurfNum ConstrNum RS
    (exp (- Green.Ksw (Green.props g) * Green.LAI (Green.props g))).

(** Lines 458-460: the soil-moisture stress factor with its override below
    the wilting point. *)
Definition GreenRoof_f_VWC (e : Env.t) (fr : Frame.t) (w : World.t)
    (SurfNum ConstrNum : Z) : R :=
  let gate := GreenRoof_gate e fr w SurfNum ConstrNum in
  if Rlt_dec (Gate.Moisture gate)
       (Green.VWC_wp (Green.props (GreenRoof_statics e w SurfNum ConstrNum)))
  then 1000 else Frame.f_VWC (Gate.frame gate).

(** Lines 481-764 as the call makes them. *)
Definition GreenRoof_solved (e : Env.t) (fr : Frame.t) (w : World.t)
    (SurfNum ZoneNum ConstrNum : Z) : Solved.t :=
  let g := GreenRoof_statics e w SurfNum ConstrNum in
  let p := Green.props g in
  let gate := GreenRoof_gate e fr w SurfNum ConstrNum in
  let C := storm_construction e SurfNum ConstrNum in
  green_solve e SurfNum p (Gate.frame gate)
    (GreenRoof_f_VWC e fr w SurfNum ConstrNum)
    (Env.BeamSolarRad e + Env.AnisoSkyMult e SurfNum * Env.DifSolarRad e)
    (exp (- Green.Ksw p * Green.LAI p))
    (exp (- Green.Klw p * Green.LAI p))
    (Green.epsilonp p + Green.epsilong p - Green.epsilong p * Green.epsilonp p)
    (h_por_of (sqrt (Env.Surface_Area e SurfNum)) (Gate.frame gate))
    (fst (conduction_terms e SurfNum ZoneNum C))
    (snd (conduction_terms e SurfNum ZoneNum C))
    (Gate.Alphag gate) (Green.temps g) (Green.fluxes g) (Green.reports g).

(** * Proofs *)

(** ** Tactics *)

(** [decide_R] settles the real comparisons of a goal, innermost first, by
    linear arithmetic; a comparison that [lra] cannot settle is split. *)
Ltac no_dec t :=
  lazymatch t with
  | context [Rle_dec _ _] => fail
  | context [Rlt_dec _ _] => fail
  | context [Rgt_dec _ _] => fail
  | context [Rge_dec _ _] => fail
  | _ => idtac
  end.

Ltac decide_R :=
  repeat match goal with
  | |- context [Rgt_dec ?a ?b] =>
      no_dec a; no_dec b; destruct (Rgt_dec a b); [ try (exfalso; lra) | try (exfalso; lra) ]
  | |- context [Rge_dec ?a ?b] =>
      no_dec a; no_dec b; destruct (Rge_dec a b); [ try (exfalso; lra) | try (exfalso; lra) ]
  | |- context [Rlt_dec ?a ?b] =>
      no_dec a; no_dec b; destruct (Rlt_dec a b); [ try (exfalso; lra) | try (exfalso; lra) ]
  | |- context [Rle_dec ?a ?b] =>
      no_dec a; no_dec b; destruct (Rle_dec a b); [ try (exfalso; lra) | try (exfalso; lra) ]
  end.

(** ** A sample roof: 20 cm of soil, porosity 0.5, residual moisture 0.1 *)

Lemma sample_begin (minutes method : Z) :
  UpdateSoilProps_begin (dry_driver minutes) (sample_material method) 0.2
    SoilStatics_initial = sample_statics minutes.
Proof.
  unfold UpdateSoilProps_begin, sample_statics. cbn.
  decide_R. f_equal; lra.
Qed.

(** ** The rate limit of the thermal write-back *)

Lemma limit_TestRatio_in_band (d : Driver.t) (t : R) :
  (0 <= Driver.MinutesPerTimeStep d)%Z ->
  RatioMin d <= limit_TestRatio d t <= RatioMax d.
Proof.
  intros Hm. apply IZR_le in Hm.
  unfold limit_TestRatio, RatioMin, RatioMax.
  decide_R; lra.
Qed.

Lemma set_material_same (ms : Materials) (c : Z) (m : Material.t) :
  set_material ms c m c = m.
Proof. unfold set_material. destruct (Z.eq_dec c c); congruence. Qed.

(** ** The moisture bounds (C1) *)

Lemma sample_inputs_dry :
  soil_inputs (dry_driver 15) (sample_statics 15) 0.5 0.0 1e-7 0.1 0.11
  = {| Soil.Moisture := 0.0985; Soil.MeanRootMoisture := 0.11; Soil.CurrentRunoff := 0 |}.
Proof.
  unfold soil_inputs, water_inputs, after_evaporation, precipitation_of, irrigation_of.
  cbn. decide_R. f_equal; lra.
Qed.

Lemma sample_diffusion_dry :
  redistribute_diffusion (dry_driver 15) (sample_statics 15) 0.5
    {| Soil.Moisture := 0.0985; Soil.MeanRootMoisture := 0.11; Soil.CurrentRunoff := 0 |}
  = {| Soil.Moisture := 0.0987415; Soil.MeanRootMoisture := 0.1098965;
       Soil.CurrentRunoff := 0 |}.
Proof.
  unfold redistribute_diffusion. cbn.
  decide_R. unfold Rmin, Rmax. decide_R. f_equal; lra.
Qed.

(** C1, at a failing input.  Under the diffusion law
    ([EcoRoofCalculationMethod] 1) a 15-minute dry step of the sample roof
    that starts with the top layer at the residual moisture 0.1, the root
    zone at 0.11 and a soil evaporation rate of 1e-7 m/s ends with
    [Moisture] = 0.0987415, below [MoistureResidual], while the entry state
    is within bounds and both rates are non-negative. *)
Theorem UpdateSoilProps_top_layer_below_residual :
  let MoistureResidual := 0.1 in
  let MoistureMax := 0.5 in
  let Moisture := 0.1 in
  let MeanRootMoisture := 0.11 in
  let Vfluxf := 0.0 in
  let Vfluxg := 1e-7 in
  let u :=
    UpdateSoilProps (dry_driver 15) SoilStatics_initial Water_initial
      (fun _ => sample_material 1)
      Moisture MeanRootMoisture MoistureMax MoistureResidual 0.2 Vfluxf Vfluxg 1 0.3 in
  (MoistureResidual <= Moisture <= MoistureMax
   /\ MoistureResidual <= MeanRootMoisture <= MoistureMax
   /\ 0 <= Vfluxf /\ 0 <= Vfluxg)
  /\ SoilUpdate.Moisture u = 0.0987415
  /\ SoilUpdate.Moisture u < MoistureResidual.
Proof.
  cbv zeta.
  assert (E : SoilUpdate.Moisture
                (UpdateSoilProps (dry_driver 15) SoilStatics_initial Water_initial
                   (fun _ => sample_material 1) 0.1 0.11 0.5 0.1 0.2 0.0 1e-7 1 0.3)
              = 0.0987415).
  { unfold UpdateSoilProps, water_inputs. cbn [SoilUpdate.Moisture].
    rewrite sample_begin.
    unfold soil_moisture_step, redistribute.
    rewrite sample_inputs_dry.
    cbn [Material.EcoRoofCalculationMethod sample_material].
    destruct (Z.eq_dec 1 1) as [_|]; [|congruence].
    rewrite sample_diffusion_dry.
    unfold root_floor. cbn. decide_R. cbn. reflexivity. }
  rewrite E. repeat split; lra.
Qed.

(** ** The single-step water balance (C5) *)

(** [field] does not read decimal literals; [real_field] first writes them
    as quotients of integers. *)
Ltac real_field := cbv [Q2R QArith_base.Qnum QArith_base.Qden]; field.

Section WaterBalance.

Variable d : Driver.t.
Variable s : SoilStatics.t.
Variables MoistureMax MoistureResidual : R.

Hypothesis TopDepth_nonzero : SoilStatics.TopDepth s <> 0.
Hypothesis RootDepth_nonzero : SoilStatics.RootDepth s <> 0.

Lemma soil_inputs_balance (Vfluxf Vfluxg Moisture MeanRootMoisture : R) :
  water_of s (soil_inputs d s MoistureMax Vfluxf Vfluxg Moisture MeanRootMoisture)
  = Moisture * SoilStatics.TopDepth s + MeanRootMoisture * SoilStatics.RootDepth s
    + (fst (water_inputs d s MoistureMax Vfluxf Vfluxg Moisture MeanRootMoisture)
       + snd (water_inputs d s MoistureMax Vfluxf Vfluxg Moisture MeanRootMoisture)
       - (Vfluxg + Vfluxf) * IZR (Driver.MinutesPerTimeStep d) * 60.0).
Proof.
  unfold water_of, soil_inputs, water_inputs, after_evaporation, precipitation_of.
  cbn [fst snd].
  destruct (Driver.RainFall_ModeID d);
    decide_R; cbn [Soil.Moisture Soil.MeanRootMoisture Soil.CurrentRunoff];
    real_field; auto.
Qed.

Lemma diffusion_conserves (w : Soil.t) :
  water_of s (redistribute_diffusion d s MoistureMax w) = water_of s w.
Proof.
  unfold water_of, redistribute_diffusion.
  decide_R; cbn [Soil.Moisture Soil.MeanRootMoisture Soil.CurrentRunoff];
    try reflexivity; real_field; auto.
Qed.

Lemma root_floor_adds (w : Soil.t) :
  water_of s (root_floor s MoistureResidual w)
  = water_of s w + top_floor_gain s MoistureResidual w * SoilStatics.TopDepth s.
Proof.
  unfold water_of, root_floor, top_floor_gain.
  decide_R; cbn [Soil.Moisture Soil.MeanRootMoisture Soil.CurrentRunoff];
    real_field; auto.
Qed.

Lemma unsaturated_flow_gap (w : Soil.t) :
  unsaturated_clamp_free s MoistureMax MoistureResidual w ->
  water_of s (root_floor s MoistureResidual
              (redistribute_unsaturated s MoistureMax MoistureResidual w))
  = water_of s w
    + SoilStatics.SecondsPerTimeStep s
      * SoilConductivityAveTop MoistureMax MoistureResidual w
      * (CapillaryPotentialTop MoistureMax MoistureResidual (Soil.Moisture w)
         - CapillaryPotentialRoot MoistureMax MoistureResidual (Soil.MeanRootMoisture w))
      * (1 / SoilStatics.TopDepth s + 1 / SoilStatics.RootDepth s).
Proof.
  intros (Hsat & Ht1 & Ht2 & Hr1 & Hr2 & Hr3).
  unfold water_of, root_floor, redistribute_unsaturated.
  destruct (Rge_dec (top_after_flow s MoistureMax MoistureResidual w) MoistureMax);
    [contradiction|].
  destruct (Rle_dec (top_after_flow s MoistureMax MoistureResidual w) (1.01 * MoistureResidual));
    [contradiction|].
  destruct (Rge_dec (root_after_flow s MoistureMax MoistureResidual w) MoistureMax);
    [contradiction|].
  destruct (Rle_dec (root_after_flow s MoistureMax MoistureResidual w) (1.01 * MoistureResidual));
    [contradiction|].
  cbn [Soil.Moisture Soil.MeanRootMoisture Soil.CurrentRunoff].
  destruct (Rle_dec (root_after_flow s MoistureMax MoistureResidual w)
              (MoistureResidual * 1.00001)); [contradiction|].
  cbn [Soil.Moisture Soil.MeanRootMoisture Soil.CurrentRunoff].
  unfold top_after_flow, root_after_flow. cbv zeta.
  real_field; auto.
Qed.

End WaterBalance.

(** *** [std::pow] on the arguments the counterexample meets *)

Lemma std_pow_positive_base (x y : R) :
  0 < x -> y <> 0 -> std_pow x y = Rpower x y.
Proof.
  intros Hx Hy. unfold std_pow.
  destruct (Req_dec_T y 0); [contradiction|].
  destruct (Rlt_dec 0 x); [reflexivity|contradiction].
Qed.

Lemma std_pow_zero_base (y : R) : y <> 0 -> std_pow 0 y = 0.
Proof.
  intros Hy. unfold std_pow.
  destruct (Req_dec_T y 0); [contradiction|].
  destruct (Rlt_dec 0 0); [lra|].
  destruct (Req_dec_T 0 0); [reflexivity|contradiction].
Qed.

Lemma Rpower_one_base (y : R) : Rpower 1 y = 1.
Proof. unfold Rpower. rewrite ln_1, Rmult_0_r. apply exp_0. Qed.

Lemma Rpower_positive (x y : R) : 0 < Rpower x y.
Proof. unfold Rpower. apply exp_pos. Qed.

Lemma Rpower_below_one (x y : R) : 0 < x < 1 -> 0 < y -> Rpower x y < 1.
Proof.
  intros Hx Hy. rewrite <- (Rpower_one_base y).
  apply Rlt_Rpower_l; lra.
Qed.

Lemma Rpower_at_most_one (x y : R) : 0 < x <= 1 -> 0 <= y -> Rpower x y <= 1.
Proof.
  intros Hx Hy. rewrite <- (Rpower_one_base y).
  apply Rle_Rpower_l; lra.
Qed.

Lemma exponent_n_ratio : n / (n - 1.0) = 127 / 27.
Proof. unfold n. real_field. Qed.

Lemma exponent_n_inverse_ratio : (n - 1.0) / n = 27 / 127.
Proof. unfold n. real_field. Qed.

Lemma exponent_inverse_n : 1.0 / n = 100 / 127.
Proof. unfold n. real_field. Qed.

(** At saturation the conductivity is the saturated one and the capillary
    potential vanishes. *)
Lemma SoilHydroConductivity_saturated :
  SoilHydroConductivity 1 = SoilConductivitySaturation.
Proof.
  unfold SoilHydroConductivity, lambda.
  rewrite exponent_n_ratio, exponent_n_inverse_ratio.
  rewrite !(std_pow_positive_base 1) by lra.
  rewrite !Rpower_one_base.
  replace (1.0 - 1) with 0 by lra.
  rewrite std_pow_zero_base by lra.
  unfold pow_2. lra.
Qed.

Lemma CapillaryPotential_saturated : CapillaryPotential 1 = 0.
Proof.
  unfold CapillaryPotential.
  rewrite exponent_n_ratio, exponent_inverse_n.
  replace (1.0 / 1) with 1 by lra.
  rewrite (std_pow_positive_base 1) by lra.
  rewrite Rpower_one_base.
  replace (1 - 1.0) with 0 by lra.
  rewrite std_pow_zero_base by lra.
  lra.
Qed.

(** At half saturation the conductivity lies between zero and the saturated
    one, and the potential is negative and no lower than -31/23 m. *)
Lemma SoilHydroConductivity_half :
  0 <= SoilHydroConductivity 0.5 <= SoilConductivitySaturation.
Proof.
  unfold SoilHydroConductivity, lambda.
  rewrite exponent_n_ratio, exponent_n_inverse_ratio.
  rewrite !(std_pow_positive_base 0.5) by lra.
  pose proof (Rpower_positive 0.5 0.5) as A0.
  pose proof (Rpower_at_most_one 0.5 0.5 ltac:(lra) ltac:(lra)) as A1.
  pose proof (Rpower_positive 0.5 (127 / 27)) as B0.
  pose proof (Rpower_below_one 0.5 (127 / 27) ltac:(lra) ltac:(lra)) as B1.
  rewrite (std_pow_positive_base (1.0 - Rpower 0.5 (127 / 27))) by lra.
  pose proof (Rpower_positive (1.0 - Rpower 0.5 (127 / 27)) (27 / 127)) as C0.
  pose proof (Rpower_at_most_one (1.0 - Rpower 0.5 (127 / 27)) (27 / 127)
                ltac:(lra) ltac:(lra)) as C1.
  set (a := Rpower 0.5 0.5) in *.
  set (c := Rpower (1.0 - Rpower 0.5 (127 / 27)) (27 / 127)) in *.
  unfold pow_2, SoilConductivitySaturation.
  assert (0 <= (1.0 - c) * (1.0 - c) <= 1) by nra.
  split; nra.
Qed.

Lemma two_to_the_fifth : Rpower 2 5 = 32.
Proof.
  replace 5 with (INR 5) by (simpl; lra).
  rewrite Rpower_pow by lra. simpl. lra.
Qed.

Lemma CapillaryPotential_half : - (31 / 23) <= CapillaryPotential 0.5 < 0.
Proof.
  unfold CapillaryPotential, alpha.
  rewrite exponent_n_ratio, exponent_inverse_n.
  replace (1.0 / 0.5) with 2 by lra.
  rewrite (std_pow_positive_base 2) by lra.
  assert (B0 : 1 < Rpower 2 (127 / 27)).
  { rewrite <- (Rpower_O 2) by lra. apply Rpower_lt; lra. }
  assert (B1 : Rpower 2 (127 / 27) <= 32).
  { rewrite <- two_to_the_fifth. apply Rle_Rpower; lra. }
  rewrite (std_pow_positive_base (Rpower 2 (127 / 27) - 1.0)) by lra.
  set (b := Rpower 2 (127 / 27) - 1.0) in *.
  assert (Hb : 0 < b <= 31) by (unfold b; lra).
  pose proof (Rpower_positive b (100 / 127)) as C0.
  assert (C1 : Rpower b (100 / 127) <= 31).
  { destruct (Rle_dec b 1) as [Hle|Hgt].
    - pose proof (Rpower_at_most_one b (100 / 127) ltac:(lra) ltac:(lra)). lra.
    - apply Rle_trans with (Rpower b 1).
      + apply Rle_Rpower; lra.
      + rewrite Rpower_1 by lra. lra. }
  split; nra.
Qed.

(** *** The balance of one call *)

Section CallBalance.

Variable d : Driver.t.
Variable s0 : SoilStatics.t.
Variable w0 : Water.t.
Variable ms : Materials.
Variables Moisture MeanRootMoisture MoistureMax MoistureResidual SoilThickness : R.
Variables Vfluxf Vfluxg : R.
Variable ConstrNum : Z.
Variable Alphag : R.

Let u :=
  UpdateSoilProps d s0 w0 ms Moisture MeanRootMoisture MoistureMax
    MoistureResidual SoilThickness Vfluxf Vfluxg ConstrNum Alphag.
Let s := SoilUpdate.statics u.

(** The two sides of the balance of a call, in terms of the moisture step
    it performs. *)
Lemma UpdateSoilProps_left_side :
  Water.CurrentRunoff (SoilUpdate.water u)
  + (SoilUpdate.Moisture u - Moisture) * SoilStatics.TopDepth s
  + (SoilUpdate.MeanRootMoisture u - MeanRootMoisture) * SoilStatics.RootDepth s
  = water_of s
      (soil_moisture_step d s (ms ConstrNum) MoistureMax MoistureResidual
         Vfluxf Vfluxg Moisture MeanRootMoisture)
    - Moisture * SoilStatics.TopDepth s
    - MeanRootMoisture * SoilStatics.RootDepth s.
Proof.
  subst s u. unfold UpdateSoilProps.
  destruct (water_inputs _ _ _ _ _ _ _) as [P I].
  cbn [SoilUpdate.water SoilUpdate.Moisture SoilUpdate.MeanRootMoisture
       SoilUpdate.statics update_water Water.CurrentRunoff].
  unfold water_of. lra.
Qed.

Lemma UpdateSoilProps_right_side :
  Water.CurrentPrecipitation (SoilUpdate.water u)
  + Water.CurrentIrrigation (SoilUpdate.water u)
  - Water.CurrentET (SoilUpdate.water u)
  = fst (water_inputs d s MoistureMax Vfluxf Vfluxg Moisture MeanRootMoisture)
    + snd (water_inputs d s MoistureMax Vfluxf Vfluxg Moisture MeanRootMoisture)
    - (Vfluxg + Vfluxf) * IZR (Driver.MinutesPerTimeStep d) * 60.0.
Proof.
  subst s u. unfold UpdateSoilProps.
  cbn [SoilUpdate.water SoilUpdate.statics].
  destruct (water_inputs _ _ _ _ _ _ _) as [P I].
  cbn [SoilUpdate.water SoilUpdate.statics update_water Water.CurrentPrecipitation
       Water.CurrentIrrigation Water.CurrentET fst snd].
  reflexivity.
Qed.

End CallBalance.

(** What the balance of one call is.  For a call of [UpdateSoilProps] with
    non-zero layer depths, let the left side be [CurrentRunoff] plus the
    water gained by the two layers and the right side [CurrentPrecipitation
    + CurrentIrrigation - CurrentET].  Under the diffusion law the left
    side exceeds the right exactly by the water that the floor of line 1842
    adds to the top layer (zero when it does not fire).  Under the
    unsaturated-flow law, for a soil state within the real domain of the
    law and on a step where no clamp fires, it exceeds it by
    [SecondsPerTimeStep * SoilConductivityAveTop * (CapillaryPotentialTop -
    CapillaryPotentialRoot) * (1/TopDepth + 1/RootDepth)]. *)
Lemma UpdateSoilProps_water_balance
    (d : Driver.t) (s0 : SoilStatics.t) (w0 : Water.t) (ms : Materials)
    (Moisture MeanRootMoisture MoistureMax MoistureResidual SoilThickness
     Vfluxf Vfluxg : R) (ConstrNum : Z) (Alphag : R) :
  let u :=
    UpdateSoilProps d s0 w0 ms Moisture MeanRootMoisture MoistureMax
      MoistureResidual SoilThickness Vfluxf Vfluxg ConstrNum Alphag in
  let s := SoilUpdate.statics u in
  let entering := soil_inputs d s MoistureMax Vfluxf Vfluxg Moisture MeanRootMoisture in
  let left_side :=
    Water.CurrentRunoff (SoilUpdate.water u)
    + (SoilUpdate.Moisture u - Moisture) * SoilStatics.TopDepth s
    + (SoilUpdate.MeanRootMoisture u - MeanRootMoisture) * SoilStatics.RootDepth s in
  let right_side :=
    Water.CurrentPrecipitation (SoilUpdate.water u)
    + Water.CurrentIrrigation (SoilUpdate.water u)
    - Water.CurrentET (SoilUpdate.water u) in
  SoilStatics.TopDepth s <> 0 ->
  SoilStatics.RootDepth s <> 0 ->
  (Material.EcoRoofCalculationMethod (ms ConstrNum) = 1%Z ->
   left_side
   = right_side
     + top_floor_gain s MoistureResidual (redistribute_diffusion d s MoistureMax entering)
       * SoilStatics.TopDepth s)
  /\ (Material.EcoRoofCalculationMethod (ms ConstrNum) <> 1%Z ->
      unsaturated_flow_defined MoistureMax MoistureResidual entering ->
      unsaturated_clamp_free s MoistureMax MoistureResidual entering ->
      left_side
      = right_side
        + SoilStatics.SecondsPerTimeStep s
          * SoilConductivityAveTop MoistureMax MoistureResidual entering
          * (CapillaryPotentialTop MoistureMax MoistureResidual (Soil.Moisture entering)
             - CapillaryPotentialRoot MoistureMax MoistureResidual
                 (Soil.MeanRootMoisture entering))
          * (1 / SoilStatics.TopDepth s + 1 / SoilStatics.RootDepth s)).
Proof.
  intros u s entering left_side right_side.
  subst left_side right_side entering s u.
  intros Htop Hroot.
  rewrite UpdateSoilProps_left_side, UpdateSoilProps_right_side.
  unfold soil_moisture_step, redistribute.
  split.
  - intros Hm. destruct (Z.eq_dec _ 1) as [_|]; [|contradiction].
    rewrite root_floor_adds by assumption.
    rewrite diffusion_conserves by assumption.
    rewrite soil_inputs_balance by assumption.
    lra.
  - intros Hm _ Hfree. destruct (Z.eq_dec _ 1) as [|_]; [contradiction|].
    rewrite unsaturated_flow_gap by assumption.
    rewrite soil_inputs_balance by assumption.
    lra.
Qed.

Lemma UpdateSoilProps_statics
    (d : Driver.t) (s0 : SoilStatics.t) (w0 : Water.t) (ms : Materials)
    (Moisture MeanRootMoisture MoistureMax MoistureResidual SoilThickness
     Vfluxf Vfluxg : R) (ConstrNum : Z) (Alphag : R) :
  SoilUpdate.statics
    (UpdateSoilProps d s0 w0 ms Moisture MeanRootMoisture MoistureMax
       MoistureResidual SoilThickness Vfluxf Vfluxg ConstrNum Alphag)
  = UpdateSoilProps_begin d (ms ConstrNum) SoilThickness s0.
Proof.
  unfold UpdateSoilProps. destruct (water_inputs _ _ _ _ _ _ _). reflexivity.
Qed.

(** The balance of the dry 15-minute step of the sample roof under the
    diffusion law. *)
Lemma UpdateSoilProps_water_balance_sample :
  let u :=
    UpdateSoilProps (dry_driver 15) SoilStatics_initial Water_initial
      (fun _ => sample_material 1) 0.1 0.11 0.5 0.1 0.2 0.0 1e-7 1 0.3 in
  let s := SoilUpdate.statics u in
  Water.CurrentRunoff (SoilUpdate.water u)
  + (SoilUpdate.Moisture u - 0.1) * SoilStatics.TopDepth s
  + (SoilUpdate.MeanRootMoisture u - 0.11) * SoilStatics.RootDepth s
  = Water.CurrentPrecipitation (SoilUpdate.water u)
    + Water.CurrentIrrigation (SoilUpdate.water u)
    - Water.CurrentET (SoilUpdate.water u)
    + top_floor_gain s 0.1
        (redistribute_diffusion (dry_driver 15) s 0.5
           (soil_inputs (dry_driver 15) s 0.5 0.0 1e-7 0.1 0.11))
      * SoilStatics.TopDepth s.
Proof.
  refine (proj1 (UpdateSoilProps_water_balance (dry_driver 15) SoilStatics_initial
                   Water_initial (fun _ => sample_material 1)
                   0.1 0.11 0.5 0.1 0.2 0.0 1e-7 1 0.3 _ _) eq_refl);
    rewrite UpdateSoilProps_statics, sample_begin; simpl; lra.
Defined.

(** *** A step of the unsaturated-flow law on which no clamp fires *)

Lemma sample_inputs_still :
  soil_inputs (dry_driver 1) (sample_statics 1) 0.5 0.0 0.0 0.3 0.5 = moist_top_wet_root.
Proof.
  unfold soil_inputs, water_inputs, after_evaporation, precipitation_of, irrigation_of,
    moist_top_wet_root.
  cbn. decide_R. f_equal; lra.
Qed.

Lemma saturation_top_half : RelativeSoilSaturationTop 0.5 0.1 0.3 = 0.5.
Proof.
  unfold RelativeSoilSaturationTop.
  replace ((0.3 - 0.1) / (0.5 - 0.1)) with 0.5 by lra.
  decide_R. reflexivity.
Qed.

Lemma saturation_root_full : RelativeSoilSaturationRoot 0.5 0.1 0.5 = 1.
Proof. unfold RelativeSoilSaturationRoot. lra. Qed.

Lemma drainage_at_saturation :
  SoilConductivityAveRoot SoilConductivitySaturation = SoilConductivitySaturation.
Proof.
  unfold SoilConductivityAveRoot, SoilConductivitySaturation. decide_R. reflexivity.
Qed.

(** The flows of the step: the top layer loses water but stays far from its
    bounds, and so does the root zone although it starts saturated. *)
Lemma sample_flows :
  0.28 < top_after_flow (sample_statics 1) 0.5 0.1 moist_top_wet_root < 0.3
  /\ 0.49 < root_after_flow (sample_statics 1) 0.5 0.1 moist_top_wet_root < 0.5
  /\ SoilConductivityAveTop 0.5 0.1 moist_top_wet_root
     * (CapillaryPotentialTop 0.5 0.1 0.3 - CapillaryPotentialRoot 0.5 0.1 0.5) < 0.
Proof.
  unfold top_after_flow, root_after_flow, SoilConductivityAveTop,
    CapillaryPotentialTop, CapillaryPotentialRoot, SoilHydroConductivityRoot.
  cbn [moist_top_wet_root sample_statics Soil.Moisture Soil.MeanRootMoisture
       SoilStatics.TopDepth SoilStatics.RootDepth SoilStatics.SecondsPerTimeStep].
  rewrite saturation_top_half, saturation_root_full.
  rewrite SoilHydroConductivity_saturated, CapillaryPotential_saturated,
    drainage_at_saturation.
  pose proof SoilHydroConductivity_half as HK.
  pose proof CapillaryPotential_half as Hpsi.
  set (K := SoilHydroConductivity 0.5) in *.
  set (psi := CapillaryPotential 0.5) in *.
  unfold SoilConductivitySaturation in *.
  assert (Hprod : - (31 / 23) * 5.157e-7 <= (K + 5.157e-7) * 0.5 * psi < 0) by nra.
  set (q := (K + 5.157e-7) * 0.5 * psi) in *.
  replace ((K + 5.157e-7) * 0.5 * (psi - 0)) with q by (unfold q; lra).
  repeat split; lra.
Qed.

Lemma sample_clamp_free :
  unsaturated_clamp_free (sample_statics 1) 0.5 0.1 moist_top_wet_root.
Proof.
  destruct sample_flows as ((T0 & T1) & (R0 & R1) & _).
  unfold unsaturated_clamp_free.
  cbn [moist_top_wet_root Soil.Moisture].
  repeat split; lra.
Qed.

(** C5, at a failing input.  A one-minute dry step of the sample roof
    under the unsaturated-flow law ([EcoRoofCalculationMethod] 2), entered
    with the top layer at 0.3 and the root zone at the porosity 0.5 and
    with no evapotranspiration, fires no clamp, and yet [CurrentRunoff]
    plus the water gained by the two layers is strictly less than
    [CurrentPrecipitation + CurrentIrrigation - CurrentET] (which is zero):
    lines 1790 and 1813 move the capillary term of the two layers in the
    same direction, each over its own depth, so that water is lost where
    the diffusion law passes it from one layer to the other. *)
Lemma UpdateSoilProps_unsaturated_flow_loses_water :
  let u :=
    UpdateSoilProps (dry_driver 1) SoilStatics_initial Water_initial
      (fun _ => sample_material 2) 0.3 0.5 0.5 0.1 0.2 0.0 0.0 1 0.3 in
  let s := SoilUpdate.statics u in
  (0.1 <= 0.3 <= 0.5 /\ 0.1 <= 0.5 <= 0.5)
  /\ unsaturated_clamp_free s 0.5 0.1 (soil_inputs (dry_driver 1) s 0.5 0.0 0.0 0.3 0.5)
  /\ Water.CurrentRunoff (SoilUpdate.water u)
     + (SoilUpdate.Moisture u - 0.3) * SoilStatics.TopDepth s
     + (SoilUpdate.MeanRootMoisture u - 0.5) * SoilStatics.RootDepth s
     < Water.CurrentPrecipitation (SoilUpdate.water u)
       + Water.CurrentIrrigation (SoilUpdate.water u)
       - Water.CurrentET (SoilUpdate.water u).
Proof.
  intros u s.
  assert (Es : s = sample_statics 1).
  { unfold s, u. rewrite UpdateSoilProps_statics. apply sample_begin. }
  assert (Hfree : unsaturated_clamp_free s 0.5 0.1
                    (soil_inputs (dry_driver 1) s 0.5 0.0 0.0 0.3 0.5)).
  { rewrite Es, sample_inputs_still. apply sample_clamp_free. }
  split; [lra|]. split; [exact Hfree|].
  assert (Htop : SoilStatics.TopDepth s <> 0) by (rewrite Es; simpl; lra).
  assert (Hroot : SoilStatics.RootDepth s <> 0) by (rewrite Es; simpl; lra).
  subst s u.
  rewrite UpdateSoilProps_left_side, UpdateSoilProps_right_side.
  unfold soil_moisture_step, redistribute.
  cbn [sample_material Material.EcoRoofCalculationMethod].
  destruct (Z.eq_dec 2 1) as [|_]; [lia|].
  rewrite unsaturated_flow_gap by assumption.
  rewrite soil_inputs_balance by assumption.
  rewrite UpdateSoilProps_statics, sample_begin, sample_inputs_still.
  destruct sample_flows as (_ & _ & Hneg).
  cbn [moist_top_wet_root sample_statics Soil.Moisture Soil.MeanRootMoisture
       SoilStatics.TopDepth SoilStatics.RootDepth SoilStatics.SecondsPerTimeStep].
  set (K := SoilConductivityAveTop 0.5 0.1 moist_top_wet_root) in *.
  set (D := CapillaryPotentialTop 0.5 0.1 0.3 - CapillaryPotentialRoot 0.5 0.1 0.5) in *.
  replace (1 * 60.0 * K * D * (1 / 0.06 + 1 / 0.14))
    with (K * D * (60.0 * (1 / 0.06 + 1 / 0.14))) by lra.
  assert (0 < 60.0 * (1 / 0.06 + 1 / 0.14)) by lra.
  nra.
Qed.

(** ** The three passes of the lumped model *)

Lemma EcoLoop_for_step (c : Coef.t) (EcoLoop : Z) (T : R * R) :
  (EcoLoop <= 3)%Z ->
  EcoLoop_for c EcoLoop T = EcoLoop_for c (EcoLoop + 1) (EcoLoop_pass c T).
Proof.
  intros H. rewrite EcoLoop_for_equation_1. unfold EcoLoop_for_unfold_clause_1.
  destruct (Z_le_dec EcoLoop 3); [reflexivity|contradiction].
Qed.

Lemma EcoLoop_for_exit (c : Coef.t) (EcoLoop : Z) (T : R * R) :
  ~ (EcoLoop <= 3)%Z -> EcoLoop_for c EcoLoop T = T.
Proof.
  intros H. rewrite EcoLoop_for_equation_1. unfold EcoLoop_for_unfold_clause_1.
  destruct (Z_le_dec EcoLoop 3); [contradiction|reflexivity].
Qed.

(** The pair of [closed_form] solves the two linearized equations
    [P1 + P2*Tg + P3*Tf = 0] and [T1G + T2G*Tg + T3G*Tf = 0] whenever their
    determinant does not vanish. *)
Lemma closed_form_solves (P1 P2 P3 T1G T2G T3G : R) :
  - P3 * T2G + T3G * P2 <> 0 ->
  let Tf := fst (closed_form P1 P2 P3 T1G T2G T3G) in
  let Tg := snd (closed_form P1 P2 P3 T1G T2G T3G) in
  P1 + P2 * Tg + P3 * Tf = 0 /\ T1G + T2G * Tg + T3G * Tf = 0.
Proof.
  intros Hdet. unfold closed_form. cbn [fst snd].
  assert (Hdet' : - P2 * T3G + P3 * T2G <> 0) by (intro E; apply Hdet; lra).
  split; field; auto.
Qed.

(** ** The convective coefficient (C9) *)

Lemma sample_roof_length (d : Driver.t) (wind air : R) (SurfNum : Z) :
  roof_length (sample_env d wind air) SurfNum = 4.
Proof.
  unfold roof_length. cbn. replace 16 with (4 * 4) by lra.
  apply sqrt_square. lra.
Qed.

Lemma sample_L_cha (d : Driver.t) (wind air : R) (SurfNum : Z) :
  L_cha (sample_env d wind air) SurfNum = 1.
Proof. unfold L_cha. rewrite sample_roof_length. lra. Qed.

Lemma std_pow_zero_exponent (x : R) : std_pow x (IZR (1 / 3)) = 1.
Proof.
  unfold std_pow. change (IZR (1 / 3)) with 0.
  destruct (Req_dec_T 0 0); [reflexivity|contradiction].
Qed.

Lemma std_pow_unit_exponent (x : R) : 0 < x -> std_pow x (IZR (5 / 3)) = x.
Proof.
  intros Hx. change (IZR (5 / 3)) with 1.
  rewrite std_pow_positive_base by lra. apply Rpower_1, Hx.
Qed.

Lemma Rpower_above_square (x : R) : 1 <= x -> x * x <= Rpower x 2.2.
Proof.
  intros Hx. apply Rle_trans with (Rpower x 2).
  - replace 2 with (INR 2) by (simpl; lra).
    rewrite Rpower_pow by lra. simpl. lra.
  - apply Rle_Rpower; lra.
Qed.

(** The two numbers for a plant 3 K warmer than air at 300 K, in a wind of
    2 m/s. *)
Lemma sample_Grashof (d : Driver.t) (wind air : R) (SurfNum : Z) :
  3.9e8 < Grashof (sample_env d wind air) SurfNum 300 303 < 4e8.
Proof.
  unfold Grashof. rewrite sample_L_cha. unfold pow_3, pow_2, nu_air.
  rewrite Rabs_right; lra.
Qed.

Lemma sample_Reynolds (d : Driver.t) (air : R) (SurfNum : Z) :
  5.1e5 < Reynolds (sample_env d 2 air) SurfNum 2 < 5.2e5.
Proof. unfold Reynolds. rewrite sample_roof_length. unfold nu_air. lra. Qed.

(** When none of the three tests holds the coefficient is never assigned:
    the function returns what its result variable held. *)
Lemma h_conv_unassigned (junk : R) (e : Env.t) (SurfNum : Z)
    (Tair_k plant_temp WindSpeed k_air1 : R) :
  let Gr := Grashof e SurfNum Tair_k plant_temp in
  let Re := Reynolds e SurfNum WindSpeed in
  ~ forced_regime Gr Re -> ~ mixed_regime Gr Re -> ~ natural_regime Gr Re ->
  h_conv junk e SurfNum Tair_k plant_temp WindSpeed k_air1 = junk.
Proof.
  intros Gr Re Hf Hm Hn. unfold h_conv.
  unfold forced_regime, mixed_regime, natural_regime in *. fold Gr Re.
  destruct (Rlt_dec Gr (0.068 * std_pow Re 2.2)); [contradiction|].
  destruct (Rgt_dec Gr (55.3 * std_pow Re (IZR (5 / 3)))); [contradiction|].
  destruct (Rgt_dec Gr (0.068 * std_pow Re 2.2));
    [destruct (Rlt_dec Gr (55.3 * std_pow Re (IZR (5 / 3)))); [tauto|] |];
    reflexivity.
Qed.

(** The boundary of the forced regime is such a case whenever it lies at or
    below the natural threshold. *)
Lemma h_conv_unassigned_on_boundary (junk : R) (e : Env.t) (SurfNum : Z)
    (Tair_k plant_temp WindSpeed k_air1 : R) :
  let Gr := Grashof e SurfNum Tair_k plant_temp in
  let Re := Reynolds e SurfNum WindSpeed in
  Gr = 0.068 * std_pow Re 2.2 ->
  Gr <= 55.3 * std_pow Re (IZR (5 / 3)) ->
  h_conv junk e SurfNum Tair_k plant_temp WindSpeed k_air1 = junk.
Proof.
  intros Gr Re Heq Hle. apply h_conv_unassigned; fold Gr Re;
    unfold forced_regime, mixed_regime, natural_regime; lra.
Qed.

(** C9, at a failing input.  For air at 300 K, a plant at 303 K, a wind of
    2 m/s and a roof of 16 m2 the test of the forced regime and the test of
    the natural regime both hold (the mixed one does not), and [h_conv]
    returns the natural-convection value [3 * 0.15 * k_air1 / L_cha], the
    last one assigned, whatever its result variable held before. *)
Theorem h_conv_regimes_overlap (d : Driver.t) (junk k_air1 : R) :
  let e := sample_env d 2 26.85 in
  let Gr := Grashof e 1 300 303 in
  let Re := Reynolds e 1 2 in
  (0 < 300 /\ 0 < 303 /\ 0 < 2 /\ 0 < Env.Surface_Area e 1)
  /\ forced_regime Gr Re
  /\ ~ mixed_regime Gr Re
  /\ natural_regime Gr Re
  /\ h_conv junk e 1 300 303 2 k_air1 = 0.45 * k_air1
  /\ h_conv_bare junk e 1 300 303 2 k_air1 = 0.315 * k_air1.
Proof.
  intros e Gr Re.
  pose proof (sample_Grashof d 2 26.85 1) as HGr.
  pose proof (sample_Reynolds d 26.85 1) as HRe.
  fold e Gr in HGr. fold e Re in HRe.
  assert (Hunit : std_pow Re (IZR (5 / 3)) = Re) by (apply std_pow_unit_exponent; lra).
  assert (Hsq : Re * Re <= std_pow Re 2.2).
  { rewrite std_pow_positive_base by lra. apply Rpower_above_square. lra. }
  assert (Hforced : Gr < 0.068 * std_pow Re 2.2) by nra.
  assert (Hnatural : Gr > 55.3 * std_pow Re (IZR (5 / 3))) by (rewrite Hunit; lra).
  split; [cbn; lra|].
  split; [exact Hforced|].
  split; [unfold mixed_regime; lra|].
  split; [exact Hnatural|].
  split.
  - unfold h_conv. fold Gr Re.
    destruct (Rgt_dec Gr (55.3 * std_pow Re (IZR (5 / 3)))); [|contradiction].
    rewrite std_pow_zero_exponent. unfold e. rewrite sample_L_cha. lra.
  - unfold h_conv_bare. fold Gr Re.
    destruct (Rgt_dec Gr (55.3 * std_pow Re (IZR (5 / 3)))); [|contradiction].
    rewrite std_pow_zero_exponent. unfold e. rewrite sample_L_cha. lra.
Qed.

(** ** The evapotranspiration rates (C8) *)

Lemma clamp_flux_nonneg (v : R) : 0 <= clamp_flux v.
Proof. unfold clamp_flux. decide_R; lra. Qed.

Lemma CalcEcoRoof_entry_rates (e : Env.t) (w : World.t) (SurfNum ConstrNum : Z) :
  Calc_rates_nonneg (World.calc w) ->
  Calc_rates_nonneg (snd (CalcEcoRoof_entry e w SurfNum ConstrNum)).
Proof.
  intros [Hf Hg]. unfold Calc_rates_nonneg, CalcEcoRoof_entry, calc_resets.
  cbn [snd Calc.Vfluxf Calc.Vfluxg].
  destruct (World.EcoRoofbeginFlag w);
    destruct (Driver.BeginEnvrnFlag (Env.driver e) && Calc.MyEnvrnFlag _);
    cbn [calc_first_entry Calc.Vfluxf Calc.Vfluxg]; split; lra.
Qed.

Lemma CalcEcoRoof_rates (e : Env.t) (w : World.t) (SurfNum ZoneNum ConstrNum : Z) :
  Calc_rates_nonneg (World.calc w) ->
  Calc_rates_nonneg (World.calc (fst (fst (CalcEcoRoof e w SurfNum ZoneNum ConstrNum)))).
Proof.
  intros H. unfold CalcEcoRoof.
  pose proof (CalcEcoRoof_entry_rates e w SurfNum
                (storm_construction e SurfNum ConstrNum) H) as Hk.
  destruct (Z.eq_dec SurfNum _); cbn [fst World.calc].
  - unfold Calc_rates_nonneg. cbn [Calc.Vfluxf Calc.Vfluxg].
    unfold calc_fluxes. destruct (conduction_terms _ _ _ _).
    cbn [FluxBlock.Vfluxf FluxBlock.Vfluxg].
    split; apply clamp_flux_nonneg.
  - exact Hk.
Qed.

Lemma GreenRoof_entry_rates (e : Env.t) (w : World.t) (SurfNum ConstrNum : Z) :
  Green_rates_nonneg (World.green w) ->
  Green_rates_nonneg (snd (GreenRoof_entry e w SurfNum ConstrNum)).
Proof.
  intros [Hf Hg].
  unfold Green_rates_nonneg, GreenRoof_entry, green_reset_environment, green_reset_moisture.
  cbn [snd Green.fluxes].
  destruct (World.EcoRoofbeginFlag w);
    destruct (Driver.BeginEnvrnFlag (Env.driver e));
    destruct (Driver.WarmupFlag (Env.driver e));
    cbn [orb andb green_first_entry Green.MyEnvrnFlag Green.fluxes];
    destruct (Green.MyEnvrnFlag (World.green w));
    cbn [Green.fluxes Green.Vfluxf Green.Vfluxg]; split; lra.
Qed.

Lemma GreenRoof_rates (e : Env.t) (fr : Frame.t) (w : World.t)
    (SurfNum ZoneNum ConstrNum : Z) :
  Green_rates_nonneg
    (World.green (fst (fst (GreenRoof_with_PlantCoverage e fr w SurfNum ZoneNum ConstrNum)))).
Proof.
  unfold GreenRoof_with_PlantCoverage, Green_rates_nonneg.
  cbn [fst World.green Green.fluxes].
  unfold green_solve. cbn [Solved.fluxes Green.Vfluxf Green.Vfluxg].
  split; apply clamp_flux_nonneg.
Qed.

Lemma run_CalcEcoRoof_rates (calls : list Call.t) (w : World.t) :
  Calc_rates_nonneg (World.calc w) ->
  Calc_rates_nonneg (World.calc (run_CalcEcoRoof calls w)).
Proof.
  revert w. induction calls as [|c calls IH]; intros w H.
  - exact H.
  - cbn. apply IH. apply CalcEcoRoof_rates, H.
Qed.

Lemma run_GreenRoof_rates (calls : list Call.t) (w : World.t) :
  Green_rates_nonneg (World.green w) ->
  Green_rates_nonneg (World.green (run_GreenRoof calls w)).
Proof.
  revert w. induction calls as [|c calls IH]; intros w H.
  - exact H.
  - cbn. apply IH. apply GreenRoof_rates.
Qed.

(** C8.  After any sequence of calls from the initial state, the rates
    [Vfluxf] and [Vfluxg] that the next call of either routine passes to
    [UpdateSoilProps] (the statics as they stand after that call's entry
    resets) are non-negative; they are so because each routine ends its flux
    block by replacing a negative rate with zero ([clamp_flux]). *)
Theorem evapotranspiration_rates_never_negative
    (ms : Materials) (TH : Z -> R) (calls : list Call.t)
    (e : Env.t) (SurfNum ConstrNum : Z) :
  (let k :=
     snd (CalcEcoRoof_entry e (run_CalcEcoRoof calls (World_initial ms TH))
            SurfNum ConstrNum) in
   0 <= Calc.Vfluxf k /\ 0 <= Calc.Vfluxg k)
  /\ (let g :=
        snd (GreenRoof_entry e (run_GreenRoof calls (World_initial ms TH))
               SurfNum ConstrNum) in
      0 <= Green.Vfluxf (Green.fluxes g) /\ 0 <= Green.Vfluxg (Green.fluxes g))
  /\ (forall v : R, 0 <= clamp_flux v /\ (v < 0 -> clamp_flux v = 0)
                    /\ (0 <= v -> clamp_flux v = v)).
Proof.
  split; [|split].
  - apply CalcEcoRoof_entry_rates, run_CalcEcoRoof_rates.
    unfold Calc_rates_nonneg. cbn. lra.
  - apply GreenRoof_entry_rates, run_GreenRoof_rates.
    unfold Green_rates_nonneg. cbn. lra.
  - intro v. split; [apply clamp_flux_nonneg|].
    unfold clamp_flux. split; intros Hv; decide_R; lra.
Qed.

(** ** The wind speed floor (C10) *)

Lemma green_gate_wind (e : Env.t) (fr : Frame.t) (w : World.t) (wt : Water.t)
    (g : Green.t) (SurfNum ConstrNum : Z) (RS tau_sw : R) :
  SurfNum = Green.FirstEcoSurf g ->
  Frame.WS (Gate.frame (green_gate e fr w wt g SurfNum ConstrNum RS tau_sw))
  = Env.WindSpeedAt e (Env.Surface_Centroid_z e SurfNum).
Proof.
  intros H. unfold green_gate.
  destruct (Z.eq_dec SurfNum (Green.FirstEcoSurf g)); [|contradiction].
  reflexivity.
Qed.

(** C10, as stated, fails.  In [GreenRoof_with_PlantCoverage], for the
    reference surface under a wind of 1 m/s at roof height, the wind speed
    with which the convective-coefficient functions are called is 1 m/s,
    below 2 m/s. *)
Lemma GreenRoof_wind_speed_below_floor :
  let e := sample_env (dry_driver 15) 1 20 in
  let g := snd (GreenRoof_entry e (World_initial (fun _ => sample_material 2) (fun _ => 20))
                  1 1) in
  let gate :=
    green_gate e
      {| Frame.WS := 0; Frame.Tak := 0; Frame.Pa := 0; Frame.Rhoa := 0;
         Frame.eair := 0; Frame.r_s_sub := 0; Frame.Q_sol_abs_plants := 0;
         Frame.Q_sol_abs_soil := 0; Frame.Q_sol_abs_bare_soil := 0;
         Frame.f_solar := 0; Frame.f_VWC := 0; Frame.indeterminate := 0;
         Frame.Solution1 := fun _ => 0; Frame.Func1 := fun _ => 0;
         Frame.Solution2 := fun _ => 0; Frame.Func2 := fun _ => 0;
         Frame.Solution3 := fun _ => 0; Frame.Func3 := fun _ => 0 |}
      (World_initial (fun _ => sample_material 2) (fun _ => 20))
      Water_initial g 1 1 0 1 in
  1%Z = Green.FirstEcoSurf g
  /\ Frame.WS (Gate.frame gate) = 1
  /\ (forall T : R,
        plant_h_conv e 1 (Gate.frame gate) T
        = h_conv 0 e 1 (Frame.Tak (Gate.frame gate)) T 1 k_air)
  /\ (forall T : R,
        bare_h_conv e 1 (Gate.frame gate) T
        = h_conv_bare 0 e 1 (Frame.Tak (Gate.frame gate)) T 1 k_air)
  /\ Frame.WS (Gate.frame gate) < 2.
Proof.
  intros e g gate.
  assert (Hfirst : 1%Z = Green.FirstEcoSurf g) by reflexivity.
  assert (Hws : Frame.WS (Gate.frame gate) = 1).
  { unfold gate. rewrite green_gate_wind by exact Hfirst. reflexivity. }
  split; [exact Hfirst|]. split; [exact Hws|].
  split; [|split].
  - intro T. unfold plant_h_conv. rewrite Hws. reflexivity.
  - intro T. unfold bare_h_conv. rewrite Hws. reflexivity.
  - rewrite Hws. lra.
Qed.

(** ** Calls for surfaces other than the reference surface (C3) *)

Lemma warmup_begin (method : Z) :
  UpdateSoilProps_begin warmup_driver (sample_material method) 0.2
    SoilStatics_initial = sample_statics 15.
Proof.
  unfold UpdateSoilProps_begin, sample_statics. cbn.
  decide_R. f_equal; lra.
Qed.

(** The first warm-up step of the sample roof lifts both layers from the
    residual moisture 0.1 to the floor 0.100001. *)
Lemma warmup_first_step_moisture (Alphag : R) :
  SoilUpdate.Moisture
    (UpdateSoilProps warmup_driver SoilStatics_initial Water_initial
       (fun _ => sample_material 1) 0.1 0.1 0.5 0.1 0.2 0.0 0.0 1 Alphag)
  = 0.100001.
Proof.
  unfold UpdateSoilProps, water_inputs. cbn [SoilUpdate.Moisture].
  rewrite warmup_begin.
  unfold soil_moisture_step, redistribute, soil_inputs, water_inputs,
    after_evaporation, precipitation_of, irrigation_of.
  cbn [warmup_driver Driver.RainFall_ModeID Driver.Irrigation_ModeID
       Driver.MinutesPerTimeStep sample_statics SoilStatics.TopDepth
       SoilStatics.RootDepth sample_material Material.EcoRoofCalculationMethod fst snd].
  destruct (Z.eq_dec 1 1) as [_|]; [|congruence].
  decide_R.
  unfold redistribute_diffusion.
  cbn [Soil.Moisture Soil.MeanRootMoisture Soil.CurrentRunoff].
  decide_R.
  unfold root_floor.
  cbn [Soil.Moisture Soil.MeanRootMoisture Soil.CurrentRunoff sample_statics
       SoilStatics.TopDepth SoilStatics.RootDepth].
  decide_R. cbn [Soil.Moisture]. lra.
Qed.

(** What a call of [CalcEcoRoof] does to the moisture when it is made for
    the reference surface, and the whole of what it does otherwise. *)
Lemma CalcEcoRoof_reference_moisture
    (e : Env.t) (w : World.t) (SurfNum ZoneNum ConstrNum : Z) :
  let c := storm_construction e SurfNum ConstrNum in
  let entry := CalcEcoRoof_entry e w SurfNum c in
  let k := snd entry in
  SurfNum = Calc.FirstEcoSurf k ->
  Calc.Moisture (World.calc (fst (fst (CalcEcoRoof e w SurfNum ZoneNum ConstrNum))))
  = SoilUpdate.Moisture
      (UpdateSoilProps (Env.driver e) (World.soil w) (fst (fst (fst entry)))
         (World.materials w) (Calc.Moisture k) (Calc.MeanRootMoisture k)
         (Calc.MoistureMax k) (Calc.MoistureResidual k) (Calc.SoilThickness k)
         (Calc.Vfluxf k) (Calc.Vfluxg k) c (Calc.Alphag k)).
Proof.
  intros c entry k H. unfold CalcEcoRoof. fold c. fold entry. fold k.
  destruct (Z.eq_dec SurfNum (Calc.FirstEcoSurf k)); [reflexivity|contradiction].
Qed.

Lemma CalcEcoRoof_other_surface
    (e : Env.t) (w : World.t) (SurfNum ZoneNum ConstrNum : Z) :
  let c := storm_construction e SurfNum ConstrNum in
  let entry := CalcEcoRoof_entry e w SurfNum c in
  SurfNum <> Calc.FirstEcoSurf (snd entry) ->
  CalcEcoRoof e w SurfNum ZoneNum ConstrNum
  = ({| World.water := fst (fst (fst entry));
        World.Tfold := snd (fst (fst entry));
        World.Tgold := snd (fst entry);
        World.EcoRoofbeginFlag := false;
        World.soil := World.soil w;
        World.materials := World.materials w;
        World.Irrigation_ActualAmount := World.Irrigation_ActualAmount w;
        World.TH := set_TH (World.TH w) SurfNum (snd (fst entry));
        World.calc := snd entry;
        World.green := World.green w |},
     c, snd (fst entry)).
Proof.
  intros c entry H. unfold CalcEcoRoof. fold c. fold entry.
  destruct (Z.eq_dec SurfNum (Calc.FirstEcoSurf (snd entry))); [contradiction|reflexivity].
Qed.

(** Outside warm-up and the start of an environment, the entry block of a
    call that is not the first ever only re-arms the reset flag. *)
Lemma CalcEcoRoof_entry_plain (e : Env.t) (w : World.t) (SurfNum ConstrNum : Z) :
  World.EcoRoofbeginFlag w = false ->
  Driver.BeginEnvrnFlag (Env.driver e) = false ->
  Driver.WarmupFlag (Env.driver e) = false ->
  CalcEcoRoof_entry e w SurfNum ConstrNum
  = (World.water w, World.Tfold w, World.Tgold w, Calc_rearmed (World.calc w)).
Proof.
  intros Hb He Hw. unfold CalcEcoRoof_entry, calc_resets, Calc_rearmed.
  rewrite Hb, He, Hw. reflexivity.
Qed.

Lemma CalcEcoRoof_entry_FirstEcoSurf (e : Env.t) (w : World.t) (SurfNum ConstrNum : Z) :
  World.EcoRoofbeginFlag w = false ->
  Calc.FirstEcoSurf (snd (CalcEcoRoof_entry e w SurfNum ConstrNum))
  = Calc.FirstEcoSurf (World.calc w).
Proof. intros Hb. unfold CalcEcoRoof_entry. rewrite Hb. reflexivity. Qed.

Lemma first_call_reference_surface :
  Calc.FirstEcoSurf (World.calc after_first_call) = 1%Z.
Proof.
  unfold after_first_call, CalcEcoRoof.
  destruct (Z.eq_dec 1 _) as [_|Hn]; [reflexivity|].
  exfalso. apply Hn. reflexivity.
Qed.

Lemma first_call_clears_begin_flag : World.EcoRoofbeginFlag after_first_call = false.
Proof.
  unfold after_first_call, CalcEcoRoof. destruct (Z.eq_dec 1 _); reflexivity.
Qed.

Lemma first_call_moisture : Calc.Moisture (World.calc after_first_call) = 0.100001.
Proof.
  unfold after_first_call.
  rewrite CalcEcoRoof_reference_moisture by reflexivity.
  exact (warmup_first_step_moisture _).
Qed.

Lemma second_call_moisture : Calc.Moisture (World.calc after_second_call) = 0.1.
Proof.
  unfold after_second_call. rewrite CalcEcoRoof_other_surface.
  - cbn [fst World.calc]. unfold CalcEcoRoof_entry.
    rewrite first_call_clears_begin_flag.
    unfold calc_resets. cbn [snd Calc.Moisture]. reflexivity.
  - rewrite CalcEcoRoof_entry_FirstEcoSurf by exact first_call_clears_begin_flag.
    rewrite first_call_reference_surface. lia.
Qed.

(** C3, as stated, fails.  During warm-up of the sample roof a call of
    [CalcEcoRoof] for the reference surface 1 is followed, in the same time
    step, by a call for surface 2.  The first call leaves the near-surface
    moisture at 0.100001; the second, although made for another surface,
    sets it back to 0.1. *)
Lemma CalcEcoRoof_other_surface_resets_moisture :
  Calc.FirstEcoSurf (World.calc after_first_call) = 1%Z
  /\ 2%Z <> Calc.FirstEcoSurf (World.calc after_first_call)
  /\ Calc.Moisture (World.calc after_first_call) = 0.100001
  /\ Calc.Moisture (World.calc after_second_call) = 0.1
  /\ Calc.Moisture (World.calc after_second_call)
     <> Calc.Moisture (World.calc after_first_call).
Proof.
  rewrite first_call_reference_surface, first_call_moisture, second_call_moisture.
  repeat split; try lia; lra.
Qed.
Lemma set_TH_same (TH : Z -> R) (SurfNum : Z) (v : R) : set_TH TH SurfNum v SurfNum = v.
Proof. unfold set_TH. destruct (Z.eq_dec SurfNum SurfNum); [reflexivity|contradiction]. Qed.

(** For a surface other than the reference one the block of lines 423-457
    does nothing. *)
Lemma green_gate_other_surface (e : Env.t) (fr : Frame.t) (w : World.t) (wt : Water.t)
    (g : Green.t) (SurfNum ConstrNum : Z) (RS tau_sw : R) :
  SurfNum <> Green.FirstEcoSurf g ->
  green_gate e fr w wt g SurfNum ConstrNum RS tau_sw
  = {| Gate.soil := World.soil w;
       Gate.water := wt;
       Gate.materials := World.materials w;
       Gate.Irrigation_ActualAmount := World.Irrigation_ActualAmount w;
       Gate.Moisture := Green.Moisture g;
       Gate.MeanRootMoisture := Green.MeanRootMoisture g;
       Gate.Alphag := Green.Alphag g;
       Gate.Alphag_UnUsed := Green.Alphag_UnUsed g;
       Gate.frame := fr |}.
Proof.
  intros H. unfold green_gate.
  destruct (Z.eq_dec SurfNum (Green.FirstEcoSurf g)); [contradiction|reflexivity].
Qed.

Lemma GreenRoof_entry_FirstEcoSurf (e : Env.t) (w : World.t) (SurfNum ConstrNum : Z) :
  World.EcoRoofbeginFlag w = false ->
  Green.FirstEcoSurf (snd (GreenRoof_entry e w SurfNum ConstrNum))
  = Green.FirstEcoSurf (World.green w).
Proof.
  intros Hb. unfold GreenRoof_entry. rewrite Hb.
  unfold green_reset_environment, green_reset_moisture.
  destruct (Driver.BeginEnvrnFlag (Env.driver e) || Driver.WarmupFlag (Env.driver e));
    reflexivity.
Qed.

(** C3, amended.  After the first entry, a call for a surface other than
    the reference surface never runs the moisture model: the soil-model
    statics, the material records and the irrigation amount are left as
    they were, in both routines.  In [CalcEcoRoof] such a call runs no
    solve either and returns the stored ground temperature [Tgold] in
    [TempExt] and [TH].  The moisture state is left alone only outside
    warm-up and the start of an environment, where the water totals, the
    stored temperatures and every static but the re-armed reset flag are
    unchanged; during warm-up or at the start of an environment the
    moisture, the root-zone moisture and the soil albedo are set back to
    the material's initial values, whatever the surface.  For
    [GreenRoof_with_PlantCoverage] the statement is about the moisture
    model and the moisture state only; [TempExt] is what was stored in
    [TH]. *)
Theorem other_surface_call_leaves_soil_model_idle
    (e : Env.t) (fr : Frame.t) (w : World.t) (SurfNum ZoneNum ConstrNum : Z) :
  World.EcoRoofbeginFlag w = false ->
  let m := World.materials w (storm_construction e SurfNum ConstrNum) in
  let soak := Driver.BeginEnvrnFlag (Env.driver e) || Driver.WarmupFlag (Env.driver e) in
  (SurfNum <> Calc.FirstEcoSurf (World.calc w) ->
   let r := CalcEcoRoof e w SurfNum ZoneNum ConstrNum in
   let w' := fst (fst r) in
   World.soil w' = World.soil w
   /\ World.materials w' = World.materials w
   /\ World.Irrigation_ActualAmount w' = World.Irrigation_ActualAmount w
   /\ World.green w' = World.green w
   /\ snd r = World.Tgold w'
   /\ World.TH w' = set_TH (World.TH w) SurfNum (World.Tgold w')
   /\ (soak = false ->
       World.water w' = World.water w
       /\ World.Tfold w' = World.Tfold w
       /\ World.Tgold w' = World.Tgold w
       /\ World.calc w' = Calc_rearmed (World.calc w))
   /\ (soak = true ->
       Calc.Moisture (World.calc w') = Material.InitMoisture m
       /\ Calc.MeanRootMoisture (World.calc w') = Material.InitMoisture m
       /\ Calc.Alphag (World.calc w') = 1.0 - Material.AbsorpSolar m))
  /\
  (SurfNum <> Green.FirstEcoSurf (World.green w) ->
   let r := GreenRoof_with_PlantCoverage e fr w SurfNum ZoneNum ConstrNum in
   let w' := fst (fst r) in
   World.soil w' = World.soil w
   /\ World.materials w' = World.materials w
   /\ World.Irrigation_ActualAmount w' = World.Irrigation_ActualAmount w
   /\ World.calc w' = World.calc w
   /\ snd r = World.TH w' SurfNum
   /\ (soak = false ->
       World.water w' = World.water w
       /\ Green.Moisture (World.green w') = Green.Moisture (World.green w)
       /\ Green.MeanRootMoisture (World.green w') = Green.MeanRootMoisture (World.green w)
       /\ Green.Alphag (World.green w') = Green.Alphag (World.green w)
       /\ Green.Alphag_UnUsed (World.green w') = Green.Alphag_UnUsed (World.green w))
   /\ (soak = true ->
       Green.Moisture (World.green w') = Material.InitMoisture m
       /\ Green.MeanRootMoisture (World.green w') = Material.InitMoisture m
       /\ Green.Alphag (World.green w') = 1.0 - Material.AbsorpSolar m)).
Proof.
  intros Hb m soak. split.
  - intros Hs r w'. subst r w'.
    rewrite CalcEcoRoof_other_surface
      by (rewrite CalcEcoRoof_entry_FirstEcoSurf by exact Hb; exact Hs).
    cbn [fst snd World.soil World.materials World.Irrigation_ActualAmount World.green
         World.Tgold World.TH World.water World.Tfold World.calc].
    repeat (split; [reflexivity|]). split.
    + intros Hk. apply orb_false_elim in Hk as [He Hw].
      rewrite CalcEcoRoof_entry_plain by assumption. cbn [fst snd]. repeat split.
    + intros Hk. unfold CalcEcoRoof_entry, calc_resets. rewrite Hb.
      cbn [snd Calc.Moisture Calc.MeanRootMoisture Calc.Alphag].
      fold soak. rewrite Hk. repeat split.
  - intros Hs r w'. subst r w'. unfold GreenRoof_with_PlantCoverage.
    rewrite green_gate_other_surface
      by (rewrite GreenRoof_entry_FirstEcoSurf by exact Hb; exact Hs).
    cbn [fst snd World.soil World.materials World.Irrigation_ActualAmount World.green
         World.calc World.TH World.water Gate.soil Gate.materials Gate.water
         Gate.Irrigation_ActualAmount Gate.Moisture Gate.MeanRootMoisture Gate.Alphag
         Gate.Alphag_UnUsed Green.Moisture Green.MeanRootMoisture Green.Alphag
         Green.Alphag_UnUsed].
    repeat (split; [reflexivity|]). split; [|split].
    + rewrite set_TH_same. reflexivity.
    + intros Hk. unfold GreenRoof_entry, green_reset_moisture, green_reset_environment.
      rewrite Hb. fold soak. rewrite Hk.
      apply orb_false_elim in Hk as [He Hw]. rewrite He.
      cbn. repeat split.
    + intros Hk. unfold GreenRoof_entry, green_reset_moisture, green_reset_environment.
      rewrite Hb. fold soak. rewrite Hk. cbn. repeat split.
Qed.

(** The amended statement at the state the sample roof is in after its
    first warm-up call. *)
Lemma other_surface_call_sample :
  World.EcoRoofbeginFlag after_first_call = false
  /\ (2%Z <> Calc.FirstEcoSurf (World.calc after_first_call) ->
      World.soil after_second_call = World.soil after_first_call
      /\ World.materials after_second_call = World.materials after_first_call
      /\ snd (CalcEcoRoof warm_env after_first_call 2 1 1) = World.Tgold after_second_call).
Proof.
  split; [exact first_call_clears_begin_flag|]. intros Hs.
  destruct (other_surface_call_leaves_soil_model_idle warm_env sample_frame
              after_first_call 2 1 1 first_call_clears_begin_flag) as [HA _].
  destruct (HA Hs) as (H1 & H2 & _ & _ & H5 & _).
  unfold after_second_call.
  split; [exact H1|]. split; [exact H2|exact H5].
Defined.

(** ** Plant coverage 0 and 1 *)

Lemma clamp_flux_zero : clamp_flux 0.0 = 0.0.
Proof. unfold clamp_flux. destruct (Rlt_dec 0.0 0.0); [lra|reflexivity]. Qed.

Section Coverage.
Variables (e : Env.t) (SurfNum : Z) (p : Green.Properties) (fr : Frame.t).
Variables f_VWC RS tau_sw tau_lw EpsilonOne h_por Qsoilpart1 Qsoilpart2 Alphag : R.
Variables (t0 : Green.Temperatures) (x0 : Green.Fluxes) (r0 : Green.Reports).

Let s : Solved.t :=
  green_solve e SurfNum p fr f_VWC RS tau_sw tau_lw EpsilonOne h_por
    Qsoilpart1 Qsoilpart2 Alphag t0 x0 r0.
Let rep : Green.Reports := green_reports p Qsoilpart1 Qsoilpart2 s r0.

(** Without plants the first two solves are skipped. *)
Lemma green_solve_without_plants :
  Green.sigma_f p = 0.0 ->
  Green.T_plant (Solved.temps s) = Green.T_plant t0
  /\ Green.T_soil (Solved.temps s) = Green.T_soil t0
  /\ Green.Vfluxf (Solved.fluxes s) = 0.0
  /\ Green.Tsoil_avg (Solved.temps s) = Green.T_bare_soil (Solved.temps s).
Proof.
  intros H. subst s. unfold green_solve. rewrite H.
  destruct (Req_dec_T 0.0 0.0) as [_|Hn]; [|contradiction Hn; reflexivity].
  cbn [Solved.temps Solved.fluxes Green.T_plant Green.T_soil Green.T_bare_soil
       Green.Tsoil_avg Green.Vfluxf].
  rewrite clamp_flux_zero. repeat split. lra.
Qed.

Lemma green_reports_without_plants :
  Green.sigma_f p = 0.0 ->
  Green.T_plant_Rep rep = 0.0
  /\ Green.Qconv_p_Rep rep = 0.0
  /\ Green.Q_ET_p_Rep rep = 0.0.
Proof.
  intros H. subst rep. unfold green_reports. rewrite H.
  destruct (Req_dec_T 0.0 0.0) as [_|Hn]; [|contradiction Hn; reflexivity].
  cbn [Green.T_plant_Rep Green.Qconv_p_Rep Green.Q_ET_p_Rep]. repeat split.
Qed.

(** Under full cover the third solve is skipped. *)
Lemma green_solve_full_cover :
  Green.sigma_f p = 1 ->
  Green.T_bare_soil (Solved.temps s) = Green.T_bare_soil t0
  /\ Green.Tsoil_avg (Solved.temps s) = Green.T_soil (Solved.temps s)
  /\ Green.Q_E_avg (Solved.fluxes s) = Green.Q_E_s (Solved.fluxes s).
Proof.
  intros H. subst s. unfold green_solve. rewrite H.
  destruct (Req_dec_T 1 1) as [_|Hn]; [|contradiction Hn; reflexivity].
  cbn [Solved.temps Solved.fluxes Green.T_plant Green.T_soil Green.T_bare_soil
       Green.Tsoil_avg Green.Q_E_avg Green.Q_E_s].
  split; [reflexivity|]. split; lra.
Qed.

Lemma green_reports_full_cover :
  Green.sigma_f p = 1 ->
  Green.Qconv_s_avg_Rep rep = Green.Qconv_s_Rep rep
  /\ Green.Q_E_avg_Rep rep = Green.Q_E_s_Rep rep
  /\ Green.Q_sol_s_avg_Rep rep = Green.Q_sol_soil_Rep rep
  /\ Green.Q_IR_s_avg_Rep rep = Green.Q_IR_s_Rep rep.
Proof.
  intros H. subst rep. unfold green_reports. rewrite H.
  cbn [Green.Qconv_s_avg_Rep Green.Q_E_avg_Rep Green.Q_sol_s_avg_Rep
       Green.Q_IR_s_avg_Rep Green.Qconv_s_Rep Green.Q_E_s_Rep Green.Q_sol_soil_Rep
       Green.Q_IR_s_Rep].
  generalize (Solved.Qconv_s_Rep s) (Solved.Qconv_bare_s_Rep s)
    (Solved.Q_E_s_Rep s) (Solved.Q_E_bare_s_Rep s)
    (Solved.Q_sol_soil_Rep s) (Solved.Q_sol_bare_s_Rep s)
    (Solved.Q_IR_s_Rep s) (Solved.Q_IR_bare_s_Rep s).
  intros. repeat split; lra.
Qed.

End Coverage.


(** ** The scalar solves of [GreenRoof_with_PlantCoverage] *)

Section NewtonFacts.

Variable Func : R -> R.
Variable Func_prim : R -> R.

Lemma store_same (a : Z -> R) (i : Z) (v : R) : store a i v i = v.
Proof. unfold store. destruct (Z.eq_dec i i); [reflexivity|contradiction]. Qed.

Lemma store_before (a : Z -> R) (i : Z) (v : R) : store a (i + 1) v (i + 1 - 1) = a i.
Proof. unfold store. destruct (Z.eq_dec (i + 1 - 1) (i + 1)); [lia|f_equal; lia]. Qed.

Lemma newton_iterate_shift (k : nat) (x : R) : newton_iterate Func Func_prim (S k) x = newton_iterate Func Func_prim k (newton_step Func Func_prim x).
Proof. induction k as [|k IH]; [reflexivity|]. cbn [newton_iterate] in *. now rewrite IH. Qed.

Lemma far_apart_shift (k : nat) (x : R) :
  far_apart Func Func_prim (S k) x <-> far_apart Func Func_prim k (newton_step Func Func_prim x).
Proof. unfold far_apart. now rewrite !newton_iterate_shift. Qed.

(** The three ways a pass of the Newton loop ends. *)
Lemma newton_last_pass (iter1 : Z) (x : R) (Solution1 Func1 : Z -> R) :
  (iter1 + 1 >= 100)%Z ->
  newton Func Func_prim iter1 x Solution1 Func1
  = if sign_change (Func x) (Func1 iter1) then
      Bisect.T_new
        (bisection Func (Func x) (Func1 iter1) x (Solution1 iter1)
           (0.5 * (x + Solution1 iter1)) (newton_step Func Func_prim x))
    else newton_step Func Func_prim x.
Proof.
  intros H. rewrite newton_equation_1. unfold newton_unfold_clause_1.
  destruct (Z_ge_dec (iter1 + 1) 100); [|contradiction].
  cbv zeta. rewrite !store_same, !store_before. reflexivity.
Qed.

Lemma newton_next_pass (iter1 : Z) (x : R) (Solution1 Func1 : Z -> R) :
  (iter1 + 1 < 100)%Z ->
  Rabs (newton_step Func Func_prim x - x) > 0.0001 ->
  newton Func Func_prim iter1 x Solution1 Func1
  = newton Func Func_prim (iter1 + 1) (newton_step Func Func_prim x)
      (store Solution1 (iter1 + 1) x) (store Func1 (iter1 + 1) (Func x)).
Proof.
  intros H Hfar. rewrite newton_equation_1. unfold newton_unfold_clause_1.
  destruct (Z_ge_dec (iter1 + 1) 100); [lia|].
  unfold newton_unfold_clause_1_clause_2.
  destruct (Rgt_dec _ _) as [_|Hn]; [reflexivity|].
  exfalso. apply Hn. exact Hfar.
Qed.

Lemma newton_converged (iter1 : Z) (x : R) (Solution1 Func1 : Z -> R) :
  (iter1 + 1 < 100)%Z ->
  ~ Rabs (newton_step Func Func_prim x - x) > 0.0001 ->
  newton Func Func_prim iter1 x Solution1 Func1 = newton_step Func Func_prim x.
Proof.
  intros H Hnear. rewrite newton_equation_1. unfold newton_unfold_clause_1.
  destruct (Z_ge_dec (iter1 + 1) 100); [lia|].
  unfold newton_unfold_clause_1_clause_2.
  destruct (Rgt_dec _ _) as [Hf|_]; [|reflexivity].
  exfalso. apply Hnear. exact Hf.
Qed.

(** Leaving the loop by the tolerance test at pass [n + 1]. *)
Lemma newton_converges_at (n : nat) :
  forall (iter1 : Z) (x : R) (Solution1 Func1 : Z -> R),
  (iter1 + 1 + Z.of_nat n < 100)%Z ->
  (forall j, (j < n)%nat -> far_apart Func Func_prim j x) ->
  ~ far_apart Func Func_prim n x ->
  newton Func Func_prim iter1 x Solution1 Func1 = newton_iterate Func Func_prim (S n) x.
Proof.
  induction n as [|n IH]; intros iter1 x Solution1 Func1 Hlt Hfar Hnear.
  - apply newton_converged; [lia|exact Hnear].
  - rewrite newton_next_pass; [|lia|exact (Hfar 0%nat ltac:(lia))].
    rewrite IH.
    + symmetry. apply newton_iterate_shift.
    + lia.
    + intros j Hj. apply far_apart_shift. apply Hfar. lia.
    + intros Hc. apply Hnear. apply far_apart_shift. exact Hc.
Qed.

(** Reaching the pass that brings the counter to 100 after [n + 2] passes. *)
Lemma newton_reaches_hundred (n : nat) :
  forall (iter1 : Z) (x : R) (Solution1 Func1 : Z -> R),
  (iter1 + 2 + Z.of_nat n = 100)%Z ->
  (forall j, (j <= n)%nat -> far_apart Func Func_prim j x) ->
  newton Func Func_prim iter1 x Solution1 Func1
  = hundredth_pass Func Func_prim (newton_iterate Func Func_prim n x) (newton_iterate Func Func_prim (S n) x).
Proof.
  induction n as [|n IH]; intros iter1 x Solution1 Func1 Heq Hfar.
  - rewrite newton_next_pass; [|lia|exact (Hfar 0%nat ltac:(lia))].
    rewrite newton_last_pass by lia.
    rewrite !store_same. reflexivity.
  - rewrite newton_next_pass; [|lia|exact (Hfar 0%nat ltac:(lia))].
    rewrite IH.
    + rewrite <- !newton_iterate_shift. reflexivity.
    + lia.
    + intros j Hj. apply far_apart_shift. apply Hfar. lia.
Qed.

End NewtonFacts.

Section BisectionFacts.

Variable Func : R -> R.
Variables f_iter f_prev s_iter s_prev : R.

(** A pass from a centred state either moves an end of the bracket to the
    middle, halving the bracket and leaving a centred state whose gap is
    half the new width, or moves nothing and leaves a zero gap. *)
Lemma bisect_pass_centred (b : Bisect.t) :
  bisect_centred b ->
  let b' := bisect_pass Func f_iter f_prev s_iter s_prev b in
  (bisect_centred b'
   /\ bisect_width b' = 0.5 * bisect_width b
   /\ bisect_gap b' = 0.5 * bisect_width b')
  \/ bisect_gap b' = 0.
Proof.
  intros [Hi Hc] b'. subst b'. unfold bisect_pass.
  destruct (Z.eqb_spec (Bisect.iter_Mid b + 1) 1) as [Heq|_]; [lia|].
  destruct (Z.gtb_spec (Bisect.iter_Mid b + 1) 1) as [_|Hle]; [|lia].
  destruct (sign_change _ (Bisect.Func_1 b));
    [|destruct (sign_change _ (Bisect.Func_2 b))].
  - left. unfold bisect_centred, bisect_width, bisect_gap.
    cbn [Bisect.iter_Mid Bisect.T_new Bisect.Sol_1 Bisect.Sol_2 Bisect.MidPoint].
    rewrite Hc. split; [split; [lia|lra]|].
    split.
    + replace (Bisect.Sol_1 b - 0.5 * (Bisect.Sol_1 b + Bisect.Sol_2 b))
        with (0.5 * (Bisect.Sol_1 b - Bisect.Sol_2 b)) by lra.
      rewrite Rabs_mult, (Rabs_pos_eq 0.5) by lra. reflexivity.
    + replace (0.5 * (0.5 * (Bisect.Sol_1 b + Bisect.Sol_2 b) + Bisect.Sol_1 b)
               - 0.5 * (Bisect.Sol_1 b + Bisect.Sol_2 b))
        with (0.5 * (Bisect.Sol_1 b - 0.5 * (Bisect.Sol_1 b + Bisect.Sol_2 b))) by lra.
      rewrite Rabs_mult, (Rabs_pos_eq 0.5) by lra. reflexivity.
  - left. unfold bisect_centred, bisect_width, bisect_gap.
    cbn [Bisect.iter_Mid Bisect.T_new Bisect.Sol_1 Bisect.Sol_2 Bisect.MidPoint].
    rewrite Hc. split; [split; [lia|lra]|].
    split.
    + replace (0.5 * (Bisect.Sol_1 b + Bisect.Sol_2 b) - Bisect.Sol_2 b)
        with (0.5 * (Bisect.Sol_1 b - Bisect.Sol_2 b)) by lra.
      rewrite Rabs_mult, (Rabs_pos_eq 0.5) by lra. reflexivity.
    + replace (0.5 * (0.5 * (Bisect.Sol_1 b + Bisect.Sol_2 b) + Bisect.Sol_2 b)
               - 0.5 * (Bisect.Sol_1 b + Bisect.Sol_2 b))
        with (- (0.5 * (0.5 * (Bisect.Sol_1 b + Bisect.Sol_2 b) - Bisect.Sol_2 b))) by lra.
      rewrite Rabs_Ropp, Rabs_mult, (Rabs_pos_eq 0.5) by lra. reflexivity.
  - right. unfold bisect_gap.
    cbn [Bisect.T_new Bisect.MidPoint].
    rewrite Rminus_diag. apply Rabs_R0.
Qed.

Lemma bisect_loop_unfold (passes : nat) (b : Bisect.t) :
  bisect_loop Func passes f_iter f_prev s_iter s_prev b
  = let b' := bisect_pass Func f_iter f_prev s_iter s_prev b in
    if Rgtb (bisect_gap b') 0.0001 then
      match passes with
      | S k => bisect_loop Func k f_iter f_prev s_iter s_prev b'
      | O => b'
      end
    else b'.
Proof. destruct passes; reflexivity. Qed.

(** From a centred state whose bracket is narrow enough for the passes at
    hand, the loop leaves by its own test. *)
Lemma bisect_loop_centred (passes : nat) :
  forall b : Bisect.t,
  bisect_centred b ->
  bisect_width b <= 0.0001 * 2 ^ (S passes) ->
  bisect_gap (bisect_loop Func passes f_iter f_prev s_iter s_prev b) <= 0.0001.
Proof.
  induction passes as [|k IH]; intros b Hc Hw; rewrite bisect_loop_unfold; cbv zeta;
    destruct (bisect_pass_centred b Hc) as [(Hc' & Hw' & Hg')|Hz];
    unfold Rgtb; destruct (Rgt_dec _ _) as [Hgt|Hle]; try (apply Rnot_gt_le; exact Hle).
  - exfalso. rewrite Hg', Hw' in Hgt. cbn [pow] in Hw. lra.
  - exfalso. rewrite Hz in Hgt. lra.
  - apply IH; [exact Hc'|]. rewrite Hw'.
    change (2 ^ S (S k)) with (2 * 2 ^ S k) in Hw. lra.
  - exfalso. rewrite Hz in Hgt. lra.
Qed.

End BisectionFacts.

Lemma INR_le_pow_2 (n : nat) : INR n <= 2 ^ n.
Proof.
  induction n as [|n IH]; [cbn; lra|].
  rewrite S_INR. cbn [pow].
  assert (1 <= 2 ^ n) by (apply pow_R1_Rle; lra). lra.
Qed.

(** A bracket [D] wide is narrower than the tolerance times two to the
    number of passes the budget grants beyond the first two. *)
Lemma budget_covers (D : R) :
  0 <= D -> D <= 0.0001 * 2 ^ Z.to_nat (up (D / 0.0001)).
Proof.
  intros HD.
  destruct (archimed (D / 0.0001)) as [Hup _].
  assert (Hq : 0 <= D / 0.0001) by (apply Rmult_le_pos; lra).
  assert (Hz : (0 <= up (D / 0.0001))%Z) by (apply le_IZR; lra).
  pose proof (INR_le_pow_2 (Z.to_nat (up (D / 0.0001)))) as Hp.
  rewrite INR_IZR_INZ, Z2Nat.id in Hp by exact Hz.
  assert (D = 0.0001 * (D / 0.0001)) by (field; lra).
  lra.
Qed.

Section BisectionBudget.

Variable Func : R -> R.
Variables f_iter f_prev s_iter s_prev : R.

(** The first pass loads the bracket; it either moves one end to the
    midpoint it was given, leaving a centred state, or moves nothing. *)
Lemma bisect_pass_first (b : Bisect.t) :
  Bisect.iter_Mid b = 0%Z ->
  let b' := bisect_pass Func f_iter f_prev s_iter s_prev b in
  (bisect_centred b'
   /\ (bisect_width b' = Rabs (Bisect.MidPoint b - s_iter)
       \/ bisect_width b' = Rabs (Bisect.MidPoint b - s_prev)))
  \/ (Bisect.iter_Mid b' = 1%Z
      /\ Bisect.Sol_1 b' = s_iter /\ Bisect.Sol_2 b' = s_prev
      /\ Bisect.T_new b' = Bisect.T_new b).
Proof.
  intros H0 b'. subst b'. unfold bisect_pass. rewrite H0.
  change (0 + 1 =? 1)%Z with true. change (0 + 1 >? 1)%Z with false. cbv iota.
  destruct (sign_change _ f_iter); [|destruct (sign_change _ f_prev)].
  - left. unfold bisect_centred, bisect_width.
    cbn [Bisect.iter_Mid Bisect.T_new Bisect.Sol_1 Bisect.Sol_2].
    split; [split; [lia|lra]|]. left. apply Rabs_minus_sym.
  - left. unfold bisect_centred, bisect_width.
    cbn [Bisect.iter_Mid Bisect.T_new Bisect.Sol_1 Bisect.Sol_2].
    split; [split; [lia|lra]|]. right. reflexivity.
  - right. cbn [Bisect.iter_Mid Bisect.T_new Bisect.Sol_1 Bisect.Sol_2].
    repeat split.
Qed.

(** A later pass starts from the pending estimate; it either moves one end
    of the bracket there, leaving a centred state, or leaves a zero gap. *)
Lemma bisect_pass_later (b : Bisect.t) :
  (Bisect.iter_Mid b >= 1)%Z ->
  let b' := bisect_pass Func f_iter f_prev s_iter s_prev b in
  (bisect_centred b'
   /\ (bisect_width b' = Rabs (Bisect.T_new b - Bisect.Sol_1 b)
       \/ bisect_width b' = Rabs (Bisect.T_new b - Bisect.Sol_2 b)))
  \/ bisect_gap b' = 0.
Proof.
  intros Hi b'. subst b'. unfold bisect_pass.
  destruct (Z.eqb_spec (Bisect.iter_Mid b + 1) 1) as [Heq|_]; [lia|].
  destruct (Z.gtb_spec (Bisect.iter_Mid b + 1) 1) as [_|Hle]; [|lia].
  destruct (sign_change _ (Bisect.Func_1 b));
    [|destruct (sign_change _ (Bisect.Func_2 b))].
  - left. unfold bisect_centred, bisect_width.
    cbn [Bisect.iter_Mid Bisect.T_new Bisect.Sol_1 Bisect.Sol_2].
    split; [split; [lia|lra]|]. left. apply Rabs_minus_sym.
  - left. unfold bisect_centred, bisect_width.
    cbn [Bisect.iter_Mid Bisect.T_new Bisect.Sol_1 Bisect.Sol_2].
    split; [split; [lia|lra]|]. right. reflexivity.
  - right. unfold bisect_gap. cbn [Bisect.T_new Bisect.MidPoint].
    rewrite Rminus_diag. apply Rabs_R0.
Qed.

(** The bisection always leaves its loop by the loop's own test: the
    budget of passes is never used up, and the estimate returned is within
    the tolerance of the midpoint tried last. *)
Lemma bisection_budget_suffices (MidPoint T_new : R) :
  bisect_gap (bisection Func f_iter f_prev s_iter s_prev MidPoint T_new) <= 0.0001.
Proof.
  unfold bisection.
  set (D := Rmax (Rabs (MidPoint - s_iter))
              (Rmax (Rabs (MidPoint - s_prev))
                 (Rmax (Rabs (T_new - s_iter)) (Rabs (T_new - s_prev))))).
  assert (HD1 : Rabs (MidPoint - s_iter) <= D) by apply Rmax_l.
  assert (HD2 : Rabs (MidPoint - s_prev) <= D)
    by (eapply Rle_trans; [apply Rmax_l|apply Rmax_r]).
  assert (HD3 : Rabs (T_new - s_iter) <= D)
    by (eapply Rle_trans; [apply Rmax_l|];
        eapply Rle_trans; [apply Rmax_r|apply Rmax_r]).
  assert (HD4 : Rabs (T_new - s_prev) <= D)
    by (eapply Rle_trans; [apply Rmax_r|];
        eapply Rle_trans; [apply Rmax_r|apply Rmax_r]).
  assert (HD0 : 0 <= D) by (eapply Rle_trans; [apply Rabs_pos|exact HD1]).
  pose proof (budget_covers D HD0) as HK.
  unfold bisection_budget. fold D.
  set (K := Z.to_nat (up (D / 0.0001))) in *.
  change (2 + K)%nat with (S (S K)).
  set (b0 := bisection_entry f_iter f_prev s_iter s_prev MidPoint T_new).
  assert (HK1 : D <= 0.0001 * 2 ^ S K) by (cbn [pow]; assert (0 < 2 ^ K) by (apply pow_lt; lra); lra).
  assert (HK2 : D <= 0.0001 * 2 ^ S (S K))
    by (cbn [pow] in *; assert (0 < 2 ^ K) by (apply pow_lt; lra); lra).
  rewrite bisect_loop_unfold. cbv zeta.
  unfold Rgtb at 1. destruct (Rgt_dec _ _) as [Hgt|Hle]; [|apply Rnot_gt_le; exact Hle].
  destruct (bisect_pass_first b0 eq_refl) as [(Hc & Hw)|(Hi & Hs1 & Hs2 & Ht)].
  - apply bisect_loop_centred; [exact Hc|].
    change (Bisect.MidPoint b0) with MidPoint in Hw.
    destruct Hw as [Hw|Hw]; rewrite Hw; lra.
  - rewrite bisect_loop_unfold. cbv zeta.
    unfold Rgtb at 1. destruct (Rgt_dec _ _) as [Hgt'|Hle']; [|apply Rnot_gt_le; exact Hle'].
    destruct (bisect_pass_later (bisect_pass Func f_iter f_prev s_iter s_prev b0))
      as [(Hc & Hw)|Hz]; [lia| |].
    + apply bisect_loop_centred; [exact Hc|].
      rewrite Hs1, Hs2, Ht in Hw. change (Bisect.T_new b0) with T_new in Hw.
      destruct Hw as [Hw|Hw]; rewrite Hw; lra.
    + exfalso. rewrite Hz in Hgt'. lra.
Qed.

(** Once the loop has left by its own test, more passes change nothing. *)
Lemma bisect_loop_settled (passes : nat) :
  forall (b : Bisect.t) (more : nat),
  bisect_gap (bisect_loop Func passes f_iter f_prev s_iter s_prev b) <= 0.0001 ->
  bisect_loop Func (passes + more) f_iter f_prev s_iter s_prev b
  = bisect_loop Func passes f_iter f_prev s_iter s_prev b.
Proof.
  induction passes as [|k IH]; intros b more H;
    rewrite bisect_loop_unfold in H; rewrite !bisect_loop_unfold; cbv zeta in *;
    unfold Rgtb in *; destruct (Rgt_dec _ _) as [Hgt|Hle]; try reflexivity.
  - exfalso. lra.
  - cbn [Nat.add]. apply IH. exact H.
Qed.

(** The budget is no limit: any larger one gives the same run. *)
Lemma bisection_budget_irrelevant (MidPoint T_new : R) (more : nat) :
  bisect_loop Func (bisection_budget s_iter s_prev MidPoint T_new + more)
    f_iter f_prev s_iter s_prev
    (bisection_entry f_iter f_prev s_iter s_prev MidPoint T_new)
  = bisection Func f_iter f_prev s_iter s_prev MidPoint T_new.
Proof.
  unfold bisection. apply bisect_loop_settled.
  exact (bisection_budget_suffices MidPoint T_new).
Qed.

End BisectionBudget.

Section SolveOutcome.

Variable Func : R -> R.
Variable Func_prim : R -> R.

(** Either some pass before the hundredth meets the tolerance, or none
    does. *)
Lemma first_close_pass (x : R) (n : nat) :
  (exists k, (k < n)%nat
             /\ (forall j, (j < k)%nat -> far_apart Func Func_prim j x)
             /\ ~ far_apart Func Func_prim k x)
  \/ (forall j, (j < n)%nat -> far_apart Func Func_prim j x).
Proof.
  induction n as [|n [(k & Hk & Hfar & Hnear)|Hall]].
  - right. intros j Hj. lia.
  - left. exists k. split; [lia|]. split; assumption.
  - destruct (Rgt_dec (Rabs (newton_iterate Func Func_prim (S n) x
                             - newton_iterate Func Func_prim n x)) 0.0001) as [Hf|Hn].
    + right. intros j Hj. destruct (Nat.eq_dec j n) as [->|Hne]; [exact Hf|].
      apply Hall. lia.
    + left. exists n. split; [lia|]. split; [exact Hall|exact Hn].
Qed.

End SolveOutcome.

(** The three solves of [GreenRoof_with_PlantCoverage] are runs of the
    same loop on the plant, the vegetated-soil and the bare-soil balance,
    in this order, each from the temperature carried over. *)
Lemma green_solve_temperatures
    (e : Env.t) (SurfNum : Z) (p : Green.Properties) (fr : Frame.t)
    (f_VWC RS tau_sw tau_lw EpsilonOne h_por Qsoilpart1 Qsoilpart2 Alphag : R)
    (t0 : Green.Temperatures) (x0 : Green.Fluxes) (r0 : Green.Reports) :
  let t :=
    Solved.temps
      (green_solve e SurfNum p fr f_VWC RS tau_sw tau_lw EpsilonOne h_por
         Qsoilpart1 Qsoilpart2 Alphag t0 x0 r0) in
  (Green.sigma_f p <> 0.0 ->
   Green.T_plant t
   = root_find
       (Func_p e SurfNum p fr tau_lw EpsilonOne f_VWC (Green.T_soil t0))
       (Func_prim_p e SurfNum p fr tau_lw EpsilonOne f_VWC (Green.T_soil t0))
       (Green.T_plant t0) (Frame.Solution1 fr) (Frame.Func1 fr)
   /\ Green.T_soil t
      = root_find
          (Func_s e SurfNum p fr tau_lw EpsilonOne h_por Qsoilpart1 Qsoilpart2
             (Green.T_plant t) (Green.T_bare_soil t0))
          (Func_prim_s e SurfNum p fr tau_lw EpsilonOne h_por Qsoilpart2 (Green.T_plant t))
          (Green.T_soil t0) (Frame.Solution2 fr) (Frame.Func2 fr))
  /\ (Green.sigma_f p <> 1 ->
      Green.T_bare_soil t
      = root_find
          (Func_bare_s e SurfNum p fr Qsoilpart1 Qsoilpart2 (Green.T_soil t))
          (Func_prim_bare_s e SurfNum p fr Qsoilpart2)
          (Green.T_bare_soil t0) (Frame.Solution3 fr) (Frame.Func3 fr)).
Proof.
  intros t. subst t. unfold green_solve.
  cbn [Solved.temps Green.T_plant Green.T_soil Green.T_bare_soil].
  split; intros H.
  - destruct (Req_dec_T (Green.sigma_f p) 0.0) as [Hz|_]; [contradiction|].
    split; reflexivity.
  - destruct (Req_dec_T (Green.sigma_f p) 1) as [Hz|_]; [contradiction|].
    reflexivity.
Qed.

(** * Further properties of the code *)

(** ** The vapour-pressure and stomatal-resistance functions *)

Lemma tetens_exponent_increasing (x1 x2 : R) :
  0 < x1 + 237.3 -> x1 < x2 ->
  17.27 * x1 / (x1 + 237.3) < 17.27 * x2 / (x2 + 237.3).
Proof.
  intros H1 H12.
  assert (H2 : 0 < x2 + 237.3) by lra.
  replace (17.27 * x1 / (x1 + 237.3)) with (17.27 - 17.27 * 237.3 * / (x1 + 237.3))
    by (field; lra).
  replace (17.27 * x2 / (x2 + 237.3)) with (17.27 - 17.27 * 237.3 * / (x2 + 237.3))
    by (field; lra).
  assert (Hi : / (x2 + 237.3) < / (x1 + 237.3)).
  { apply Rinv_lt_contravar; [apply Rmult_lt_0_compat; lra|lra]. }
  lra.
Qed.

(** X1.  [e_s] is positive, takes the value 0.6108 kPa at the freezing point,
    and grows strictly with the temperature above -237.3 degrees Celsius,
    where its exponent is singular. *)
Theorem e_s_positive_increasing (T1 T2 : R) :
  KelvinConv - 237.3 < T1 -> T1 < T2 ->
  e_s KelvinConv = 0.6108 /\ 0 < e_s T1 /\ e_s T1 < e_s T2.
Proof.
  intros H1 H12. unfold e_s. split; [|split].
  - replace (KelvinConv - KelvinConv) with 0 by lra.
    unfold Rdiv. rewrite Rmult_0_r, Rmult_0_l, exp_0. lra.
  - apply Rmult_lt_0_compat; [lra|apply exp_pos].
  - apply Rmult_lt_compat_l; [lra|]. apply exp_increasing.
    apply tetens_exponent_increasing; lra.
Qed.

Lemma e_s_positive_increasing_sample :
  e_s KelvinConv = 0.6108 /\ 0 < e_s 280 /\ e_s 280 < e_s 300.
Proof. apply (e_s_positive_increasing 280 300); unfold KelvinConv; lra. Defined.

(** X2.  [f_Hum] by the vapour-pressure deficit [v = e_s T - eair]: it is 1 up
    to a deficit of 1 kPa; beyond, while [1 - 0.41 ln v] stays positive, it
    is the inverse of that number, hence above 1, and above 20 once that
    number is below 0.05 (the replacement value 0.05 is used only for a
    negative number and caps nothing); for a negative [1 - 0.41 ln v] it is
    [1/0.05]. *)
Theorem f_Hum_by_deficit (Temperature eair : R) :
  let v := e_s Temperature - eair in
  (v <= 1 -> f_Hum Temperature eair = 1)
  /\ (1 < v -> 0 < 1 - 0.41 * ln v ->
      f_Hum Temperature eair = 1 / (1 - 0.41 * ln v)
      /\ 1 < f_Hum Temperature eair
      /\ (1 - 0.41 * ln v < 0.05 -> 20 < f_Hum Temperature eair))
  /\ (1 < v -> 1 - 0.41 * ln v < 0 -> f_Hum Temperature eair = 1 / 0.05).
Proof.
  intros v. unfold f_Hum. fold v. split; [|split].
  - intros Hv. destruct (Rgt_dec v 0.0) as [Hp|Hn].
    + assert (Hl : ln v <= 0).
      { destruct (Rle_lt_or_eq_dec v 1 Hv) as [Hlt|Heq]; [|rewrite Heq, ln_1; lra].
        rewrite <- ln_1. left. apply ln_increasing; lra. }
      destruct (Rgt_dec (1.0 - 0.41 * ln v) 1.0) as [H1|H1].
      * destruct (Rlt_dec 1.0 0.0); [lra|]. lra.
      * assert (Heq : 1.0 - 0.41 * ln v = 1) by lra. rewrite Heq.
        destruct (Rlt_dec 1 0.0); [lra|]. lra.
    + destruct (Rgt_dec 1.0 1.0); [lra|]. destruct (Rlt_dec 1.0 0.0); [lra|]. lra.
  - intros Hv Hf.
    assert (Hl : 0 < ln v) by (rewrite <- ln_1; apply ln_increasing; lra).
    destruct (Rgt_dec v 0.0) as [_|Hn]; [|lra].
    destruct (Rgt_dec (1.0 - 0.41 * ln v) 1.0) as [H1|_]; [lra|].
    destruct (Rlt_dec (1.0 - 0.41 * ln v) 0.0) as [H0|_]; [lra|].
    replace (1.0 - 0.41 * ln v) with (1 - 0.41 * ln v) by lra.
    assert (HD : 0 < 1 - 0.41 * ln v < 1) by lra.
    set (D := 1 - 0.41 * ln v) in *.
    assert (Hinv : 1 < / D).
    { rewrite <- Rinv_1 at 1. apply Rinv_lt_contravar; lra. }
    split; [lra|]. split; [lra|].
    intros Hs.
    assert (H20 : / 0.05 < / D).
    { apply Rinv_lt_contravar; [apply Rmult_lt_0_compat; lra|lra]. }
    lra.
  - intros Hv Hf.
    destruct (Rgt_dec v 0.0) as [_|Hn]; [|lra].
    assert (Hl : 0 < ln v) by (rewrite <- ln_1; apply ln_increasing; lra).
    destruct (Rgt_dec (1.0 - 0.41 * ln v) 1.0) as [H1|_]; [lra|].
    destruct (Rlt_dec (1.0 - 0.41 * ln v) 0.0) as [_|H0]; [lra|lra].
Qed.

(** A deficit of [exp (0.98/0.41)] kPa, about 10.9 kPa, gives
    [1 - 0.41 ln v = 0.02] and a factor of 50. *)
Lemma f_Hum_by_deficit_sample :
  f_Hum 300 (e_s 300 - exp (0.98 / 0.41)) = 1 / (1 - 0.41 * ln (exp (0.98 / 0.41)))
  /\ 20 < f_Hum 300 (e_s 300 - exp (0.98 / 0.41)).
Proof.
  destruct (f_Hum_by_deficit 300 (e_s 300 - exp (0.98 / 0.41))) as (_ & H & _).
  cbv zeta in H.
  replace (e_s 300 - (e_s 300 - exp (0.98 / 0.41))) with (exp (0.98 / 0.41)) in H by lra.
  assert (H1 : 1 < exp (0.98 / 0.41)).
  { rewrite <- exp_0. apply exp_increasing. lra. }
  assert (H2 : 1 - 0.41 * ln (exp (0.98 / 0.41)) = 0.02) by (rewrite ln_exp; lra).
  destruct (H H1 ltac:(lra)) as (Ha & _ & Hc).
  split; [exact Ha|apply Hc; lra].
Defined.

(** X3.  [f_temp] is never negative, is 1 at 35 degrees Celsius, has the same
    value at equal distances above and below 35 degrees, and is at least 1
    strictly between 10 and 60 degrees, the two temperatures at which its
    denominator vanishes. *)
Theorem f_temp_shape (Temperature : R) :
  0 <= f_temp Temperature
  /\ f_temp (KelvinConv + 35) = 1
  /\ (forall d : R, f_temp (KelvinConv + 35 + d) = f_temp (KelvinConv + 35 - d))
  /\ (KelvinConv + 10 < Temperature < KelvinConv + 60 -> 1 <= f_temp Temperature)
  /\ 1 - 0.0016 * pow_2 (35 - (KelvinConv + 10 - KelvinConv)) = 0
  /\ 1 - 0.0016 * pow_2 (35 - (KelvinConv + 60 - KelvinConv)) = 0.
Proof.
  unfold f_temp, pow_2. split; [apply Rabs_pos|]. split; [|split; [|split; [|split]]].
  - replace (1 / (1 - 0.0016 * ((35 - (KelvinConv + 35 - KelvinConv))
                                * (35 - (KelvinConv + 35 - KelvinConv)))))
      with 1 by (unfold KelvinConv; field; lra).
    apply Rabs_pos_eq. lra.
  - intros d. f_equal. f_equal. f_equal. unfold KelvinConv. lra.
  - intros [Hlo Hhi].
    set (x := 35 - (Temperature - KelvinConv)).
    assert (Hx : -25 < x < 25) by (unfold x; lra).
    assert (Hsq : x * x < 625) by nra.
    assert (Hsq0 : 0 <= x * x) by nra.
    assert (HD : 0 < 1 - 0.0016 * (x * x) <= 1) by lra.
    rewrite Rabs_pos_eq.
    + unfold Rdiv. rewrite Rmult_1_l. rewrite <- Rinv_1 at 1.
      apply Rinv_le_contravar; lra.
    + unfold Rdiv. rewrite Rmult_1_l. left. apply Rinv_0_lt_compat. lra.
  - unfold KelvinConv. lra.
  - unfold KelvinConv. lra.
Qed.

(** ** Moisture factors of the plant-coverage model *)

(** X4.  For the reference surface [green_frame] gives: a soil-moisture stress
    factor [f_VWC] of 1 above 70 % of the field capacity, and of
    [(0.7 VWC_fc - VWC_wp) / (Moisture - VWC_wp)], at least 1, between the
    wilting point and that level; and, for a moisture between zero and the
    porosity, a soil albedo between 0.0977 and 0.3143. *)
Theorem green_frame_moisture_factors
    (e : Env.t) (SurfNum : Z) (p : Green.Properties) (RS tau_sw Moisture : R)
    (fr : Frame.t) :
  let r := green_frame e SurfNum p RS tau_sw Moisture fr in
  let f := Frame.f_VWC (snd r) in
  (0.7 * Green.VWC_fc p < Moisture -> f = 1)
  /\ (Green.VWC_wp p < Moisture <= 0.7 * Green.VWC_fc p ->
      f = (0.7 * Green.VWC_fc p - Green.VWC_wp p) / (Moisture - Green.VWC_wp p)
      /\ 1 <= f)
  /\ (0 < Green.MoistureMax p -> 0 <= Moisture <= Green.MoistureMax p ->
      0.0977 <= fst r <= 0.3143).
Proof.
  intros r f. subst f r. unfold green_frame. cbn [fst snd Frame.f_VWC].
  split; [|split].
  - intros H. destruct (Rgt_dec Moisture (0.7 * Green.VWC_fc p)); [reflexivity|lra].
  - intros [Hlo Hhi].
    destruct (Rgt_dec Moisture (0.7 * Green.VWC_fc p)) as [Hg|_]; [lra|].
    set (a := Moisture - Green.VWC_wp p).
    set (b := 0.7 * Green.VWC_fc p - Green.VWC_wp p).
    assert (Ha : 0 < a) by (unfold a; lra).
    assert (Hab : a <= b) by (unfold a, b; lra).
    assert (Heq : 1 / (a / b) = b / a) by (field; lra).
    rewrite Heq.
    assert (Hge : 1 <= b / a).
    { apply (Rmult_le_reg_r a); [exact Ha|].
      replace (b / a * a) with b by (field; lra). lra. }
    rewrite Rmax_right by lra. split; [reflexivity|exact Hge].
  - intros Hmax [Hlo Hhi]. unfold pow_2.
    set (Mg := Moisture / Green.MoistureMax p).
    assert (HMg : 0 <= Mg <= 1).
    { unfold Mg. split.
      - apply Rmult_le_pos; [lra|]. left. apply Rinv_0_lt_compat. lra.
      - apply (Rmult_le_reg_r (Green.MoistureMax p)); [lra|].
        replace (Moisture / Green.MoistureMax p * Green.MoistureMax p)
          with Moisture by (field; lra). lra. }
    split.
    + pose proof (Rle_0_sqr (0.2171 * Mg - 0.2168)) as Hs. unfold Rsqr in Hs. nra.
    + nra.
Qed.

(** ** Bounds kept by [UpdateSoilProps] *)

Lemma UpdateSoilProps_moistures
    (d : Driver.t) (s0 : SoilStatics.t) (w0 : Water.t) (ms : Materials)
    (Moisture MeanRootMoisture MoistureMax MoistureResidual SoilThickness
     Vfluxf Vfluxg : R) (ConstrNum : Z) (Alphag : R) :
  let u :=
    UpdateSoilProps d s0 w0 ms Moisture MeanRootMoisture MoistureMax
      MoistureResidual SoilThickness Vfluxf Vfluxg ConstrNum Alphag in
  let soil :=
    soil_moisture_step d (SoilUpdate.statics u) (ms ConstrNum) MoistureMax
      MoistureResidual Vfluxf Vfluxg Moisture MeanRootMoisture in
  SoilUpdate.Moisture u = Soil.Moisture soil
  /\ SoilUpdate.MeanRootMoisture u = Soil.MeanRootMoisture soil
  /\ Water.CurrentRunoff (SoilUpdate.water u) = Soil.CurrentRunoff soil.
Proof.
  intros u soil. subst soil u. rewrite UpdateSoilProps_statics.
  unfold UpdateSoilProps. destruct (water_inputs _ _ _ _ _ _ _).
  cbn [SoilUpdate.Moisture SoilUpdate.MeanRootMoisture SoilUpdate.water update_water
       Water.CurrentRunoff].
  repeat split.
Qed.

Section MoistureBounds.

Variable d : Driver.t.
Variable s : SoilStatics.t.
Variables MoistureMax MoistureResidual : R.

Hypothesis TopDepth_positive : 0 < SoilStatics.TopDepth s.
Hypothesis RootDepth_positive : 0 < SoilStatics.RootDepth s.
Hypothesis floor_below_porosity : MoistureResidual * 1.00001 <= MoistureMax.

(** The top layer leaves the input stage at or below the porosity, and
    the root zone as transpiration left it. *)
Lemma soil_inputs_capped (Vfluxf Vfluxg Moisture MeanRootMoisture : R) :
  let w := soil_inputs d s MoistureMax Vfluxf Vfluxg Moisture MeanRootMoisture in
  Soil.Moisture w <= MoistureMax
  /\ Soil.MeanRootMoisture w
     = MeanRootMoisture
       - Vfluxf * IZR (Driver.MinutesPerTimeStep d) * 60.0 / SoilStatics.RootDepth s.
Proof.
  intros w. subst w. unfold soil_inputs, water_inputs, after_evaporation.
  cbn [fst snd].
  destruct (Rgt_dec _ MoistureMax) as [Hg|Hn];
    cbn [Soil.Moisture Soil.MeanRootMoisture]; split; try reflexivity; lra.
Qed.

(** The last stage keeps an upper bound and establishes the lower one of
    the root zone; it floors the top layer only when it fires. *)
Lemma root_floor_bounds (w : Soil.t) :
  Soil.Moisture w <= MoistureMax ->
  Soil.MeanRootMoisture w <= MoistureMax ->
  let w' := root_floor s MoistureResidual w in
  Soil.Moisture w' <= MoistureMax
  /\ MoistureResidual * 1.00001 <= Soil.MeanRootMoisture w' <= MoistureMax
  /\ (MoistureResidual * 1.00001 <= Soil.Moisture w ->
      MoistureResidual * 1.00001 <= Soil.Moisture w').
Proof.
  intros Ht Hr w'. subst w'. unfold root_floor.
  destruct (Rle_dec (Soil.MeanRootMoisture w) (MoistureResidual * 1.00001)) as [Hf|Hn].
  - set (x := (MoistureResidual * 1.00001 - Soil.MeanRootMoisture w)
              * SoilStatics.RootDepth s / SoilStatics.TopDepth s).
    assert (Hx : 0 <= x).
    { unfold x. apply Rmult_le_pos; [apply Rmult_le_pos; lra|].
      left. apply Rinv_0_lt_compat. exact TopDepth_positive. }
    destruct (Rlt_dec (Soil.Moisture w - x) (MoistureResidual * 1.00001));
      cbn [Soil.Moisture Soil.MeanRootMoisture]; repeat split; lra.
  - repeat split; lra.
Qed.

(** The diffusion law keeps both layers at or below the porosity when its
    two rate factors are at most 1, that is for steps of up to 333
    minutes. *)
Lemma diffusion_bounds (w : Soil.t) :
  (0 <= Driver.MinutesPerTimeStep d <= 333)%Z ->
  Soil.Moisture w <= MoistureMax ->
  Soil.MeanRootMoisture w <= MoistureMax ->
  let w' := redistribute_diffusion d s MoistureMax w in
  Soil.Moisture w' <= MoistureMax /\ Soil.MeanRootMoisture w' <= MoistureMax.
Proof.
  intros [Hm0 Hm1] Ht Hr w'. subst w'. unfold redistribute_diffusion.
  assert (HM : 0 <= IZR (Driver.MinutesPerTimeStep d) <= 333)
    by (split; apply IZR_le; assumption).
  set (M := IZR (Driver.MinutesPerTimeStep d)) in *.
  set (T := SoilStatics.TopDepth s) in *.
  set (D := SoilStatics.RootDepth s) in *.
  assert (HiT : 0 < / T) by (apply Rinv_0_lt_compat; exact TopDepth_positive).
  assert (HiD : 0 < / D) by (apply Rinv_0_lt_compat; exact RootDepth_positive).
  destruct (Rgt_dec (Soil.Moisture w) (Soil.MeanRootMoisture w)) as [H1|H1];
    [|destruct (Rgt_dec (Soil.MeanRootMoisture w) (Soil.Moisture w)) as [H2|H2]];
    cbn [Soil.Moisture Soil.MeanRootMoisture]; [| |split; assumption].
  - set (A := (MoistureMax - Soil.MeanRootMoisture w) * D).
    set (B := (Soil.Moisture w - Soil.MeanRootMoisture w) * T).
    assert (HA : 0 <= A) by (unfold A; apply Rmult_le_pos; lra).
    assert (Hq : 0 <= Rmax 0.0 (Rmin A B) <= A).
    { split; [pose proof (Rmax_l 0.0 (Rmin A B)); lra|].
      apply Rmax_lub; [lra|apply Rmin_l]. }
    set (q := Rmax 0.0 (Rmin A B)) in *.
    set (f := 0.00005 * M * 60.0).
    assert (Hf : 0 <= f <= 1) by (unfold f; lra).
    assert (Hqf : 0 <= q * f <= A) by nra.
    split.
    + assert (0 <= q * f / T) by (apply Rmult_le_pos; lra). lra.
    + assert (Hd : q * f / D <= MoistureMax - Soil.MeanRootMoisture w).
      { replace (MoistureMax - Soil.MeanRootMoisture w) with (A / D)
          by (unfold A; field; lra).
        apply Rmult_le_compat_r; lra. }
      lra.
  - set (A := (MoistureMax - Soil.Moisture w) * T).
    set (B := (Soil.MeanRootMoisture w - Soil.Moisture w) * D).
    assert (HA : 0 <= A) by (unfold A; apply Rmult_le_pos; lra).
    assert (Hq : 0 <= Rmax 0.0 (Rmin A B) <= A).
    { split; [pose proof (Rmax_l 0.0 (Rmin A B)); lra|].
      apply Rmax_lub; [lra|apply Rmin_l]. }
    set (q := Rmax 0.0 (Rmin A B)) in *.
    set (f := 0.00001 * M * 60.0).
    assert (Hf : 0 <= f <= 1) by (unfold f; lra).
    assert (Hqf : 0 <= q * f <= A) by nra.
    split.
    + assert (Hd : q * f / T <= MoistureMax - Soil.Moisture w).
      { replace (MoistureMax - Soil.Moisture w) with (A / T)
          by (unfold A; field; lra).
        apply Rmult_le_compat_r; lra. }
      lra.
    + assert (0 <= q * f / D) by (apply Rmult_le_pos; lra). lra.
Qed.

(** The unsaturated-flow law leaves both layers between 1.01 times the
    residual moisture and the porosity, whatever it is given. *)
Lemma unsaturated_bounds (w : Soil.t) :
  0 <= MoistureMax ->
  1.01 * MoistureResidual <= MoistureMax ->
  let w' := redistribute_unsaturated s MoistureMax MoistureResidual w in
  1.01 * MoistureResidual <= Soil.Moisture w' <= MoistureMax
  /\ 1.01 * MoistureResidual <= Soil.MeanRootMoisture w' <= MoistureMax.
Proof.
  intros H0 H1 w'. subst w'. unfold redistribute_unsaturated.
  generalize (top_after_flow s MoistureMax MoistureResidual w) as t.
  generalize (root_after_flow s MoistureMax MoistureResidual w) as r.
  intros r t.
  destruct (Rge_dec t MoistureMax) as [Ht|Ht];
    destruct (Rle_dec _ (1.01 * MoistureResidual)) as [Ht'|Ht'];
    destruct (Rge_dec r MoistureMax) as [Hr|Hr];
    destruct (Rle_dec _ (1.01 * MoistureResidual)) as [Hr'|Hr'];
    cbn [Soil.Moisture Soil.MeanRootMoisture]; repeat split; lra.
Qed.

End MoistureBounds.

(** X5.  Under the unsaturated-flow law (any [EcoRoofCalculationMethod] other
    than 1) a call of [UpdateSoilProps] with positive layer depths, a
    non-negative residual moisture and [1.01 * MoistureResidual] at most
    the porosity, for which the soil state that enters the law is within
    its real domain (the root zone, after transpiration, above the residual
    moisture and at most the porosity), ends with both moistures between
    [1.00001 * MoistureResidual] and [MoistureMax].  Nothing is assumed of
    the top layer on entry, of the soil evaporation rate or of the water
    inputs. *)
Theorem UpdateSoilProps_unsaturated_flow_in_bounds
    (d : Driver.t) (s0 : SoilStatics.t) (w0 : Water.t) (ms : Materials)
    (Moisture MeanRootMoisture MoistureMax MoistureResidual SoilThickness
     Vfluxf Vfluxg : R) (ConstrNum : Z) (Alphag : R) :
  let u :=
    UpdateSoilProps d s0 w0 ms Moisture MeanRootMoisture MoistureMax
      MoistureResidual SoilThickness Vfluxf Vfluxg ConstrNum Alphag in
  Material.EcoRoofCalculationMethod (ms ConstrNum) <> 1%Z ->
  unsaturated_flow_defined MoistureMax MoistureResidual
    (soil_inputs d (SoilUpdate.statics u) MoistureMax Vfluxf Vfluxg Moisture
       MeanRootMoisture) ->
  0 < SoilStatics.TopDepth (SoilUpdate.statics u) ->
  0 < SoilStatics.RootDepth (SoilUpdate.statics u) ->
  0 <= MoistureResidual ->
  1.01 * MoistureResidual <= MoistureMax ->
  MoistureResidual <= MoistureResidual * 1.00001
  /\ MoistureResidual * 1.00001 <= SoilUpdate.Moisture u <= MoistureMax
  /\ MoistureResidual * 1.00001 <= SoilUpdate.MeanRootMoisture u <= MoistureMax.
Proof.
  intros u Hm _ HT HD Hres Hmax.
  destruct (UpdateSoilProps_moistures d s0 w0 ms Moisture MeanRootMoisture MoistureMax
              MoistureResidual SoilThickness Vfluxf Vfluxg ConstrNum Alphag)
    as (Ht & Hr & _).
  fold u in Ht, Hr. rewrite Ht, Hr.
  set (s := SoilUpdate.statics u) in *.
  unfold soil_moisture_step, redistribute.
  destruct (Z.eq_dec (Material.EcoRoofCalculationMethod (ms ConstrNum)) 1) as [He|_];
    [contradiction|].
  set (w := soil_inputs d s MoistureMax Vfluxf Vfluxg Moisture MeanRootMoisture).
  assert (H0 : 0 <= MoistureMax) by lra.
  destruct (unsaturated_bounds s MoistureMax MoistureResidual w H0 Hmax) as [Hu1 Hu2].
  assert (Hfl : MoistureResidual * 1.00001 <= MoistureMax) by lra.
  destruct (root_floor_bounds s MoistureMax MoistureResidual HT HD Hfl
              (redistribute_unsaturated s MoistureMax MoistureResidual w)
              (proj2 Hu1) (proj2 Hu2)) as (Hb1 & Hb2 & Hb3).
  split; [lra|]. split; [split; [apply Hb3; lra|exact Hb1]|exact Hb2].
Qed.

Lemma UpdateSoilProps_unsaturated_flow_in_bounds_sample :
  let u :=
    UpdateSoilProps (dry_driver 15) SoilStatics_initial Water_initial
      (fun _ => sample_material 2) 0.1 0.11 0.5 0.1 0.2 0.0 1e-7 1 0.3 in
  0.1 <= 0.1 * 1.00001
  /\ 0.1 * 1.00001 <= SoilUpdate.Moisture u <= 0.5
  /\ 0.1 * 1.00001 <= SoilUpdate.MeanRootMoisture u <= 0.5.
Proof.
  refine (UpdateSoilProps_unsaturated_flow_in_bounds (dry_driver 15) SoilStatics_initial
            Water_initial (fun _ => sample_material 2)
            0.1 0.11 0.5 0.1 0.2 0.0 1e-7 1 0.3 _ _ _ _ _ _);
    try (rewrite UpdateSoilProps_statics, sample_begin; simpl; lra);
    try lra.
  - simpl. lia.
  - rewrite UpdateSoilProps_statics, sample_begin.
    destruct (soil_inputs_capped (dry_driver 15) (sample_statics 15) 0.5 0.0 1e-7 0.1 0.11)
      as [Hc Hr].
    unfold unsaturated_flow_defined. rewrite Hr.
    split; [lra|]. split; [exact Hc|]. cbn. lra.
Defined.

(** X6.  Under the diffusion law ([EcoRoofCalculationMethod] 1), for a step of
    at most 333 minutes, positive layer depths, a non-negative
    transpiration rate and a root zone that starts at or below the
    porosity, a call of [UpdateSoilProps] ends with the top layer at or
    below [MoistureMax] and the root zone between [1.00001 *
    MoistureResidual] and [MoistureMax].  Nothing is assumed of the top
    layer on entry, of the soil evaporation rate or of the water inputs. *)
Theorem UpdateSoilProps_diffusion_upper_bounds
    (d : Driver.t) (s0 : SoilStatics.t) (w0 : Water.t) (ms : Materials)
    (Moisture MeanRootMoisture MoistureMax MoistureResidual SoilThickness
     Vfluxf Vfluxg : R) (ConstrNum : Z) (Alphag : R) :
  let u :=
    UpdateSoilProps d s0 w0 ms Moisture MeanRootMoisture MoistureMax
      MoistureResidual SoilThickness Vfluxf Vfluxg ConstrNum Alphag in
  Material.EcoRoofCalculationMethod (ms ConstrNum) = 1%Z ->
  0 < SoilStatics.TopDepth (SoilUpdate.statics u) ->
  0 < SoilStatics.RootDepth (SoilUpdate.statics u) ->
  (0 <= Driver.MinutesPerTimeStep d <= 333)%Z ->
  0 <= Vfluxf ->
  MeanRootMoisture <= MoistureMax ->
  MoistureResidual * 1.00001 <= MoistureMax ->
  SoilUpdate.Moisture u <= MoistureMax
  /\ MoistureResidual * 1.00001 <= SoilUpdate.MeanRootMoisture u <= MoistureMax.
Proof.
  intros u Hm HT HD Hmin Hf Hr0 Hfl.
  destruct (UpdateSoilProps_moistures d s0 w0 ms Moisture MeanRootMoisture MoistureMax
              MoistureResidual SoilThickness Vfluxf Vfluxg ConstrNum Alphag)
    as (Ht & Hr & _).
  fold u in Ht, Hr. rewrite Ht, Hr.
  set (s := SoilUpdate.statics u) in *.
  unfold soil_moisture_step, redistribute.
  destruct (Z.eq_dec (Material.EcoRoofCalculationMethod (ms ConstrNum)) 1) as [_|He];
    [|contradiction].
  destruct (soil_inputs_capped d s MoistureMax Vfluxf Vfluxg Moisture MeanRootMoisture)
    as [Hi1 Hi2].
  set (w := soil_inputs d s MoistureMax Vfluxf Vfluxg Moisture MeanRootMoisture) in *.
  assert (Hi3 : Soil.MeanRootMoisture w <= MoistureMax).
  { rewrite Hi2.
    assert (0 <= Vfluxf * IZR (Driver.MinutesPerTimeStep d) * 60.0
                 / SoilStatics.RootDepth s).
    { apply Rmult_le_pos; [|left; apply Rinv_0_lt_compat; exact HD].
      apply Rmult_le_pos; [|lra]. apply Rmult_le_pos; [exact Hf|].
      apply IZR_le. lia. }
    lra. }
  destruct (diffusion_bounds d s MoistureMax HT HD w Hmin Hi1 Hi3) as [Hd1 Hd2].
  destruct (root_floor_bounds s MoistureMax MoistureResidual HT HD Hfl
              (redistribute_diffusion d s MoistureMax w) Hd1 Hd2) as (Hb1 & Hb2 & _).
  split; [exact Hb1|exact Hb2].
Qed.

Lemma UpdateSoilProps_diffusion_upper_bounds_sample :
  let u :=
    UpdateSoilProps (dry_driver 15) SoilStatics_initial Water_initial
      (fun _ => sample_material 1) 0.1 0.11 0.5 0.1 0.2 0.0 1e-7 1 0.3 in
  SoilUpdate.Moisture u <= 0.5
  /\ 0.1 * 1.00001 <= SoilUpdate.MeanRootMoisture u <= 0.5.
Proof.
  refine (UpdateSoilProps_diffusion_upper_bounds (dry_driver 15) SoilStatics_initial
            Water_initial (fun _ => sample_material 1)
            0.1 0.11 0.5 0.1 0.2 0.0 1e-7 1 0.3 eq_refl _ _ _ _ _ _);
    try (rewrite UpdateSoilProps_statics, sample_begin; simpl; lra);
    try lra.
  simpl. lia.
Defined.

(** ** Water accounting, irrigation and the frame of [UpdateSoilProps] *)

Lemma UpdateSoilProps_water
    (d : Driver.t) (s0 : SoilStatics.t) (w0 : Water.t) (ms : Materials)
    (Moisture MeanRootMoisture MoistureMax MoistureResidual SoilThickness
     Vfluxf Vfluxg : R) (ConstrNum : Z) (Alphag : R) :
  let u :=
    UpdateSoilProps d s0 w0 ms Moisture MeanRootMoisture MoistureMax
      MoistureResidual SoilThickness Vfluxf Vfluxg ConstrNum Alphag in
  let s := SoilUpdate.statics u in
  let inputs := water_inputs d s MoistureMax Vfluxf Vfluxg Moisture MeanRootMoisture in
  SoilUpdate.water u
  = update_water d w0 ((Vfluxg + Vfluxf) * IZR (Driver.MinutesPerTimeStep d) * 60.0)
      (fst inputs) (snd inputs)
      (Soil.CurrentRunoff
         (soil_moisture_step d s (ms ConstrNum) MoistureMax MoistureResidual
            Vfluxf Vfluxg Moisture MeanRootMoisture))
  /\ SoilUpdate.Irrigation_ActualAmount u = snd inputs.
Proof.
  intros u s inputs. subst inputs s u. rewrite UpdateSoilProps_statics.
  unfold UpdateSoilProps. destruct (water_inputs _ _ _ _ _ _ _).
  cbn [SoilUpdate.water SoilUpdate.Irrigation_ActualAmount fst snd]. split; reflexivity.
Qed.

(** X7.  The water totals of a call of [UpdateSoilProps]: the evapotranspiration
    of the step is [(Vfluxg + Vfluxf)] times the step in seconds; during
    warm-up the four cumulative totals stay as they were; otherwise each
    grows by the amount of the step, the precipitation total only under a
    rain schedule; without a rain schedule the precipitation of the step is
    zero. *)
Theorem UpdateSoilProps_water_totals
    (d : Driver.t) (s0 : SoilStatics.t) (w0 : Water.t) (ms : Materials)
    (Moisture MeanRootMoisture MoistureMax MoistureResidual SoilThickness
     Vfluxf Vfluxg : R) (ConstrNum : Z) (Alphag : R) :
  let u :=
    UpdateSoilProps d s0 w0 ms Moisture MeanRootMoisture MoistureMax
      MoistureResidual SoilThickness Vfluxf Vfluxg ConstrNum Alphag in
  let w := SoilUpdate.water u in
  Water.CurrentET w = (Vfluxg + Vfluxf) * IZR (Driver.MinutesPerTimeStep d) * 60.0
  /\ (Driver.WarmupFlag d = true ->
      Water.CumRunoff w = Water.CumRunoff w0
      /\ Water.CumET w = Water.CumET w0
      /\ Water.CumPrecip w = Water.CumPrecip w0
      /\ Water.CumIrrigation w = Water.CumIrrigation w0)
  /\ (Driver.WarmupFlag d = false ->
      Water.CumRunoff w = Water.CumRunoff w0 + Water.CurrentRunoff w
      /\ Water.CumET w = Water.CumET w0 + Water.CurrentET w
      /\ Water.CumIrrigation w = Water.CumIrrigation w0 + Water.CurrentIrrigation w
      /\ (Driver.RainFall_ModeID d = RainSchedDesign ->
          Water.CumPrecip w = Water.CumPrecip w0 + Water.CurrentPrecipitation w))
  /\ (Driver.RainFall_ModeID d = RainNone ->
      Water.CurrentPrecipitation w = 0 /\ Water.CumPrecip w = Water.CumPrecip w0)
  /\ (Driver.RainFall_ModeID d = RainSchedDesign ->
      Water.CurrentPrecipitation w = Driver.RainFall_CurrentAmount d).
Proof.
  intros u w. subst w.
  destruct (UpdateSoilProps_water d s0 w0 ms Moisture MeanRootMoisture MoistureMax
              MoistureResidual SoilThickness Vfluxf Vfluxg ConstrNum Alphag) as [Hw _].
  fold u in Hw. rewrite Hw. unfold update_water, water_inputs, precipitation_of.
  cbn [Water.CurrentET Water.CumRunoff Water.CumET Water.CumPrecip Water.CumIrrigation
       Water.CurrentRunoff Water.CurrentPrecipitation Water.CurrentIrrigation fst snd].
  split; [reflexivity|]. split; [|split; [|split]].
  - intros Hf. rewrite Hf. destruct (Driver.RainFall_ModeID d); repeat split.
  - intros Hf. rewrite Hf. repeat split. intros Hr. rewrite Hr. reflexivity.
  - intros Hr. rewrite Hr. split; [lra|reflexivity].
  - intros Hr. rewrite Hr. reflexivity.
Qed.

(** X8.  The irrigation of a step is what [Irrigation.ActualAmount] reports:
    nothing without a schedule, the scheduled amount under a plain
    schedule, and under the smart schedule the scheduled amount only when
    the top layer, after evaporation and rain, is below the threshold
    fraction of the porosity. *)
Theorem UpdateSoilProps_irrigation
    (d : Driver.t) (s0 : SoilStatics.t) (w0 : Water.t) (ms : Materials)
    (Moisture MeanRootMoisture MoistureMax MoistureResidual SoilThickness
     Vfluxf Vfluxg : R) (ConstrNum : Z) (Alphag : R) :
  let u :=
    UpdateSoilProps d s0 w0 ms Moisture MeanRootMoisture MoistureMax
      MoistureResidual SoilThickness Vfluxf Vfluxg ConstrNum Alphag in
  let TopDepth := SoilStatics.TopDepth (SoilUpdate.statics u) in
  let wetted :=
    Moisture - Vfluxg * IZR (Driver.MinutesPerTimeStep d) * 60.0 / TopDepth
    + Water.CurrentPrecipitation (SoilUpdate.water u) / TopDepth in
  let limit := Driver.Irrigation_IrrigationThreshold d * MoistureMax in
  SoilUpdate.Irrigation_ActualAmount u = Water.CurrentIrrigation (SoilUpdate.water u)
  /\ (Driver.Irrigation_ModeID d = IrrNone -> SoilUpdate.Irrigation_ActualAmount u = 0)
  /\ (Driver.Irrigation_ModeID d = IrrSchedDesign ->
      SoilUpdate.Irrigation_ActualAmount u = Driver.Irrigation_ScheduledAmount d)
  /\ (Driver.Irrigation_ModeID d = IrrSmartSched ->
      (wetted < limit ->
       SoilUpdate.Irrigation_ActualAmount u = Driver.Irrigation_ScheduledAmount d)
      /\ (limit <= wetted -> SoilUpdate.Irrigation_ActualAmount u = 0)).
Proof.
  intros u TopDepth wetted limit. subst limit wetted TopDepth.
  destruct (UpdateSoilProps_water d s0 w0 ms Moisture MeanRootMoisture MoistureMax
              MoistureResidual SoilThickness Vfluxf Vfluxg ConstrNum Alphag) as [Hw Hi].
  fold u in Hw, Hi. rewrite Hw, Hi.
  set (s := SoilUpdate.statics u).
  unfold update_water, water_inputs, irrigation_of, after_evaporation, precipitation_of.
  cbn [Water.CurrentIrrigation Water.CurrentPrecipitation fst snd].
  split; [reflexivity|]. split; [|split].
  - intros Hm. rewrite Hm. lra.
  - intros Hm. rewrite Hm. reflexivity.
  - intros Hm. rewrite Hm.
    destruct (Driver.RainFall_ModeID d).
    + replace (Moisture - Vfluxg * IZR (Driver.MinutesPerTimeStep d) * 60.0
                          / SoilStatics.TopDepth s + 0.0 / SoilStatics.TopDepth s)
        with (Moisture - Vfluxg * IZR (Driver.MinutesPerTimeStep d) * 60.0
                         / SoilStatics.TopDepth s) by lra.
      destruct (Rlt_dec _ _); split; intros; first [reflexivity|lra].
    + destruct (Rlt_dec _ _); split; intros; first [reflexivity|lra].
Qed.

(** X9.  The routine's set-up is done once: the layer depths, the step in
    seconds and the dry properties that the first call stores are those
    every later call works with, whatever thickness, time step or material
    the later call is given. *)
Theorem UpdateSoilProps_statics_set_once
    (d d' : Driver.t) (s0 : SoilStatics.t) (w0 w0' : Water.t) (ms ms' : Materials)
    (Moisture MeanRootMoisture MoistureMax MoistureResidual SoilThickness
     Vfluxf Vfluxg : R) (ConstrNum : Z) (Alphag : R)
    (Moisture' MeanRootMoisture' MoistureMax' MoistureResidual' SoilThickness'
     Vfluxf' Vfluxg' : R) (ConstrNum' : Z) (Alphag' : R) :
  let u :=
    UpdateSoilProps d s0 w0 ms Moisture MeanRootMoisture MoistureMax
      MoistureResidual SoilThickness Vfluxf Vfluxg ConstrNum Alphag in
  let u' :=
    UpdateSoilProps d' (SoilUpdate.statics u) w0' ms' Moisture' MeanRootMoisture'
      MoistureMax' MoistureResidual' SoilThickness' Vfluxf' Vfluxg' ConstrNum' Alphag' in
  SoilStatics.UpdatebeginFlag (SoilUpdate.statics u) = false
  /\ SoilUpdate.statics u' = SoilUpdate.statics u
  /\ (SoilStatics.UpdatebeginFlag s0 = true ->
      let TopDepth := SoilStatics.TopDepth (SoilUpdate.statics u) in
      let RootDepth := SoilStatics.RootDepth (SoilUpdate.statics u) in
      TopDepth + RootDepth = SoilThickness
      /\ (0.12 < SoilThickness -> TopDepth = 0.06)
      /\ (SoilThickness <= 0.12 -> TopDepth = 0.5 * SoilThickness)
      /\ (0 < SoilThickness -> 0 < TopDepth /\ 0 < RootDepth)
      /\ SoilStatics.DryCond (SoilUpdate.statics u) = Material.Conductivity (ms ConstrNum)).
Proof.
  intros u u'. subst u' u. rewrite !UpdateSoilProps_statics.
  unfold UpdateSoilProps_begin.
  destruct (SoilStatics.UpdatebeginFlag s0) eqn:Hflag;
    cbn [SoilStatics.UpdatebeginFlag SoilStatics.TopDepth SoilStatics.RootDepth
         SoilStatics.DryCond].
  - split; [reflexivity|]. split; [reflexivity|]. intros _.
    destruct (Rgt_dec SoilThickness 0.12); repeat split; intros; lra.
  - rewrite Hflag. split; [reflexivity|]. split; [reflexivity|]. intros H. discriminate H.
Qed.

Lemma thermal_write_frame (m : Material.t) (a b c : R) :
  let new := with_SpecHeat (with_Density (with_Conductivity m a) b) c in
  new = with_SpecHeat
          (with_Density (with_Conductivity m (Material.Conductivity new))
             (Material.Density new))
          (Material.SpecHeat new)
  /\ Material.AbsorpSolar new = Material.AbsorpSolar m
  /\ Material.EcoRoofCalculationMethod new = Material.EcoRoofCalculationMethod m
  /\ Material.Porosity new = Material.Porosity m
  /\ Material.MinMoisture new = Material.MinMoisture m
  /\ Material.InitMoisture new = Material.InitMoisture m
  /\ Material.Thickness new = Material.Thickness m.
Proof. cbv zeta. repeat split. Qed.

(** X10.  In the material record that a call of [UpdateSoilProps] reads and
    writes back for its construction only the conductivity, the density and
    the specific heat can differ afterwards: the solar absorptance, the
    calculation method, the porosity, the two moisture parameters and the
    thickness are as before. *)
Theorem UpdateSoilProps_material_frame
    (d : Driver.t) (s0 : SoilStatics.t) (w0 : Water.t) (ms : Materials)
    (Moisture MeanRootMoisture MoistureMax MoistureResidual SoilThickness
     Vfluxf Vfluxg : R) (ConstrNum : Z) (Alphag : R) :
  let u :=
    UpdateSoilProps d s0 w0 ms Moisture MeanRootMoisture MoistureMax
      MoistureResidual SoilThickness Vfluxf Vfluxg ConstrNum Alphag in
  let old := ms ConstrNum in
  let new := SoilUpdate.materials u ConstrNum in
  new = with_SpecHeat
             (with_Density (with_Conductivity old (Material.Conductivity new))
                (Material.Density new))
             (Material.SpecHeat new)
  /\ Material.AbsorpSolar new = Material.AbsorpSolar old
  /\ Material.EcoRoofCalculationMethod new = Material.EcoRoofCalculationMethod old
  /\ Material.Porosity new = Material.Porosity old
  /\ Material.MinMoisture new = Material.MinMoisture old
  /\ Material.InitMoisture new = Material.InitMoisture old
  /\ Material.Thickness new = Material.Thickness old.
Proof.
  intros u old new. subst new old u. unfold UpdateSoilProps.
  destruct (water_inputs _ _ _ _ _ _ _).
  cbn [SoilUpdate.materials].
  rewrite set_material_same. unfold update_material. cbv zeta.
  match goal with
  | |- context [with_SpecHeat (with_Density (with_Conductivity ?m ?a) ?b) ?c] =>
      exact (thermal_write_frame m a b c)
  end.
Qed.

(** The write-back leaves the vegetation and soil parameters of every
    material as they were. *)
Lemma UpdateSoilProps_keeps_parameters
    (d : Driver.t) (s0 : SoilStatics.t) (w0 : Water.t) (ms : Materials)
    (Moisture MeanRootMoisture MoistureMax MoistureResidual SoilThickness
     Vfluxf Vfluxg : R) (ConstrNum : Z) (Alphag : R) (c : Z) :
  Material_parameters 0
    (SoilUpdate.materials
       (UpdateSoilProps d s0 w0 ms Moisture MeanRootMoisture MoistureMax
          MoistureResidual SoilThickness Vfluxf Vfluxg ConstrNum Alphag) c)
  = Material_parameters 0 (ms c).
Proof.
  unfold UpdateSoilProps. destruct (water_inputs _ _ _ _ _ _ _).
  cbn [SoilUpdate.materials]. unfold set_material.
  destruct (Z.eq_dec c ConstrNum) as [->|Hc]; [|reflexivity].
  unfold update_material. cbv zeta.
  match goal with
  | |- context [with_SpecHeat (with_Density (with_Conductivity ?m ?a) ?b) ?c] =>
      generalize a b c
  end.
  intros a b c. reflexivity.
Qed.

(** ** The first entry and the start of an environment *)

Lemma CalcEcoRoof_calc_parameters (e : Env.t) (w : World.t) (SurfNum ZoneNum ConstrNum : Z) :
  let w' := fst (fst (CalcEcoRoof e w SurfNum ZoneNum ConstrNum)) in
  World.EcoRoofbeginFlag w' = false
  /\ Calc_parameters (World.calc w')
     = Calc_parameters (snd (CalcEcoRoof_entry e w SurfNum
                               (storm_construction e SurfNum ConstrNum)))
  /\ Calc.MyEnvrnFlag (World.calc w')
     = Calc.MyEnvrnFlag (snd (CalcEcoRoof_entry e w SurfNum
                                (storm_construction e SurfNum ConstrNum)))
  /\ (forall c, Material_parameters 0 (World.materials w' c)
                = Material_parameters 0 (World.materials w c)).
Proof.
  intros w'. subst w'. unfold CalcEcoRoof.
  destruct (Z.eq_dec SurfNum _) as [Heq|Hne];
    cbn [fst World.EcoRoofbeginFlag World.calc World.materials].
  - split; [reflexivity|]. split; [reflexivity|]. split; [reflexivity|].
    intros c. apply UpdateSoilProps_keeps_parameters.
  - repeat split.
Qed.

Lemma CalcEcoRoof_entry_parameters (e : Env.t) (w : World.t) (SurfNum ConstrNum : Z) :
  Calc_parameters (snd (CalcEcoRoof_entry e w SurfNum ConstrNum))
  = if World.EcoRoofbeginFlag w
    then Material_parameters SurfNum (World.materials w ConstrNum)
    else Calc_parameters (World.calc w).
Proof.
  unfold CalcEcoRoof_entry, calc_resets. destruct (World.EcoRoofbeginFlag w); reflexivity.
Qed.

Lemma run_CalcEcoRoof_parameters (calls : list Call.t) :
  forall w : World.t,
  World.EcoRoofbeginFlag w = false ->
  World.EcoRoofbeginFlag (run_CalcEcoRoof calls w) = false
  /\ Calc_parameters (World.calc (run_CalcEcoRoof calls w))
     = Calc_parameters (World.calc w).
Proof.
  induction calls as [|c calls IH]; intros w Hb; [split; [exact Hb|reflexivity]|].
  cbn [run_CalcEcoRoof fold_left].
  destruct (CalcEcoRoof_calc_parameters (Call.env c) w (Call.SurfNum c) (Call.ZoneNum c)
              (Call.ConstrNum c)) as (Hf & Hp & _).
  cbv zeta in Hf, Hp. rewrite CalcEcoRoof_entry_parameters, Hb in Hp.
  destruct (IH _ Hf) as [IH1 IH2]. unfold run_CalcEcoRoof in IH1, IH2.
  split; [exact IH1|]. rewrite IH2. exact Hp.
Qed.

(** X11.  The reference surface and the vegetation and soil parameters of
    [CalcEcoRoof] are those of its first call: after any run that starts
    from the initial state, [FirstEcoSurf] is the surface of the first
    call and the leaf area index, the emissivities, the leaf reflectivity,
    the plant height, the residual moisture, the porosity, the soil
    thickness and the minimal stomatal resistance are those of the
    material of that call, whatever surfaces and constructions the later
    calls name. *)
Theorem CalcEcoRoof_parameters_from_first_call
    (ms : Materials) (TH : Z -> R) (c : Call.t) (calls : list Call.t) :
  let w := run_CalcEcoRoof (c :: calls) (World_initial ms TH) in
  let m :=
    ms (storm_construction (Call.env c) (Call.SurfNum c) (Call.ConstrNum c)) in
  World.EcoRoofbeginFlag w = false
  /\ Calc.FirstEcoSurf (World.calc w) = Call.SurfNum c
  /\ Calc.LAI (World.calc w) = Material.LAI m
  /\ Calc.epsilonf (World.calc w) = Material.LEmissitivity m
  /\ Calc.epsilong (World.calc w) = Material.AbsorpThermal m
  /\ Calc.Alphaf (World.calc w) = Material.Lreflectivity m
  /\ Calc.Zf (World.calc w) = Material.HeightOfPlants m
  /\ Calc.MoistureResidual (World.calc w) = Material.MinMoisture m
  /\ Calc.MoistureMax (World.calc w) = Material.Porosity m
  /\ Calc.SoilThickness (World.calc w) = Material.Thickness m
  /\ Calc.StomatalResistanceMin (World.calc w) = Material.RStomata m.
Proof.
  intros w m. subst w. cbn [run_CalcEcoRoof fold_left].
  destruct (CalcEcoRoof_calc_parameters (Call.env c) (World_initial ms TH)
              (Call.SurfNum c) (Call.ZoneNum c) (Call.ConstrNum c)) as (Hf & Hp & _).
  cbv zeta in Hf, Hp. rewrite CalcEcoRoof_entry_parameters in Hp.
  cbn [World_initial World.EcoRoofbeginFlag World.materials] in Hp. fold m in Hp.
  destruct (run_CalcEcoRoof_parameters calls _ Hf) as [H1 H2].
  unfold run_CalcEcoRoof in H1, H2. rewrite Hp in H2.
  split; [exact H1|].
  unfold Calc_parameters, Material_parameters in H2.
  injection H2 as -> -> -> -> -> -> -> -> -> ->.
  repeat split.
Qed.

Lemma GreenRoof_entry_reference (e : Env.t) (w : World.t) (SurfNum ConstrNum : Z) :
  let g := snd (GreenRoof_entry e w SurfNum ConstrNum) in
  Green.FirstEcoSurf g
  = (if World.EcoRoofbeginFlag w then SurfNum else Green.FirstEcoSurf (World.green w))
  /\ Green.props g
     = (if World.EcoRoofbeginFlag w
        then Green.props (green_first_entry (World.materials w ConstrNum) SurfNum
                            (World.green w))
        else Green.props (World.green w)).
Proof.
  intros g. subst g.
  unfold GreenRoof_entry, green_reset_environment, green_reset_moisture.
  destruct (World.EcoRoofbeginFlag w);
    destruct (Driver.BeginEnvrnFlag (Env.driver e) || Driver.WarmupFlag (Env.driver e));
    split; reflexivity.
Qed.

Lemma GreenRoof_green_reference (e : Env.t) (fr : Frame.t) (w : World.t)
    (SurfNum ZoneNum ConstrNum : Z) :
  let w' := fst (fst (GreenRoof_with_PlantCoverage e fr w SurfNum ZoneNum ConstrNum)) in
  let g := snd (GreenRoof_entry e w SurfNum (storm_construction e SurfNum ConstrNum)) in
  World.EcoRoofbeginFlag w' = false
  /\ Green.FirstEcoSurf (World.green w') = Green.FirstEcoSurf g
  /\ Green.props (World.green w') = Green.props g
  /\ Green.MyEnvrnFlag (World.green w') = Green.MyEnvrnFlag g.
Proof. cbv zeta. unfold GreenRoof_with_PlantCoverage. repeat split. Qed.

Lemma run_GreenRoof_reference (calls : list Call.t) :
  forall w : World.t,
  World.EcoRoofbeginFlag w = false ->
  World.EcoRoofbeginFlag (run_GreenRoof calls w) = false
  /\ Green.FirstEcoSurf (World.green (run_GreenRoof calls w))
     = Green.FirstEcoSurf (World.green w)
  /\ Green.props (World.green (run_GreenRoof calls w)) = Green.props (World.green w).
Proof.
  induction calls as [|c calls IH]; intros w Hb; [repeat split; exact Hb|].
  cbn [run_GreenRoof fold_left].
  destruct (GreenRoof_green_reference (Call.env c) (Call.frame c) w (Call.SurfNum c)
              (Call.ZoneNum c) (Call.ConstrNum c)) as (Hf & H1 & H2 & _).
  cbv zeta in Hf, H1, H2.
  destruct (GreenRoof_entry_reference (Call.env c) w (Call.SurfNum c)
              (storm_construction (Call.env c) (Call.SurfNum c) (Call.ConstrNum c)))
    as [E1 E2].
  cbv zeta in E1, E2. rewrite Hb in E1, E2. rewrite E1 in H1. rewrite E2 in H2.
  destruct (IH _ Hf) as (I0 & I1 & I2). unfold run_GreenRoof in I0, I1, I2.
  split; [exact I0|]. split; [rewrite I1; exact H1|rewrite I2; exact H2].
Qed.

(** X12.  The reference surface and the plant and soil parameters of
    [GreenRoof_with_PlantCoverage] are those of its first call: after any
    run that starts from the initial state, [FirstEcoSurf] is the surface
    of the first call and the parameters are read from the material of
    that call; the wilting point is the material's minimum moisture, the
    same field as the residual moisture. *)
Theorem GreenRoof_parameters_from_first_call
    (ms : Materials) (TH : Z -> R) (c : Call.t) (calls : list Call.t) :
  let w := run_GreenRoof (c :: calls) (World_initial ms TH) in
  let m :=
    ms (storm_construction (Call.env c) (Call.SurfNum c) (Call.ConstrNum c)) in
  let p := Green.props (World.green w) in
  World.EcoRoofbeginFlag w = false
  /\ Green.FirstEcoSurf (World.green w) = Call.SurfNum c
  /\ Green.LAI p = Material.LAI m
  /\ Green.Alphap p = Material.Lreflectivity m
  /\ Green.epsilong p = Material.AbsorpThermal m
  /\ Green.epsilonp p = Material.LEmissitivity m
  /\ Green.MoistureMax p = Material.Porosity m
  /\ Green.MoistureResidual p = Material.MinMoisture m
  /\ Green.SoilThickness p = Material.Thickness m
  /\ Green.StomatalResistanceMin p = Material.RStomata m
  /\ Green.sigma_f p = Material.PlantCoverage m
  /\ Green.VWC_fc p = Material.VWC_FieldCapacity m
  /\ Green.VWC_wp p = Material.MinMoisture m
  /\ Green.Ksw p = Material.SW_ExtCoeff m
  /\ Green.Klw p = Material.LW_ExtCoeff m.
Proof.
  intros w m p. subst p w. cbn [run_GreenRoof fold_left].
  destruct (GreenRoof_green_reference (Call.env c) (Call.frame c) (World_initial ms TH)
              (Call.SurfNum c) (Call.ZoneNum c) (Call.ConstrNum c)) as (Hf & H1 & H2 & _).
  cbv zeta in Hf, H1, H2.
  destruct (GreenRoof_entry_reference (Call.env c) (World_initial ms TH) (Call.SurfNum c)
              (storm_construction (Call.env c) (Call.SurfNum c) (Call.ConstrNum c)))
    as [E1 E2].
  cbv zeta in E1, E2.
  cbn [World_initial World.EcoRoofbeginFlag World.materials World.green] in E1, E2.
  fold m in E2. rewrite E1 in H1. rewrite E2 in H2.
  destruct (run_GreenRoof_reference calls _ Hf) as (I0 & I1 & I2).
  unfold run_GreenRoof in I0, I1, I2.
  split; [exact I0|]. split; [rewrite I1; exact H1|].
  rewrite I2, H2. repeat split.
Qed.

(** ** What a call returns *)

(** X13.  Whatever the surface, a call of either routine returns in [TempExt]
    the value it stores in [TH] for that surface and leaves the entries of
    the other surfaces alone; the construction returned is the storm-window
    construction when the surface's storm-window flag is 1 and the one
    passed otherwise.  [CalcEcoRoof] returns its stored ground temperature
    [Tgold] and leaves the statics of the other routine untouched, and
    conversely [GreenRoof_with_PlantCoverage] returns [Tsoil_avg] in
    degrees Celsius and leaves [Tfold], [Tgold] and the statics of
    [CalcEcoRoof] untouched. *)
Theorem routines_return_stored_temperature
    (e : Env.t) (fr : Frame.t) (w : World.t) (SurfNum ZoneNum ConstrNum : Z) :
  let a := CalcEcoRoof e w SurfNum ZoneNum ConstrNum in
  let b := GreenRoof_with_PlantCoverage e fr w SurfNum ZoneNum ConstrNum in
  let wa := fst (fst a) in
  let wb := fst (fst b) in
  (snd a = World.Tgold wa
   /\ World.TH wa SurfNum = snd a
   /\ (forall s : Z, s <> SurfNum -> World.TH wa s = World.TH w s)
   /\ World.green wa = World.green w)
  /\ (snd b = Green.Tsoil_avg (Green.temps (World.green wb)) - KelvinConv
      /\ World.TH wb SurfNum = snd b
      /\ (forall s : Z, s <> SurfNum -> World.TH wb s = World.TH w s)
      /\ World.calc wb = World.calc w
      /\ World.Tfold wb = World.Tfold w
      /\ World.Tgold wb = World.Tgold w)
  /\ snd (fst a) = snd (fst b)
  /\ (Env.SurfaceWindow_StormWinFlag e SurfNum = 1%Z ->
      snd (fst a) = Env.Surface_StormWinConstruction e SurfNum)
  /\ (Env.SurfaceWindow_StormWinFlag e SurfNum <> 1%Z -> snd (fst a) = ConstrNum).
Proof.
  intros a b wa wb. subst wb wa b a. split; [|split; [|split; [|split]]].
  - unfold CalcEcoRoof. destruct (Z.eq_dec SurfNum _);
      cbn [fst snd World.Tgold World.TH World.green];
      (split; [reflexivity|]); (split; [apply set_TH_same|]);
      (split; [|reflexivity]); intros s Hs; unfold set_TH;
      (destruct (Z.eq_dec s SurfNum); [contradiction|reflexivity]).
  - unfold GreenRoof_with_PlantCoverage.
    cbn [fst snd World.TH World.green World.calc World.Tfold World.Tgold Green.temps].
    split; [reflexivity|]. split; [apply set_TH_same|]. split; [|repeat split].
    intros s Hs. unfold set_TH. destruct (Z.eq_dec s SurfNum); [contradiction|reflexivity].
  - unfold CalcEcoRoof, GreenRoof_with_PlantCoverage.
    destruct (Z.eq_dec SurfNum _); reflexivity.
  - intros H. unfold CalcEcoRoof. destruct (Z.eq_dec SurfNum _); cbn [fst snd];
      unfold storm_construction; rewrite H;
      (destruct (Z.eq_dec 1 1); [reflexivity|contradiction]).
  - intros H. unfold CalcEcoRoof. destruct (Z.eq_dec SurfNum _); cbn [fst snd];
      unfold storm_construction;
      (destruct (Z.eq_dec _ 1); [contradiction|reflexivity]).
Qed.

(** ** The reset at the start of an environment *)

(** X14.  In [CalcEcoRoof] the reset of the start of an environment happens
    once: it fires on entry only when [BeginEnvrnFlag] is set and the
    routine's flag is armed, then zeroes the water totals and the two
    rates and sets [Tfold] and [Tgold] to the outdoor air temperature at
    roof height; in every other case the totals, the stored temperatures
    and the rates pass the entry unchanged.  After the call the flag is
    armed exactly when [BeginEnvrnFlag] was clear, so that a second call
    made while [BeginEnvrnFlag] is still set resets nothing. *)
Theorem CalcEcoRoof_environment_reset_once
    (e : Env.t) (w : World.t) (SurfNum ZoneNum ConstrNum : Z) :
  let entered := CalcEcoRoof_entry e w SurfNum (storm_construction e SurfNum ConstrNum) in
  let water := fst (fst (fst entered)) in
  let Tfold := snd (fst (fst entered)) in
  let Tgold := snd (fst entered) in
  let k := snd entered in
  let after := fst (fst (CalcEcoRoof e w SurfNum ZoneNum ConstrNum)) in
  let Ta := Env.OutDryBulbTempAt e (Env.Surface_Centroid_z e SurfNum) in
  Calc.MyEnvrnFlag (World.calc after) = negb (Driver.BeginEnvrnFlag (Env.driver e))
  /\ (Driver.BeginEnvrnFlag (Env.driver e) = true ->
      Calc.MyEnvrnFlag (World.calc w) = true ->
      water = Water_reset (World.water w)
      /\ Tfold = Ta /\ Tgold = Ta
      /\ Calc.Vfluxf k = 0.0 /\ Calc.Vfluxg k = 0.0)
  /\ (Driver.BeginEnvrnFlag (Env.driver e) = false
      \/ Calc.MyEnvrnFlag (World.calc w) = false ->
      water = World.water w
      /\ Tfold = World.Tfold w /\ Tgold = World.Tgold w
      /\ Calc.Vfluxf k = Calc.Vfluxf (World.calc w)
      /\ Calc.Vfluxg k = Calc.Vfluxg (World.calc w)).
Proof.
  cbv zeta. split; [|split].
  - destruct (CalcEcoRoof_calc_parameters e w SurfNum ZoneNum ConstrNum)
      as (_ & _ & Hflag & _).
    cbv zeta in Hflag. rewrite Hflag.
    unfold CalcEcoRoof_entry, calc_resets. cbn [snd Calc.MyEnvrnFlag].
    destruct (World.EcoRoofbeginFlag w); cbn [calc_first_entry Calc.MyEnvrnFlag];
      destruct (Driver.BeginEnvrnFlag (Env.driver e));
      destruct (Calc.MyEnvrnFlag (World.calc w)); reflexivity.
  - intros Hb Hf. unfold CalcEcoRoof_entry, calc_resets.
    destruct (World.EcoRoofbeginFlag w);
      cbn [calc_first_entry Calc.MyEnvrnFlag fst snd Calc.Vfluxf Calc.Vfluxg];
      rewrite Hb, Hf; repeat split.
  - intros H. unfold CalcEcoRoof_entry, calc_resets.
    destruct (World.EcoRoofbeginFlag w);
      cbn [calc_first_entry Calc.MyEnvrnFlag fst snd Calc.Vfluxf Calc.Vfluxg];
      destruct H as [H|H]; rewrite H; rewrite ?andb_false_r; repeat split.
Qed.

(** X15.  In [GreenRoof_with_PlantCoverage] the reset of the start of an
    environment happens once: it fires on entry only when [BeginEnvrnFlag]
    is set and the routine's flag is armed, then zeroes the water totals
    and the two rates and sets the three temperatures to the outdoor air
    temperature at roof height in kelvin; in every other case the totals,
    the temperatures and the fluxes pass the entry unchanged.  After the
    call the flag is armed exactly when [BeginEnvrnFlag] was clear. *)
Theorem GreenRoof_environment_reset_once
    (e : Env.t) (fr : Frame.t) (w : World.t) (SurfNum ZoneNum ConstrNum : Z) :
  let entered := GreenRoof_entry e w SurfNum (storm_construction e SurfNum ConstrNum) in
  let water := fst entered in
  let g := snd entered in
  let after := fst (fst (GreenRoof_with_PlantCoverage e fr w SurfNum ZoneNum ConstrNum)) in
  let Tak := Env.OutDryBulbTempAt e (Env.Surface_Centroid_z e SurfNum) + KelvinConv in
  Green.MyEnvrnFlag (World.green after) = negb (Driver.BeginEnvrnFlag (Env.driver e))
  /\ (Driver.BeginEnvrnFlag (Env.driver e) = true ->
      Green.MyEnvrnFlag (World.green w) = true ->
      water = Water_reset (World.water w)
      /\ Green.T_plant (Green.temps g) = Tak
      /\ Green.T_soil (Green.temps g) = Tak
      /\ Green.T_bare_soil (Green.temps g) = Tak
      /\ Green.Vfluxf (Green.fluxes g) = 0.0
      /\ Green.Vfluxg (Green.fluxes g) = 0.0)
  /\ (Driver.BeginEnvrnFlag (Env.driver e) = false
      \/ Green.MyEnvrnFlag (World.green w) = false ->
      water = World.water w
      /\ Green.temps g = Green.temps (World.green w)
      /\ Green.fluxes g = Green.fluxes (World.green w)).
Proof.
  cbv zeta. split; [|split].
  - destruct (GreenRoof_green_reference e fr w SurfNum ZoneNum ConstrNum)
      as (_ & _ & _ & Hflag).
    cbv zeta in Hflag. rewrite Hflag.
    unfold GreenRoof_entry, green_reset_environment, green_reset_moisture.
    destruct (World.EcoRoofbeginFlag w); cbn [green_first_entry Green.MyEnvrnFlag];
      destruct (Driver.BeginEnvrnFlag (Env.driver e));
      destruct (Driver.WarmupFlag (Env.driver e));
      destruct (Green.MyEnvrnFlag (World.green w)); reflexivity.
  - intros Hb Hf. unfold GreenRoof_entry, green_reset_environment, green_reset_moisture.
    rewrite Hb. cbn [orb].
    destruct (World.EcoRoofbeginFlag w);
      cbn [green_first_entry Green.MyEnvrnFlag fst snd Green.temps Green.fluxes];
      rewrite Hf; cbn [andb Green.temps Green.fluxes Green.T_plant Green.T_soil
                       Green.T_bare_soil Green.Vfluxf Green.Vfluxg];
      repeat split.
  - intros H. unfold GreenRoof_entry, green_reset_environment, green_reset_moisture.
    destruct (World.EcoRoofbeginFlag w);
      destruct (Driver.BeginEnvrnFlag (Env.driver e)) eqn:Hb;
      destruct (Driver.WarmupFlag (Env.driver e));
      cbn [orb andb green_first_entry Green.MyEnvrnFlag fst snd Green.temps Green.fluxes];
      destruct H as [H|H]; try discriminate H; try rewrite H;
      cbn [andb fst snd Green.temps Green.fluxes]; repeat split.
Qed.

(** ** The bracket of the bisection *)

Lemma sign_change_sym (a b : R) : sign_change a b = sign_change b a.
Proof.
  unfold sign_change, Rltb, Rgtb.
  destruct (Rlt_dec a 0.0), (Rgt_dec b 0.0), (Rgt_dec a 0.0), (Rlt_dec b 0.0);
    reflexivity.
Qed.

Section BracketKept.

Variable Func : R -> R.
Variables s_iter s_prev : R.

Hypothesis entry_sign_change : sign_change (Func s_iter) (Func s_prev) = true.

(** What the first pass loads, and what every pass keeps. *)
Lemma bisect_pass_bracket (b : Bisect.t) :
  (Bisect.iter_Mid b = 0%Z \/ bisect_bracket Func b) ->
  bisect_bracket Func (bisect_pass Func (Func s_iter) (Func s_prev) s_iter s_prev b).
Proof.
  intros H. unfold bisect_pass.
  set (first := (Bisect.iter_Mid b + 1 =? 1)%Z).
  set (F1 := if first then Func s_iter else Bisect.Func_1 b).
  set (F2 := if first then Func s_prev else Bisect.Func_2 b).
  set (S1 := if first then s_iter else Bisect.Sol_1 b).
  set (S2 := if first then s_prev else Bisect.Sol_2 b).
  set (m := if (Bisect.iter_Mid b + 1 >? 1)%Z then Bisect.T_new b else Bisect.MidPoint b).
  assert (Hbr : F1 = Func S1 /\ F2 = Func S2 /\ sign_change F1 F2 = true).
  { subst F1 F2 S1 S2 first. destruct H as [H0|(H1 & H2 & H3)].
    - rewrite H0. cbn. repeat split. exact entry_sign_change.
    - destruct (Z.eqb_spec (Bisect.iter_Mid b + 1) 1) as [E|E].
      + repeat split. exact entry_sign_change.
      + repeat split; assumption. }
  destruct Hbr as (E1 & E2 & E3).
  destruct (sign_change (Func m) F1) eqn:C1; [|destruct (sign_change (Func m) F2) eqn:C2];
    unfold bisect_bracket; cbn [Bisect.Func_1 Bisect.Func_2 Bisect.Sol_1 Bisect.Sol_2].
  - split; [exact E1|]. split; [reflexivity|].
    rewrite sign_change_sym. exact C1.
  - split; [reflexivity|]. split; [exact E2|exact C2].
  - split; [exact E1|]. split; [exact E2|exact E3].
Qed.

Lemma bisect_loop_bracket (passes : nat) :
  forall b : Bisect.t,
  (Bisect.iter_Mid b = 0%Z \/ bisect_bracket Func b) ->
  bisect_bracket Func
    (bisect_loop Func passes (Func s_iter) (Func s_prev) s_iter s_prev b).
Proof.
  induction passes as [|k IH]; intros b H; rewrite bisect_loop_unfold; cbv zeta;
    pose proof (bisect_pass_bracket b H) as Hb;
    destruct (Rgtb _ _); try exact Hb.
  apply IH. right. exact Hb.
Qed.

End BracketKept.

(** X16.  Entered with function values of opposite signs at its two points, the
    bisection ends with a bracket of the same kind: [Func_1] and [Func_2]
    are the values of the function at [Sol_1] and [Sol_2] and differ in
    sign. *)
Theorem bisection_keeps_sign_change
    (Func : R -> R) (s_iter s_prev MidPoint T_new : R) :
  sign_change (Func s_iter) (Func s_prev) = true ->
  bisect_bracket Func
    (bisection Func (Func s_iter) (Func s_prev) s_iter s_prev MidPoint T_new).
Proof.
  intros H. unfold bisection. apply bisect_loop_bracket; [exact H|].
  left. reflexivity.
Qed.

Lemma bisection_keeps_sign_change_sample :
  bisect_bracket mirror_Func
    (bisection mirror_Func (mirror_Func (-1)) (mirror_Func 1) (-1) 1 0 1).
Proof.
  apply (bisection_keeps_sign_change mirror_Func (-1) 1 0 1).
  unfold sign_change, mirror_Func, Rltb, Rgtb. decide_R; reflexivity.
Defined.

(** ** The convective coefficients in still air *)

Lemma Reynolds_still (e : Env.t) (SurfNum : Z) : Reynolds e SurfNum 0 = 0.
Proof. unfold Reynolds, Rdiv. rewrite !Rmult_0_l. reflexivity. Qed.

Lemma Grashof_no_difference (e : Env.t) (SurfNum : Z) (T : R) : Grashof e SurfNum T T = 0.
Proof.
  unfold Grashof. replace (T - T) with 0 by lra.
  unfold Rdiv. rewrite Rmult_0_r, !Rmult_0_l. apply Rabs_R0.
Qed.

Lemma still_thresholds :
  0.068 * std_pow 0 2.2 = 0 /\ 55.3 * std_pow 0 (IZR (5 / 3)) = 0.
Proof.
  change (IZR (5 / 3)) with 1.
  rewrite !std_pow_zero_base by lra. split; lra.
Qed.

(** X17.  Without wind the Reynolds number is zero and so are the thresholds of
    the three tests.  With the surface at the air temperature the Grashof
    number is zero too, no test holds, and [h_conv] and [h_conv_bare]
    return their result variable as it was, never assigned.  With any
    other surface temperature only the natural test holds and the result
    is [3 * 0.15 * k_air1 / L_cha] (with 2.1 for 3 over bare soil), the same
    whatever the temperature difference. *)
Theorem h_conv_in_still_air
    (junk : R) (e : Env.t) (SurfNum : Z) (Tair_k surface_temp k_air1 : R) :
  (surface_temp = Tair_k ->
   h_conv junk e SurfNum Tair_k surface_temp 0 k_air1 = junk
   /\ h_conv_bare junk e SurfNum Tair_k surface_temp 0 k_air1 = junk)
  /\ (0 < Grashof e SurfNum Tair_k surface_temp ->
      h_conv junk e SurfNum Tair_k surface_temp 0 k_air1
      = 3 * 0.15 * k_air1 / L_cha e SurfNum
      /\ h_conv_bare junk e SurfNum Tair_k surface_temp 0 k_air1
         = 2.1 * 0.15 * k_air1 / L_cha e SurfNum).
Proof.
  destruct still_thresholds as [Hf Hn].
  split.
  - intros ->. unfold h_conv, h_conv_bare.
    rewrite Reynolds_still, Grashof_no_difference, Hf, Hn.
    destruct (Rlt_dec 0 0); [lra|]. destruct (Rgt_dec 0 0); [lra|].
    split; reflexivity.
  - intros HGr. unfold h_conv, h_conv_bare.
    rewrite Reynolds_still, Hn.
    destruct (Rgt_dec (Grashof e SurfNum Tair_k surface_temp) 0); [|lra].
    rewrite std_pow_zero_exponent. split; lra.
Qed.

(** ** Constants of the flux block of [CalcEcoRoof] *)

Lemma Rpower_negative_antitone (a b y : R) :
  0 < a -> a <= b -> y < 0 -> Rpower b y <= Rpower a y.
Proof.
  intros Ha Hab Hy. unfold Rpower.
  destruct (Rle_lt_or_eq_dec a b Hab) as [Hlt|Heq].
  - left. apply exp_increasing.
    assert (ln a < ln b) by (apply ln_increasing; lra). nra.
  - rewrite Heq. apply Rle_refl.
Qed.

(** X18.  The stability factor is positive and bounded: below 1 for a negative
    Richardson number, between 1 and [0.05 ^ (-0.5)], about 4.47, for a
    non-negative one, and constant from 0.19 on, where the number is
    capped. *)
Theorem Gammah_of_bounded (Rib : R) :
  0 < Gammah_of Rib
  /\ (Rib < 0 -> Gammah_of Rib < 1)
  /\ (0 <= Rib -> 1 <= Gammah_of Rib <= Rpower 0.05 (- 0.5))
  /\ (0.19 <= Rib -> Gammah_of Rib = Rpower 0.05 (- 0.5)).
Proof.
  unfold Gammah_of.
  destruct (Rlt_dec Rib 0.0) as [Hneg|Hpos].
  - rewrite std_pow_positive_base by lra.
    split; [apply Rpower_positive|]. split; [|split; intros; lra].
    intros _. rewrite <- (Rpower_one_base (- 0.5)).
    assert (Hb : 1 < 1.0 - 16.0 * Rib) by lra.
    unfold Rpower. apply exp_increasing.
    rewrite ln_1.
    assert (0 < ln (1.0 - 16.0 * Rib)) by (rewrite <- ln_1; apply ln_increasing; lra).
    nra.
  - destruct (Rge_dec Rib 0.19) as [Hcap|Hfree].
    + replace (1.0 - 5.0 * 0.19) with 0.05 by lra.
      rewrite std_pow_positive_base by lra.
      split; [apply Rpower_positive|]. split; [intros; lra|].
      assert (H1 : 1 <= Rpower 0.05 (- 0.5)).
      { rewrite <- (Rpower_one_base (- 0.5)) at 1.
        apply Rpower_negative_antitone; lra. }
      split; [intros _; split; [exact H1|apply Rle_refl]|reflexivity].
    + rewrite std_pow_positive_base by lra.
      split; [apply Rpower_positive|]. split; [intros; lra|].
      split; [|intros; lra].
      intros _. split.
      * rewrite <- (Rpower_one_base (- 0.5)) at 1.
        apply Rpower_negative_antitone; lra.
      * apply Rpower_negative_antitone; lra.
Qed.

(** X19.  Whatever it is given, the flux block of [CalcEcoRoof] works with a
    vapour-deficit factor [f3] equal to 1 (its exponent is multiplied by
    zero) and with a ground roughness length between 0.8 mm and 5 mm, below
    the reference height [Za]; for a non-negative leaf area index the
    vegetation cover [sigmaf] lies between 0.2 and 0.9. *)
Theorem calc_fluxes_constants
    (e : Env.t) (k : Calc.t) (SurfNum ZoneNum ConstrNum RoughSurf : Z)
    (Ws RS Latm Tfold Tgold Moisture MeanRootMoisture Alphag : R) :
  let fb :=
    calc_fluxes e k SurfNum ZoneNum ConstrNum RoughSurf Ws RS Latm Tfold Tgold
      Moisture MeanRootMoisture Alphag in
  FluxBlock.f3 fb = 1
  /\ 0.0008 <= FluxBlock.Zog fb <= 0.005
  /\ FluxBlock.Zog fb < Za
  /\ (0 <= Calc.LAI k -> 0.2 <= Coef.sigmaf (FluxBlock.coef fb) < 0.9).
Proof.
  intros fb. subst fb. unfold calc_fluxes.
  destruct (conduction_terms e SurfNum ZoneNum ConstrNum) as [Q1 Q2].
  cbn [FluxBlock.f3 FluxBlock.Zog FluxBlock.coef Coef.sigmaf].
  split; [|split; [|split]].
  - match goal with
    | |- 1.0 / exp ?x = 1 => replace x with 0 by lra
    end.
    rewrite exp_0. lra.
  - unfold Zog_of.
    repeat match goal with
    | |- context [Z.eq_dec ?a ?b] => destruct (Z.eq_dec a b)
    end; lra.
  - unfold Zog_of, Za.
    repeat match goal with
    | |- context [Z.eq_dec ?a ?b] => destruct (Z.eq_dec a b)
    end; lra.
  - intros HL.
    assert (He : 0 < exp (- 0.75 * Calc.LAI k) <= 1).
    { split; [apply exp_pos|].
      destruct (Rle_lt_or_eq_dec 0 (Calc.LAI k) HL) as [Hlt|Heq].
      - left. rewrite <- exp_0. apply exp_increasing. lra.
      - rewrite <- Heq. replace (- 0.75 * 0) with 0 by lra. rewrite exp_0. lra. }
    lra.
Qed.

(** ** The cap on the water entering the soil *)

(** X20.  With a positive top depth, rain and irrigation together raise the top
    layer in one step by at most 0.5 inch per hour of water
    ([0.5 * 0.0254 * MinutesPerTimeStep / 60] metres): what exceeds it is
    counted as runoff, as is what would take the layer above the porosity,
    and the input stage never lowers the runoff below zero. *)
Theorem soil_inputs_rate_cap
    (d : Driver.t) (s : SoilStatics.t)
    (MoistureMax Vfluxf Vfluxg Moisture MeanRootMoisture : R) :
  0 < SoilStatics.TopDepth s ->
  let w := soil_inputs d s MoistureMax Vfluxf Vfluxg Moisture MeanRootMoisture in
  let inputs := water_inputs d s MoistureMax Vfluxf Vfluxg Moisture MeanRootMoisture in
  let supply := fst inputs + snd inputs in
  let limit := 0.5 * 0.0254 * IZR (Driver.MinutesPerTimeStep d) / 60.0 in
  let dried :=
    Moisture - Vfluxg * IZR (Driver.MinutesPerTimeStep d) * 60.0 / SoilStatics.TopDepth s in
  Soil.Moisture w <= dried + Rmin supply limit / SoilStatics.TopDepth s
  /\ Soil.Moisture w <= MoistureMax
  /\ Rmax 0 (supply - limit) <= Soil.CurrentRunoff w
  /\ Soil.CurrentRunoff w
     = supply - (Soil.Moisture w - dried) * SoilStatics.TopDepth s.
Proof.
  intros HT w inputs supply limit dried. subst dried limit supply inputs w.
  unfold soil_inputs, water_inputs, after_evaporation, precipitation_of.
  cbn [fst snd].
  set (T := SoilStatics.TopDepth s) in *.
  set (I := irrigation_of d MoistureMax _).
  set (M := IZR (Driver.MinutesPerTimeStep d)).
  assert (HiT : 0 < / T) by (apply Rinv_0_lt_compat; exact HT).
  assert (Hmul : forall x, x / T * T = x) by (intros x; field; lra).
  assert (Hmono : forall x y, x <= y -> x / T <= y / T)
    by (intros x y Hxy; apply Rmult_le_compat_r; lra).
  destruct (Driver.RainFall_ModeID d).
  - set (P := 0.0).
    destruct (Rgt_dec (I + P) (0.5 * 0.0254 * M / 60.0)) as [Hc|Hc];
      destruct (Rgt_dec _ MoistureMax) as [Hs|Hs];
      cbn [Soil.Moisture Soil.CurrentRunoff];
      unfold Rmin, Rmax;
      repeat match goal with
      | |- context [Rle_dec ?a ?b] => destruct (Rle_dec a b)
      end;
      repeat split;
      try (pose proof (Hmul (I + P - 0.5 * 0.0254 * M / 60.0)));
      try (pose proof (Hmul I)); try (pose proof (Hmul (P + I)));
      try (pose proof (Hmul (0.5 * 0.0254 * M / 60.0)));
      try (unfold P in *; nra).
  - set (P := Driver.RainFall_CurrentAmount d).
    destruct (Rgt_dec (I + P) (0.5 * 0.0254 * M / 60.0)) as [Hc|Hc];
      destruct (Rgt_dec _ MoistureMax) as [Hs|Hs];
      cbn [Soil.Moisture Soil.CurrentRunoff];
      unfold Rmin, Rmax;
      repeat match goal with
      | |- context [Rle_dec ?a ?b] => destruct (Rle_dec a b)
      end;
      repeat split;
      try (pose proof (Hmul (I + P - 0.5 * 0.0254 * M / 60.0)));
      try (pose proof (Hmul I)); try (pose proof (Hmul P));
      try (pose proof (Hmul (0.5 * 0.0254 * M / 60.0)));
      try nra.
Qed.

Lemma soil_inputs_rate_cap_sample :
  let w := soil_inputs (dry_driver 15) (sample_statics 15) 0.5 0.0 1e-7 0.1 0.11 in
  Soil.Moisture w <= 0.5
  /\ Rmax 0 (fst (water_inputs (dry_driver 15) (sample_statics 15) 0.5 0.0 1e-7 0.1 0.11)
             + snd (water_inputs (dry_driver 15) (sample_statics 15) 0.5 0.0 1e-7 0.1 0.11)
             - 0.5 * 0.0254 * IZR (Driver.MinutesPerTimeStep (dry_driver 15)) / 60.0)
     <= Soil.CurrentRunoff w.
Proof.
  assert (HT : 0 < SoilStatics.TopDepth (sample_statics 15)) by (simpl; lra).
  destruct (soil_inputs_rate_cap (dry_driver 15) (sample_statics 15)
              0.5 0.0 1e-7 0.1 0.11 HT) as (_ & H2 & H3 & _).
  split; [exact H2|exact H3].
Defined.

(** ** The blend of the two soil solutions *)

Lemma weighted_mean_between (s a b : R) :
  0 <= s <= 1 -> Rmin a b <= s * a + (1 - s) * b <= Rmax a b.
Proof.
  intros [H0 H1]. unfold Rmin, Rmax. destruct (Rle_dec a b); split; nra.
Qed.

(** X21.  With a plant coverage between 0 and 1, every blended quantity of
    [GreenRoof_with_PlantCoverage] lies between its vegetated and its
    bare-soil component: the soil temperature [Tsoil_avg], the latent flux
    [Q_E_avg] and the reported averages of the convective, latent, solar
    and infra-red fluxes; the reported soil temperature is [TempExt]. *)
Theorem GreenRoof_blend_between
    (e : Env.t) (fr : Frame.t) (w : World.t) (SurfNum ZoneNum ConstrNum : Z) :
  let g0 := snd (GreenRoof_entry e w SurfNum (storm_construction e SurfNum ConstrNum)) in
  let r := GreenRoof_with_PlantCoverage e fr w SurfNum ZoneNum ConstrNum in
  let g := World.green (fst (fst r)) in
  let t := Green.temps g in
  let x := Green.fluxes g in
  let rep := Green.reports g in
  0 <= Green.sigma_f (Green.props g0) <= 1 ->
  Rmin (Green.T_soil t) (Green.T_bare_soil t) <= Green.Tsoil_avg t
    <= Rmax (Green.T_soil t) (Green.T_bare_soil t)
  /\ Rmin (Green.Q_E_s x) (Green.Q_E_bare_s x) <= Green.Q_E_avg x
     <= Rmax (Green.Q_E_s x) (Green.Q_E_bare_s x)
  /\ Rmin (Green.Qconv_s_Rep rep) (Green.Qconv_bare_s_Rep rep) <= Green.Qconv_s_avg_Rep rep
     <= Rmax (Green.Qconv_s_Rep rep) (Green.Qconv_bare_s_Rep rep)
  /\ Rmin (Green.Q_E_s_Rep rep) (Green.Q_E_bare_s_Rep rep) <= Green.Q_E_avg_Rep rep
     <= Rmax (Green.Q_E_s_Rep rep) (Green.Q_E_bare_s_Rep rep)
  /\ Rmin (Green.Q_sol_soil_Rep rep) (Green.Q_sol_bare_s_Rep rep)
     <= Green.Q_sol_s_avg_Rep rep
     <= Rmax (Green.Q_sol_soil_Rep rep) (Green.Q_sol_bare_s_Rep rep)
  /\ Rmin (Green.Q_IR_s_Rep rep) (Green.Q_IR_bare_s_Rep rep) <= Green.Q_IR_s_avg_Rep rep
     <= Rmax (Green.Q_IR_s_Rep rep) (Green.Q_IR_bare_s_Rep rep)
  /\ Green.Tsoil_avg_Rep rep = snd r.
Proof.
  intros g0 r g t x rep Hs. subst rep x t g r.
  unfold GreenRoof_with_PlantCoverage. fold g0.
  cbn [fst snd World.green Green.temps Green.fluxes Green.reports].
  unfold green_reports.
  cbn [Green.Qconv_s_Rep Green.Qconv_bare_s_Rep Green.Qconv_s_avg_Rep Green.Q_E_s_Rep
       Green.Q_E_bare_s_Rep Green.Q_E_avg_Rep Green.Q_sol_soil_Rep Green.Q_sol_bare_s_Rep
       Green.Q_sol_s_avg_Rep Green.Q_IR_s_Rep Green.Q_IR_bare_s_Rep Green.Q_IR_s_avg_Rep
       Green.Tsoil_avg_Rep].
  match goal with
  | |- context [green_solve ?a1 ?a2 ?a3 ?a4 ?a5 ?a6 ?a7 ?a8 ?a9 ?a10 ?a11 ?a12 ?a13 ?a14 ?a15 ?a16] =>
      set (s := green_solve a1 a2 a3 a4 a5 a6 a7 a8 a9 a10 a11 a12 a13 a14 a15 a16)
  end.
  assert (Ht : Green.Tsoil_avg (Solved.temps s)
               = Green.sigma_f (Green.props g0) * Green.T_soil (Solved.temps s)
                 + (1 - Green.sigma_f (Green.props g0)) * Green.T_bare_soil (Solved.temps s))
    by reflexivity.
  assert (Hx : Green.Q_E_avg (Solved.fluxes s)
               = Green.sigma_f (Green.props g0) * Green.Q_E_s (Solved.fluxes s)
                 + (1 - Green.sigma_f (Green.props g0)) * Green.Q_E_bare_s (Solved.fluxes s))
    by reflexivity.
  rewrite Ht, Hx.
  repeat (split; [apply weighted_mean_between; exact Hs|]).
  unfold s. reflexivity.
Qed.

Lemma GreenRoof_blend_between_sample :
  let r := GreenRoof_with_PlantCoverage warm_env sample_frame fresh_world 1 1 1 in
  let t := Green.temps (World.green (fst (fst r))) in
  Rmin (Green.T_soil t) (Green.T_bare_soil t) <= Green.Tsoil_avg t
    <= Rmax (Green.T_soil t) (Green.T_bare_soil t).
Proof.
  assert (Hs : 0 <= Green.sigma_f
                      (Green.props
                         (snd (GreenRoof_entry warm_env fresh_world 1
                                 (storm_construction warm_env 1 1)))) <= 1).
  { destruct (GreenRoof_entry_reference warm_env fresh_world 1
                (storm_construction warm_env 1 1)) as [_ Hp].
    cbv zeta in Hp. rewrite Hp. cbn. lra. }
  exact (proj1 (GreenRoof_blend_between warm_env sample_frame fresh_world 1 1 1 Hs)).
Defined.

(** ** A solve started at a root *)

(** X22.  A solve started where the balance function is zero and its
    derivative is not returns the starting temperature after its first
    pass. *)
Theorem root_find_at_a_root
    (Func Func_prim : R -> R) (T_start : R) (Solution1 Func1 : Z -> R) :
  Func T_start = 0 ->
  Func_prim T_start <> 0 ->
  root_find Func Func_prim T_start Solution1 Func1 = T_start.
Proof.
  intros H0 Hp. unfold root_find.
  assert (Hstep : newton_step Func Func_prim T_start = T_start).
  { unfold newton_step. rewrite H0. unfold Rdiv. rewrite Rmult_0_l. lra. }
  rewrite newton_converged; [exact Hstep|lia|].
  rewrite Hstep. replace (T_start - T_start) with 0 by lra. rewrite Rabs_R0. lra.
Qed.

Lemma root_find_at_a_root_sample :
  root_find mirror_Func mirror_prim 0 (fun _ => 0) (fun _ => 0) = 0.
Proof.
  apply (root_find_at_a_root mirror_Func mirror_prim 0);
    unfold mirror_Func, mirror_prim; lra.
Defined.

(** * The real domain of the soil update, the solves and the two routines *)

(** ** The unsaturated-flow law within and outside the real domain *)

Lemma Rpower_at_least_one (x y : R) : 1 <= x -> 0 <= y -> 1 <= Rpower x y.
Proof.
  intros Hx Hy. rewrite <- (Rpower_one_base y) at 1.
  apply Rle_Rpower_l; lra.
Qed.

(** For a relative saturation in (0, 1] every power of lines 1780-1781
    (and 1785-1786) is taken within the domain of [std::pow], and the
    quotient [1.0 / RelativeSoilSaturation] has a non-zero divisor. *)
Lemma saturation_powers_defined (r : R) :
  0 < r <= 1 ->
  std_pow_defined r lambda
  /\ std_pow_defined r (n / (n - 1.0))
  /\ std_pow_defined (1.0 - std_pow r (n / (n - 1.0))) ((n - 1.0) / n)
  /\ std_pow_defined (1.0 / r) (n / (n - 1.0))
  /\ std_pow_defined (std_pow (1.0 / r) (n / (n - 1.0)) - 1.0) (1.0 / n).
Proof.
  intros [H0 H1].
  assert (Hinv : 1 <= 1.0 / r).
  { apply (Rmult_le_reg_r r); [exact H0|].
    unfold Rdiv. rewrite Rmult_assoc, Rinv_l by lra. lra. }
  rewrite exponent_n_ratio, exponent_n_inverse_ratio, exponent_inverse_n.
  rewrite !std_pow_positive_base by lra.
  split; [left; exact H0|]. split; [left; exact H0|]. split; [|split].
  - assert (Hp : Rpower r (127 / 27) <= 1) by (apply Rpower_at_most_one; lra).
    destruct (Rle_lt_or_eq_dec _ _ Hp) as [Hlt|Heq].
    + left. lra.
    + right. left. split; lra.
  - left. lra.
  - assert (Hp : 1 <= Rpower (1.0 / r) (127 / 27)) by (apply Rpower_at_least_one; lra).
    destruct (Rle_lt_or_eq_dec _ _ Hp) as [Hlt|Heq].
    + left. lra.
    + right. left. split; lra.
Qed.

(** In the domain of the law both relative saturations are in (0, 1]. *)
Lemma unsaturated_flow_saturations (MoistureMax MoistureResidual : R) (w : Soil.t) :
  unsaturated_flow_defined MoistureMax MoistureResidual w ->
  0 < RelativeSoilSaturationTop MoistureMax MoistureResidual (Soil.Moisture w) <= 1
  /\ 0 < RelativeSoilSaturationRoot MoistureMax MoistureResidual (Soil.MeanRootMoisture w)
     <= 1.
Proof.
  intros (Hd & Ht & Hr0 & Hr1).
  assert (Hi : 0 < / (MoistureMax - MoistureResidual)) by (apply Rinv_0_lt_compat; lra).
  assert (Hq : forall x, x <= MoistureMax ->
                 (x - MoistureResidual) / (MoistureMax - MoistureResidual) <= 1).
  { intros x Hx. apply (Rmult_le_reg_r (MoistureMax - MoistureResidual)); [lra|].
    replace ((x - MoistureResidual) / (MoistureMax - MoistureResidual)
             * (MoistureMax - MoistureResidual))
      with (x - MoistureResidual) by (field; lra).
    lra. }
  split.
  - unfold RelativeSoilSaturationTop.
    destruct (Rlt_dec _ 0.0001) as [Hf|Hf]; [lra|].
    split; [lra|apply Hq; exact Ht].
  - unfold RelativeSoilSaturationRoot. split; [|apply Hq; exact Hr1].
    apply Rmult_lt_0_compat; lra.
Qed.

Lemma half_is_no_integer (k : Z) : 0.5 <> IZR k.
Proof.
  intros H. assert (H2 : IZR (2 * k) = IZR 1) by (rewrite mult_IZR; lra).
  apply eq_IZR in H2. lia.
Qed.

Lemma exponent_ratio_is_no_integer (k : Z) : n / (n - 1.0) <> IZR k.
Proof.
  rewrite exponent_n_ratio. intros H.
  assert (H2 : IZR (27 * k) = IZR 127) by (rewrite mult_IZR; lra).
  apply eq_IZR in H2. lia.
Qed.

(** A negative base with an exponent that is no integer is outside the
    domain. *)
Lemma std_pow_undefined (x y : R) :
  x < 0 -> (forall k : Z, y <> IZR k) -> ~ std_pow_defined x y.
Proof.
  intros Hx Hy [H|[[H _]|(k & Hk & _)]]; [lra|lra|]. exact (Hy k Hk).
Qed.

Lemma sample_inputs_thirsty :
  Soil.MeanRootMoisture
    (soil_inputs (dry_driver 15) (sample_statics 15) 0.5 2e-7 0.0 0.2 0.101)
  = 0.101 - 2e-7 * 15 * 60.0 / 0.14.
Proof.
  destruct (soil_inputs_capped (dry_driver 15) (sample_statics 15) 0.5 2e-7 0.0 0.2 0.101)
    as [_ H].
  rewrite H. reflexivity.
Qed.

(** C7, at a failing input.  Under the unsaturated-flow law a 15-minute
    dry step of the sample roof entered within bounds, top layer at 0.2
    and root zone at 0.101 with a transpiration rate of 2e-7 m/s, takes
    the root zone below the residual moisture 0.1 before the law is
    applied: its relative saturation, which line 1784 does not floor, is
    negative, and the powers that lines 1785 and 1786 take of it with the
    exponents [lambda] and [n / (n - 1)] are outside the domain of
    [std::pow].  The soil state is the one from which the call computes
    its moistures. *)
Theorem UpdateSoilProps_root_saturation_leaves_domain :
  let u :=
    UpdateSoilProps (dry_driver 15) SoilStatics_initial Water_initial
      (fun _ => sample_material 2) 0.2 0.101 0.5 0.1 0.2 2e-7 0.0 1 0.3 in
  let s := SoilUpdate.statics u in
  let entering := soil_inputs (dry_driver 15) s 0.5 2e-7 0.0 0.2 0.101 in
  let r := RelativeSoilSaturationRoot 0.5 0.1 (Soil.MeanRootMoisture entering) in
  (0.1 <= 0.2 <= 0.5 /\ 0.1 <= 0.101 <= 0.5 /\ 0 <= 2e-7)
  /\ Material.EcoRoofCalculationMethod (sample_material 2) <> 1%Z
  /\ SoilUpdate.Moisture u
     = Soil.Moisture (root_floor s 0.1 (redistribute_unsaturated s 0.5 0.1 entering))
  /\ Soil.MeanRootMoisture entering < 0.1
  /\ r < 0
  /\ ~ std_pow_defined r lambda
  /\ ~ std_pow_defined r (n / (n - 1.0))
  /\ ~ unsaturated_flow_defined 0.5 0.1 entering.
Proof.
  intros u s entering r.
  assert (Hs : s = sample_statics 15).
  { subst s u. rewrite UpdateSoilProps_statics. apply sample_begin. }
  assert (Hroot : Soil.MeanRootMoisture entering < 0.1).
  { subst entering. rewrite Hs, sample_inputs_thirsty. lra. }
  assert (Hr : r < 0).
  { subst r. unfold RelativeSoilSaturationRoot.
    assert (Hi : 0 < / (0.5 - 0.1)) by (apply Rinv_0_lt_compat; lra).
    unfold Rdiv. nra. }
  split; [lra|]. split; [cbn; lia|]. split; [|split; [exact Hroot|split; [exact Hr|]]].
  - destruct (UpdateSoilProps_moistures (dry_driver 15) SoilStatics_initial Water_initial
                (fun _ => sample_material 2) 0.2 0.101 0.5 0.1 0.2 2e-7 0.0 1 0.3)
      as [Hm _].
    cbv zeta in Hm. fold u in Hm. fold s in Hm. rewrite Hm.
    unfold soil_moisture_step, redistribute. cbn [sample_material Material.EcoRoofCalculationMethod].
    destruct (Z.eq_dec 2 1) as [E|_]; [discriminate E|]. reflexivity.
  - split; [|split].
    + apply std_pow_undefined; [exact Hr|]. unfold lambda. apply half_is_no_integer.
    + apply std_pow_undefined; [exact Hr|]. apply exponent_ratio_is_no_integer.
    + intros (_ & _ & H & _). lra.
Qed.

(** Within the real domain the rate limit holds.  For a call of
    [UpdateSoilProps] with a non-negative time step whose quotients and
    powers are real ([UpdateSoilProps_defined]), the stored conductivity,
    density and specific heat of the material and the ground albedo
    [Alphag] are each their previous value times a factor within
    [1 - 0.20*MinutesPerTimeStep/15, 1 + 0.20*MinutesPerTimeStep/15]. *)
Lemma UpdateSoilProps_rate_limited
    (d : Driver.t) (s0 : SoilStatics.t) (w0 : Water.t) (ms : Materials)
    (Moisture MeanRootMoisture MoistureMax MoistureResidual SoilThickness
     Vfluxf Vfluxg : R) (ConstrNum : Z) (Alphag : R) :
  (0 <= Driver.MinutesPerTimeStep d)%Z ->
  let u :=
    UpdateSoilProps d s0 w0 ms Moisture MeanRootMoisture MoistureMax
      MoistureResidual SoilThickness Vfluxf Vfluxg ConstrNum Alphag in
  let old := ms ConstrNum in
  let new := SoilUpdate.materials u ConstrNum in
  let in_band (r : R) := 1 - 0.20 * IZR (Driver.MinutesPerTimeStep d) / 15
                         <= r <= 1 + 0.20 * IZR (Driver.MinutesPerTimeStep d) / 15 in
  UpdateSoilProps_defined d (SoilUpdate.statics u) old Moisture MeanRootMoisture
    MoistureMax MoistureResidual SoilThickness Vfluxf Vfluxg Alphag ->
  (exists r, in_band r /\ Material.Conductivity new = Material.Conductivity old * r)
  /\ (exists r, in_band r /\ Material.Density new = Material.Density old * r)
  /\ (exists r, in_band r /\ Material.SpecHeat new = Material.SpecHeat old * r)
  /\ (exists r, in_band r /\ SoilUpdate.Alphag u = Alphag * r).
Proof.
  intros Hm u old new in_band _.
  assert (band : forall t, in_band (limit_TestRatio d t)).
  { intro t. pose proof (limit_TestRatio_in_band d t Hm) as H.
    unfold in_band. unfold RatioMin, RatioMax in H. lra. }
  subst new u. unfold UpdateSoilProps, water_inputs. cbn [SoilUpdate.materials SoilUpdate.Alphag].
  rewrite set_material_same.
  unfold update_material, update_Alphag, with_SpecHeat, with_Density, with_Conductivity.
  cbn [Material.Conductivity Material.Density Material.SpecHeat].
  repeat split; eexists; (split; [apply band | reflexivity]).
Qed.

(** The rate limit on a 15-minute step of the sample roof under the
    unsaturated-flow law, entered with the root zone above the residual
    moisture. *)
Lemma UpdateSoilProps_rate_limited_sample :
  let d := dry_driver 15 in
  let u :=
    UpdateSoilProps d SoilStatics_initial Water_initial (fun _ => sample_material 2)
      0.2 0.3 0.5 0.1 0.2 0.0 1e-7 1 0.3 in
  let in_band (r : R) := 1 - 0.20 * IZR (Driver.MinutesPerTimeStep d) / 15
                         <= r <= 1 + 0.20 * IZR (Driver.MinutesPerTimeStep d) / 15 in
  (exists r, in_band r /\ Material.Conductivity (SoilUpdate.materials u 1%Z)
                          = Material.Conductivity (sample_material 2) * r)
  /\ (exists r, in_band r /\ Material.Density (SoilUpdate.materials u 1%Z)
                             = Material.Density (sample_material 2) * r)
  /\ (exists r, in_band r /\ Material.SpecHeat (SoilUpdate.materials u 1%Z)
                             = Material.SpecHeat (sample_material 2) * r)
  /\ (exists r, in_band r /\ SoilUpdate.Alphag u = 0.3 * r).
Proof.
  apply (UpdateSoilProps_rate_limited (dry_driver 15) SoilStatics_initial Water_initial
           (fun _ => sample_material 2) 0.2 0.3 0.5 0.1 0.2 0.0 1e-7 1 0.3).
  - simpl. lia.
  - rewrite UpdateSoilProps_statics, sample_begin.
    destruct (soil_inputs_capped (dry_driver 15) (sample_statics 15) 0.5 0.0 1e-7 0.2 0.3)
      as [Hc Hr].
    unfold UpdateSoilProps_defined.
    do 8 (split; [cbn; lra|]).
    intros _. unfold unsaturated_flow_defined. rewrite Hr.
    split; [lra|]. split; [exact Hc|]. cbn. lra.
Defined.

(** ** The bisection between the last two Newton points *)

(** A value whose sign differs from neither of two values of opposite
    signs is zero. *)
Lemma sign_change_neither (m a b : R) :
  sign_change a b = true ->
  sign_change m a = false ->
  sign_change m b = false ->
  m = 0.
Proof.
  unfold sign_change, Rltb, Rgtb.
  destruct (Rlt_dec a 0.0), (Rgt_dec b 0.0), (Rgt_dec a 0.0), (Rlt_dec b 0.0),
    (Rlt_dec m 0.0), (Rgt_dec m 0.0); cbn; intros; try discriminate; lra.
Qed.

Section BisectionInside.

Variable Func : R -> R.
Variables s_iter s_prev lo hi : R.

Hypothesis entry_sign_change : sign_change (Func s_iter) (Func s_prev) = true.
Hypothesis s_iter_inside : lo <= s_iter <= hi.
Hypothesis s_prev_inside : lo <= s_prev <= hi.

(** How a pass ends: at a zero of the function, or with an end of the
    bracket moved to the middle, the gap tested being half the width of the
    new bracket. *)
Let ended (b : Bisect.t) : Prop :=
  Func (Bisect.T_new b) = 0 \/ bisect_gap b = 0.5 * bisect_width b.

(** A pass after the first keeps the bracket between [lo] and [hi]. *)
Lemma bisect_pass_inside (b : Bisect.t) :
  bisect_inside Func lo hi b ->
  let b' := bisect_pass Func (Func s_iter) (Func s_prev) s_iter s_prev b in
  bisect_inside Func lo hi b' /\ ended b'.
Proof.
  intros ((Hi & Hc) & (E1 & E2 & E3) & H1 & H2) b'. subst b' ended. unfold bisect_pass.
  destruct (Z.eqb_spec (Bisect.iter_Mid b + 1) 1) as [Heq|_]; [lia|].
  destruct (Z.gtb_spec (Bisect.iter_Mid b + 1) 1) as [_|Hle]; [|lia].
  set (m := Bisect.T_new b) in *.
  assert (Hm : lo <= m <= hi) by lra.
  destruct (sign_change (Func m) (Bisect.Func_1 b)) eqn:C1;
    [|destruct (sign_change (Func m) (Bisect.Func_2 b)) eqn:C2];
    unfold bisect_inside, bisect_centred, bisect_bracket, bisect_gap, bisect_width;
    cbn [Bisect.iter_Mid Bisect.T_new Bisect.Sol_1 Bisect.Sol_2 Bisect.MidPoint
         Bisect.Func_1 Bisect.Func_2].
  - split.
    + split; [split; [lia|lra]|].
      split; [|split; assumption].
      split; [exact E1|]. split; [reflexivity|]. rewrite sign_change_sym. exact C1.
    + right.
      replace (0.5 * (m + Bisect.Sol_1 b) - m) with (0.5 * (Bisect.Sol_1 b - m)) by lra.
      rewrite Rabs_mult, (Rabs_pos_eq 0.5) by lra. reflexivity.
  - split.
    + split; [split; [lia|lra]|].
      split; [|split; assumption].
      split; [reflexivity|]. split; [exact E2|exact C2].
    + right.
      replace (0.5 * (m + Bisect.Sol_2 b) - m) with (- (0.5 * (m - Bisect.Sol_2 b))) by lra.
      rewrite Rabs_Ropp, Rabs_mult, (Rabs_pos_eq 0.5) by lra. reflexivity.
  - split.
    + split; [split; [lia|exact Hc]|].
      split; [|split; assumption].
      split; [exact E1|]. split; [exact E2|exact E3].
    + left. fold m. exact (sign_change_neither _ _ _ E3 C1 C2).
Qed.

(** The first pass, entered with the middle of the two points at which the
    function is not zero, moves one of them there. *)
Lemma bisect_pass_first_inside (T_new : R) :
  Func (0.5 * (s_iter + s_prev)) <> 0 ->
  let b' :=
    bisect_pass Func (Func s_iter) (Func s_prev) s_iter s_prev
      (bisection_entry (Func s_iter) (Func s_prev) s_iter s_prev
         (0.5 * (s_iter + s_prev)) T_new) in
  bisect_inside Func lo hi b' /\ ended b'.
Proof.
  intros Hmid b'. subst b' ended. unfold bisect_pass, bisection_entry.
  cbn [Bisect.iter_Mid Bisect.MidPoint Bisect.T_new Bisect.Func_1 Bisect.Func_2
       Bisect.Sol_1 Bisect.Sol_2].
  change (0 + 1 =? 1)%Z with true. change (0 + 1 >? 1)%Z with false. cbv iota.
  set (m := 0.5 * (s_iter + s_prev)) in *.
  assert (Hm : lo <= m <= hi) by (unfold m; lra).
  destruct (sign_change (Func m) (Func s_iter)) eqn:C1;
    [|destruct (sign_change (Func m) (Func s_prev)) eqn:C2];
    unfold bisect_inside, bisect_centred, bisect_bracket, bisect_gap, bisect_width;
    cbn [Bisect.iter_Mid Bisect.T_new Bisect.Sol_1 Bisect.Sol_2 Bisect.MidPoint
         Bisect.Func_1 Bisect.Func_2].
  - split.
    + split; [split; [lia|lra]|].
      split; [|split; assumption].
      split; [reflexivity|]. split; [reflexivity|]. rewrite sign_change_sym. exact C1.
    + right.
      replace (0.5 * (m + s_iter) - m) with (0.5 * (s_iter - m)) by lra.
      rewrite Rabs_mult, (Rabs_pos_eq 0.5) by lra. reflexivity.
  - split.
    + split; [split; [lia|lra]|].
      split; [|split; assumption].
      split; [reflexivity|]. split; [reflexivity|exact C2].
    + right.
      replace (0.5 * (m + s_prev) - m) with (- (0.5 * (m - s_prev))) by lra.
      rewrite Rabs_Ropp, Rabs_mult, (Rabs_pos_eq 0.5) by lra. reflexivity.
  - exfalso. apply Hmid. exact (sign_change_neither _ _ _ entry_sign_change C1 C2).
Qed.

Lemma bisect_loop_inside (passes : nat) :
  forall b : Bisect.t,
  bisect_inside Func lo hi b ->
  let r := bisect_loop Func passes (Func s_iter) (Func s_prev) s_iter s_prev b in
  bisect_inside Func lo hi r /\ ended r.
Proof.
  induction passes as [|k IH]; intros b Hb; cbv zeta; rewrite bisect_loop_unfold; cbv zeta;
    pose proof (bisect_pass_inside b Hb) as Hp; cbv zeta in Hp;
    destruct (Rgtb _ _); try exact Hp.
  apply IH. exact (proj1 Hp).
Qed.

(** The bisection entered at the middle of two points of opposite signs,
    where the function is not zero, ends with a bracket between the two
    points whose ends still differ in sign and with the estimate at the
    middle of that bracket; the estimate is a zero of the function or the
    bracket is at most 0.0002 wide. *)
Lemma bisection_inside (T_new : R) :
  Func (0.5 * (s_iter + s_prev)) <> 0 ->
  let b :=
    bisection Func (Func s_iter) (Func s_prev) s_iter s_prev
      (0.5 * (s_iter + s_prev)) T_new in
  bisect_inside Func lo hi b
  /\ (Func (Bisect.T_new b) = 0 \/ bisect_width b <= 0.0002).
Proof.
  intros Hmid b.
  assert (Hgap : bisect_gap b <= 0.0001) by apply bisection_budget_suffices.
  assert (H : bisect_inside Func lo hi b /\ ended b).
  { subst b. unfold bisection, bisection_budget.
    match goal with |- context [(2 + ?K)%nat] => change (2 + K)%nat with (S (S K)) end.
    rewrite bisect_loop_unfold. cbv zeta.
    pose proof (bisect_pass_first_inside T_new Hmid) as Hp. cbv zeta in Hp.
    destruct (Rgtb _ _); [|exact Hp].
    apply bisect_loop_inside. exact (proj1 Hp). }
  destruct H as [Hin [Hz|Hw]].
  - split; [exact Hin|left; exact Hz].
  - split; [exact Hin|right]. lra.
Qed.

End BisectionInside.

(** ** A solve that ends through the bisection *)

Lemma skew_step_up : newton_step skew_Func skew_prim 1 = -1.
Proof.
  unfold newton_step, skew_Func, skew_prim.
  destruct (Rlt_dec 0 1) as [_|H]; [lra|exfalso; lra].
Qed.

Lemma skew_step_down : newton_step skew_Func skew_prim (-1) = 1.
Proof.
  unfold newton_step, skew_Func, skew_prim.
  destruct (Rlt_dec 0 (-1)) as [H|_]; [exfalso; lra|lra].
Qed.

Lemma skew_iterate (k : nat) :
  newton_iterate skew_Func skew_prim (2 * k) 1 = 1
  /\ newton_iterate skew_Func skew_prim (S (2 * k)) 1 = -1.
Proof.
  induction k as [|k [IH0 IH1]].
  - split; [reflexivity|]. cbn [Nat.mul newton_iterate]. apply skew_step_up.
  - replace (2 * S k)%nat with (S (S (2 * k))) by lia.
    assert (E : newton_iterate skew_Func skew_prim (S (S (2 * k))) 1 = 1).
    { cbn [newton_iterate] in *. rewrite IH1. apply skew_step_down. }
    split; [exact E|].
    change (newton_iterate skew_Func skew_prim (S (S (S (2 * k)))) 1)
      with (newton_step skew_Func skew_prim
              (newton_iterate skew_Func skew_prim (S (S (2 * k))) 1)).
    rewrite E. apply skew_step_up.
Qed.

Lemma skew_iterate_either (k : nat) :
  (newton_iterate skew_Func skew_prim k 1 = 1
   /\ newton_iterate skew_Func skew_prim (S k) 1 = -1)
  \/ (newton_iterate skew_Func skew_prim k 1 = -1
      /\ newton_iterate skew_Func skew_prim (S k) 1 = 1).
Proof.
  destruct (Nat.Even_or_Odd k) as [[j ->]|[j ->]].
  - left. exact (skew_iterate j).
  - right. replace (2 * j + 1)%nat with (S (2 * j)) by lia.
    split; [exact (proj2 (skew_iterate j))|].
    replace (S (S (2 * j))) with (2 * S j)%nat by lia.
    exact (proj1 (skew_iterate (S j))).
Qed.

Lemma skew_far_apart (k : nat) : far_apart skew_Func skew_prim k 1.
Proof.
  unfold far_apart.
  destruct (skew_iterate_either k) as [[E0 E1]|[E0 E1]]; rewrite E0, E1;
    unfold Rabs; destruct (Rcase_abs _); lra.
Qed.

Lemma skew_prim_nonzero (x : R) : skew_prim x <> 0.
Proof. unfold skew_prim. destruct (Rlt_dec 0 x); lra. Qed.

Lemma skew_last_points :
  newton_iterate skew_Func skew_prim 98 1 = 1
  /\ newton_iterate skew_Func skew_prim 99 1 = -1.
Proof. exact (skew_iterate 49). Qed.

Lemma skew_sign_change :
  sign_change (skew_Func (newton_iterate skew_Func skew_prim 99 1))
    (skew_Func (newton_iterate skew_Func skew_prim 98 1)) = true.
Proof.
  destruct skew_last_points as [E0 E1]. rewrite E0, E1.
  unfold sign_change, skew_Func, Rltb, Rgtb. decide_R; reflexivity.
Qed.

Lemma skew_middle :
  skew_Func (0.5 * (newton_iterate skew_Func skew_prim 99 1
                    + newton_iterate skew_Func skew_prim 98 1)) <> 0.
Proof.
  destruct skew_last_points as [E0 E1]. rewrite E0, E1. unfold skew_Func. lra.
Qed.

Section SolveResult.

Variable Func : R -> R.
Variable Func_prim : R -> R.

(** C2.  A solve started at [T_start] with the counter at zero, [x k] being
    the [k]-th Newton-Raphson estimate and the derivative being non-zero at
    every estimate from which a step is taken:
    - if pass [k + 1], one of the first 99, is the first whose estimate is
      within 0.0001 of the one before, the solve returns that estimate;
    - if none of the first 99 passes meets the tolerance, the hundredth
      pass ends the solve.  When the function values at the last two
      points, [x 99] and [x 98], differ in sign, it ends by the bisection
      started on those two points, which leaves its loop by the loop's own
      test, the estimate within 0.0001 of the midpoint tried last, whatever
      the number of passes allowed beyond the budget; and when the function
      is not zero at the middle of the two points, the estimate returned is
      the middle of a bracket that lies between the two points and whose
      ends differ in sign, and it is a zero of the function or the bracket
      is at most 0.0002 wide.  Otherwise the solve ends with the Newton
      estimate [x 100];
    - one of the two cases always applies, so that the solve always
      returns. *)
Theorem root_find_outcome (T_start : R) (Solution1 Func1 : Z -> R) :
  let x := fun k => newton_iterate Func Func_prim k T_start in
  let T := root_find Func Func_prim T_start Solution1 Func1 in
  let lo := Rmin (x 98%nat) (x 99%nat) in
  let hi := Rmax (x 98%nat) (x 99%nat) in
  let b :=
    bisection Func (Func (x 99%nat)) (Func (x 98%nat)) (x 99%nat) (x 98%nat)
      (0.5 * (x 99%nat + x 98%nat)) (x 100%nat) in
  (forall k : nat,
     (k < 99)%nat ->
     (forall j, (j <= k)%nat -> Func_prim (x j) <> 0) ->
     (forall j, (j < k)%nat -> far_apart Func Func_prim j T_start) ->
     ~ far_apart Func Func_prim k T_start ->
     T = x (S k) /\ Rabs (x (S k) - x k) <= 0.0001)
  /\ ((forall j, (j <= 99)%nat -> Func_prim (x j) <> 0) ->
      (forall j, (j < 99)%nat -> far_apart Func Func_prim j T_start) ->
      (sign_change (Func (x 99%nat)) (Func (x 98%nat)) = true ->
       T = Bisect.T_new b
       /\ Rabs (Bisect.T_new b - Bisect.MidPoint b) <= 0.0001
       /\ (forall more : nat,
            bisect_loop Func
              (bisection_budget (x 99%nat) (x 98%nat)
                 (0.5 * (x 99%nat + x 98%nat)) (x 100%nat) + more)
              (Func (x 99%nat)) (Func (x 98%nat)) (x 99%nat) (x 98%nat)
              (bisection_entry (Func (x 99%nat)) (Func (x 98%nat)) (x 99%nat) (x 98%nat)
                 (0.5 * (x 99%nat + x 98%nat)) (x 100%nat))
            = b)
       /\ (Func (0.5 * (x 99%nat + x 98%nat)) <> 0 ->
           T = 0.5 * (Bisect.Sol_1 b + Bisect.Sol_2 b)
           /\ lo <= Bisect.Sol_1 b <= hi
           /\ lo <= Bisect.Sol_2 b <= hi
           /\ lo <= T <= hi
           /\ sign_change (Func (Bisect.Sol_1 b)) (Func (Bisect.Sol_2 b)) = true
           /\ (Func T = 0 \/ Rabs (Bisect.Sol_1 b - Bisect.Sol_2 b) <= 0.0002)))
      /\ (sign_change (Func (x 99%nat)) (Func (x 98%nat)) = false -> T = x 100%nat))
  /\ ((exists k : nat,
         (k < 99)%nat
         /\ (forall j, (j < k)%nat -> far_apart Func Func_prim j T_start)
         /\ ~ far_apart Func Func_prim k T_start)
      \/ (forall j, (j < 99)%nat -> far_apart Func Func_prim j T_start)).
Proof.
  intros x T lo hi b. split; [|split].
  - intros k Hk _ Hfar Hnear. split.
    + subst T x. unfold root_find.
      apply newton_converges_at; [lia|exact Hfar|exact Hnear].
    + apply Rnot_gt_le. exact Hnear.
  - intros _ Hfar.
    assert (HT : T = hundredth_pass Func Func_prim (x 98%nat) (x 99%nat)).
    { subst T x. unfold root_find. apply newton_reaches_hundred; [lia|].
      intros j Hj. apply Hfar. lia. }
    unfold hundredth_pass in HT.
    change (newton_step Func Func_prim (x 99%nat)) with (x 100%nat) in HT.
    split.
    + intros Hs. rewrite Hs in HT. fold b in HT.
      split; [exact HT|]. split; [apply bisection_budget_suffices|].
      split; [intros more; apply bisection_budget_irrelevant|].
      intros Hmid.
      assert (H99 : lo <= x 99%nat <= hi)
        by (split; [apply Rmin_r|apply Rmax_r]).
      assert (H98 : lo <= x 98%nat <= hi)
        by (split; [apply Rmin_l|apply Rmax_l]).
      destruct (bisection_inside Func (x 99%nat) (x 98%nat) lo hi Hs H99 H98
                  (x 100%nat) Hmid)
        as (((_ & Hc) & (E1 & E2 & E3) & H1 & H2) & Hend).
      fold b in Hc, E1, E2, E3, H1, H2, Hend.
      assert (HTm : T = 0.5 * (Bisect.Sol_1 b + Bisect.Sol_2 b))
        by (rewrite HT; exact Hc).
      split; [exact HTm|]. split; [exact H1|]. split; [exact H2|].
      split; [rewrite HTm; lra|].
      split; [rewrite <- E1, <- E2; exact E3|].
      rewrite HT. exact Hend.
    + intros Hs. rewrite Hs in HT. exact HT.
  - apply first_close_pass.
Qed.

End SolveResult.

(** The solve of [skew_Func] from 1 never meets the tolerance: it ends
    through the bisection between -1 and 1, at the middle of a bracket
    within these two points that is at most 0.0002 wide or at a zero. *)
Lemma root_find_skew_sample :
  let x := fun k => newton_iterate skew_Func skew_prim k 1 in
  let T := root_find skew_Func skew_prim 1 (fun _ => 0) (fun _ => 0) in
  let b :=
    bisection skew_Func (skew_Func (x 99%nat)) (skew_Func (x 98%nat))
      (x 99%nat) (x 98%nat) (0.5 * (x 99%nat + x 98%nat)) (x 100%nat) in
  T = 0.5 * (Bisect.Sol_1 b + Bisect.Sol_2 b)
  /\ -1 <= T <= 1
  /\ sign_change (skew_Func (Bisect.Sol_1 b)) (skew_Func (Bisect.Sol_2 b)) = true
  /\ (skew_Func T = 0 \/ Rabs (Bisect.Sol_1 b - Bisect.Sol_2 b) <= 0.0002).
Proof.
  intros x T b.
  destruct (root_find_outcome skew_Func skew_prim 1 (fun _ => 0) (fun _ => 0))
    as (_ & H & _).
  destruct (H (fun j _ => skew_prim_nonzero _) (fun j _ => skew_far_apart j)) as [Hb _].
  destruct (Hb skew_sign_change) as (_ & _ & _ & Hin).
  destruct (Hin skew_middle) as (H1 & _ & _ & H4 & H5 & H6).
  fold x in H1, H4, H5, H6. fold b in H1, H4, H5, H6. fold T in H1, H4, H6.
  destruct skew_last_points as [E98 E99].
  fold x in E98, E99. 
  rewrite E98, E99 in H4.
  split; [exact H1|]. split; [|split; [exact H5|exact H6]].
  unfold Rmin, Rmax in H4.
  destruct (Rle_dec 1 (-1)) as [Hc|_]; [exfalso; lra|]. exact H4.
Defined.

(** ** The call of [CalcEcoRoof] for the reference surface *)

(** For the reference surface the call stores what the flux block computes
    with the floored wind speed and what the loop entered at 1 returns. *)
Lemma CalcEcoRoof_reference_call
    (e : Env.t) (w : World.t) (SurfNum ZoneNum ConstrNum : Z) :
  let entry := CalcEcoRoof_entry e w SurfNum (storm_construction e SurfNum ConstrNum) in
  let fb := CalcEcoRoof_fluxes e w SurfNum ZoneNum ConstrNum (Ws_floor e SurfNum) in
  let c := FluxBlock.coef fb in
  let T := EcoLoop_for c 1 (snd (fst (fst entry)) + KelvinConv,
                            snd (fst entry) + KelvinConv) in
  let r := CalcEcoRoof e w SurfNum ZoneNum ConstrNum in
  let k' := World.calc (fst (fst r)) in
  SurfNum = Calc.FirstEcoSurf (snd entry) ->
  (World.Tfold (fst (fst r)) = fst T - KelvinConv
   /\ World.Tgold (fst (fst r)) = snd T - KelvinConv
   /\ snd r = snd T - KelvinConv
   /\ World.TH (fst (fst r)) SurfNum = snd T - KelvinConv
   /\ Calc.Qsoil k'
      = - 1.0 * (Coef.Qsoilpart1 c - Coef.Qsoilpart2 c * (snd T - KelvinConv)))
  /\ (Calc.sheatf k' = Coef.sheatf c
      /\ Calc.sheatg k' = Coef.sheatg c
      /\ Calc.sensiblef k' = FluxBlock.sensiblef fb
      /\ Calc.sensibleg k' = FluxBlock.sensibleg fb
      /\ Calc.Lf k' = FluxBlock.Lf fb
      /\ Calc.Lg k' = FluxBlock.Lg fb
      /\ Calc.Vfluxf k' = FluxBlock.Vfluxf fb
      /\ Calc.Vfluxg k' = FluxBlock.Vfluxg fb).
Proof.
  intros entry fb c T r k' H.
  subst k' r T c fb. unfold CalcEcoRoof_fluxes, CalcEcoRoof_soil, CalcEcoRoof.
  cbv zeta. fold entry.
  destruct (Z.eq_dec SurfNum (Calc.FirstEcoSurf (snd entry))); [|contradiction].
  cbn [fst snd World.Tfold World.Tgold World.TH World.calc Calc.Qsoil Calc.sheatf
       Calc.sheatg Calc.sensiblef Calc.sensibleg Calc.Lf Calc.Lg Calc.Vfluxf Calc.Vfluxg].
  rewrite set_TH_same.
  split; [split; [reflexivity|]; split; [reflexivity|]; split; [reflexivity|];
          split; reflexivity|].
  split; [reflexivity|]. split; [reflexivity|]. split; [reflexivity|].
  split; [reflexivity|]. split; [reflexivity|]. split; [reflexivity|].
  split; reflexivity.
Qed.

(** The wind speed enters the flux block through [Waf] only, as the value
    it is given. *)
Lemma calc_fluxes_wind
    (e : Env.t) (k : Calc.t) (SurfNum ZoneNum ConstrNum RoughSurf : Z)
    (Ws RS Latm Tfold Tgold Moisture MeanRootMoisture Alphag : R) :
  let c :=
    FluxBlock.coef
      (calc_fluxes e k SurfNum ZoneNum ConstrNum RoughSurf Ws RS Latm Tfold Tgold
         Moisture MeanRootMoisture Alphag) in
  Coef.Waf c
  = 0.83 * sqrt (Cfhn_of (Calc.Zf k)) * Coef.sigmaf c * Ws + (1.0 - Coef.sigmaf c) * Ws.
Proof.
  intros c. subst c. unfold calc_fluxes.
  destruct (conduction_terms e SurfNum ZoneNum ConstrNum) as [Q1 Q2].
  reflexivity.
Qed.

Lemma Ws_floor_cases (e : Env.t) (SurfNum : Z) :
  let wind := Env.WindSpeedAt e (Env.Surface_Centroid_z e SurfNum) in
  2 <= Ws_floor e SurfNum
  /\ (2 <= wind -> Ws_floor e SurfNum = wind)
  /\ (wind < 2 -> Ws_floor e SurfNum = 2).
Proof.
  intros wind. unfold Ws_floor. fold wind.
  repeat split; try intros H; decide_R; lra.
Qed.

(** C6.  A call of [CalcEcoRoof] for the reference surface, the one for
    which the solve runs, makes exactly three passes of the loop and tests
    no tolerance: the leaf and ground temperatures it stores in [Tfold] and
    [Tgold] and the temperature it returns in [TempExt] and writes to [TH]
    are those of the three-fold composition of [EcoLoop_pass], with the
    coefficients of the call's flux block, on the temperatures of the step
    before.  Each pass recomputes the six coefficients [P1], [P2], [P3],
    [T1G], [T2G], [T3G] at the current pair [(LeafTK, SoilTK)], takes the
    closed-form solution of the two linearized equations, and sets each
    temperature to the average of its previous value and that solution. *)
Theorem CalcEcoRoof_three_damped_passes
    (e : Env.t) (w : World.t) (SurfNum ZoneNum ConstrNum : Z) :
  let entry := CalcEcoRoof_entry e w SurfNum (storm_construction e SurfNum ConstrNum) in
  let Tfold := snd (fst (fst entry)) in
  let Tgold := snd (fst entry) in
  let c :=
    FluxBlock.coef
      (CalcEcoRoof_fluxes e w SurfNum ZoneNum ConstrNum (Ws_floor e SurfNum)) in
  let T3 :=
    EcoLoop_pass c (EcoLoop_pass c (EcoLoop_pass c
      (Tfold + KelvinConv, Tgold + KelvinConv))) in
  let r := CalcEcoRoof e w SurfNum ZoneNum ConstrNum in
  SurfNum = Calc.FirstEcoSurf (snd entry) ->
  (World.Tfold (fst (fst r)) = fst T3 - KelvinConv
   /\ World.Tgold (fst (fst r)) = snd T3 - KelvinConv
   /\ snd r = snd T3 - KelvinConv
   /\ World.TH (fst (fst r)) SurfNum = snd T3 - KelvinConv)
  /\ (forall LeafTK SoilTK : R,
        let new :=
          closed_form (P1 c LeafTK SoilTK) (P2 c SoilTK) (P3 c LeafTK)
                      (T1G c LeafTK SoilTK) (T2G c SoilTK) (T3G c LeafTK) in
        EcoLoop_pass c (LeafTK, SoilTK)
        = (0.5 * (LeafTK + fst new), 0.5 * (SoilTK + snd new))
        /\ (- P3 c LeafTK * T2G c SoilTK + T3G c LeafTK * P2 c SoilTK <> 0 ->
            P1 c LeafTK SoilTK + P2 c SoilTK * snd new + P3 c LeafTK * fst new = 0
            /\ T1G c LeafTK SoilTK + T2G c SoilTK * snd new + T3G c LeafTK * fst new = 0)).
Proof.
  intros entry Tfold Tgold c T3 r H.
  destruct (CalcEcoRoof_reference_call e w SurfNum ZoneNum ConstrNum H)
    as ((H1 & H2 & H3 & H4 & _) & _).
  fold entry in H1, H2, H3, H4. fold Tfold in H1, H2, H3, H4.
  fold Tgold in H1, H2, H3, H4. fold c in H1, H2, H3, H4. fold r in H1, H2, H3, H4.
  assert (HT : EcoLoop_for c 1 (Tfold + KelvinConv, Tgold + KelvinConv) = T3).
  { rewrite EcoLoop_for_step by lia.
    rewrite EcoLoop_for_step by lia.
    rewrite EcoLoop_for_step by lia.
    apply EcoLoop_for_exit. lia. }
  rewrite HT in H1, H2, H3, H4.
  split.
  - split; [exact H1|]. split; [exact H2|]. split; [exact H3|exact H4].
  - intros LeafTK SoilTK new. split.
    + reflexivity.
    + intros Hdet. exact (closed_form_solves _ _ _ _ _ _ Hdet).
Qed.

(** The first call ever of the sample roof in warm-up makes the three
    passes. *)
Lemma CalcEcoRoof_three_damped_passes_sample :
  let entry := CalcEcoRoof_entry warm_env fresh_world 1 (storm_construction warm_env 1 1) in
  let c := FluxBlock.coef (CalcEcoRoof_fluxes warm_env fresh_world 1 1 1 (Ws_floor warm_env 1)) in
  let T3 :=
    EcoLoop_pass c (EcoLoop_pass c (EcoLoop_pass c
      (snd (fst (fst entry)) + KelvinConv, snd (fst entry) + KelvinConv))) in
  World.Tfold after_first_call = fst T3 - KelvinConv
  /\ World.Tgold after_first_call = snd T3 - KelvinConv.
Proof.
  intros entry c T3.
  destruct (CalcEcoRoof_three_damped_passes warm_env fresh_world 1 1 1 eq_refl)
    as ((H1 & H2 & _) & _).
  split; [exact H1|exact H2].
Defined.

(** ** The call of [GreenRoof_with_PlantCoverage] *)

(** What the call stores and returns is what the three solves and the flux
    block give. *)
Lemma GreenRoof_call
    (e : Env.t) (fr : Frame.t) (w : World.t) (SurfNum ZoneNum ConstrNum : Z) :
  let g := GreenRoof_statics e w SurfNum ConstrNum in
  let s := GreenRoof_solved e fr w SurfNum ZoneNum ConstrNum in
  let C := storm_construction e SurfNum ConstrNum in
  let r := GreenRoof_with_PlantCoverage e fr w SurfNum ZoneNum ConstrNum in
  let g' := World.green (fst (fst r)) in
  Green.props g' = Green.props g
  /\ Green.temps g' = Solved.temps s
  /\ Green.fluxes g' = Solved.fluxes s
  /\ Green.reports g'
     = green_reports (Green.props g) (fst (conduction_terms e SurfNum ZoneNum C))
         (snd (conduction_terms e SurfNum ZoneNum C)) s (Green.reports g)
  /\ snd r = Green.Tsoil_avg (Solved.temps s) - KelvinConv
  /\ World.TH (fst (fst r)) SurfNum = Green.Tsoil_avg (Solved.temps s) - KelvinConv.
Proof.
  cbv zeta.
  unfold GreenRoof_with_PlantCoverage, GreenRoof_solved, GreenRoof_f_VWC, GreenRoof_gate,
    GreenRoof_statics.
  cbn [fst snd World.green World.TH Green.props Green.temps Green.fluxes Green.reports].
  rewrite set_TH_same.
  split; [reflexivity|]. split; [reflexivity|]. split; [reflexivity|].
  split; [reflexivity|]. split; reflexivity.
Qed.

(** For the reference surface the frame of the solves holds the wind speed
    at roof height as it is. *)
Lemma GreenRoof_gate_wind
    (e : Env.t) (fr : Frame.t) (w : World.t) (SurfNum ConstrNum : Z) :
  SurfNum = Green.FirstEcoSurf (GreenRoof_statics e w SurfNum ConstrNum) ->
  Frame.WS (Gate.frame (GreenRoof_gate e fr w SurfNum ConstrNum))
  = Env.WindSpeedAt e (Env.Surface_Centroid_z e SurfNum).
Proof.
  intros H. unfold GreenRoof_gate. apply green_gate_wind. exact H.
Qed.

(** C10, as amended.  Only [CalcEcoRoof] floors the wind speed.  In a call
    of [CalcEcoRoof] for the reference surface the two bulk coefficients,
    the sensible and latent fluxes and the two evapotranspiration rates
    that the call stores, and the temperatures it solves for, are those of
    the flux block computed with the wind speed at roof height floored at
    2 m/s, which enters it through [Waf].  In a call of
    [GreenRoof_with_PlantCoverage] for the reference surface the
    temperatures and fluxes stored are those of the three solves made with
    a frame whose wind speed is the wind speed at roof height itself: that
    speed is what [h_conv] and [h_conv_bare] are called with and what the
    Peclet number of the porous-layer coefficient is computed from. *)
Theorem wind_speed_floor_only_in_CalcEcoRoof
    (e : Env.t) (fr : Frame.t) (w : World.t) (SurfNum ZoneNum ConstrNum : Z) :
  let wind := Env.WindSpeedAt e (Env.Surface_Centroid_z e SurfNum) in
  (let entry := CalcEcoRoof_entry e w SurfNum (storm_construction e SurfNum ConstrNum) in
   let r := CalcEcoRoof e w SurfNum ZoneNum ConstrNum in
   let k' := World.calc (fst (fst r)) in
   let Ws := Ws_floor e SurfNum in
   let fb := CalcEcoRoof_fluxes e w SurfNum ZoneNum ConstrNum Ws in
   let c := FluxBlock.coef fb in
   let T := EcoLoop_for c 1 (snd (fst (fst entry)) + KelvinConv,
                             snd (fst entry) + KelvinConv) in
   SurfNum = Calc.FirstEcoSurf (snd entry) ->
   (2 <= Ws /\ (2 <= wind -> Ws = wind) /\ (wind < 2 -> Ws = 2))
   /\ Coef.Waf c
      = 0.83 * sqrt (Cfhn_of (Calc.Zf (snd entry))) * Coef.sigmaf c * Ws
        + (1.0 - Coef.sigmaf c) * Ws
   /\ (Calc.sheatf k' = Coef.sheatf c
       /\ Calc.sheatg k' = Coef.sheatg c
       /\ Calc.sensiblef k' = FluxBlock.sensiblef fb
       /\ Calc.sensibleg k' = FluxBlock.sensibleg fb
       /\ Calc.Lf k' = FluxBlock.Lf fb
       /\ Calc.Lg k' = FluxBlock.Lg fb
       /\ Calc.Vfluxf k' = FluxBlock.Vfluxf fb
       /\ Calc.Vfluxg k' = FluxBlock.Vfluxg fb)
   /\ World.Tfold (fst (fst r)) = fst T - KelvinConv
   /\ World.Tgold (fst (fst r)) = snd T - KelvinConv
   /\ snd r = snd T - KelvinConv)
  /\ (let g := GreenRoof_statics e w SurfNum ConstrNum in
      let p := Green.props g in
      let gate := GreenRoof_gate e fr w SurfNum ConstrNum in
      let f := Gate.frame gate in
      let C := storm_construction e SurfNum ConstrNum in
      let length := sqrt (Env.Surface_Area e SurfNum) in
      let k_por := phi * k_air + (1 - phi) * k_plants in
      let h_por :=
        1.128 * sqrt (0.3 * wind * length / (k_por / (Frame.Rhoa f * Cp_air)))
        * k_por / length in
      let s :=
        green_solve e SurfNum p f (GreenRoof_f_VWC e fr w SurfNum ConstrNum)
          (Env.BeamSolarRad e + Env.AnisoSkyMult e SurfNum * Env.DifSolarRad e)
          (exp (- Green.Ksw p * Green.LAI p))
          (exp (- Green.Klw p * Green.LAI p))
          (Green.epsilonp p + Green.epsilong p - Green.epsilong p * Green.epsilonp p)
          h_por
          (fst (conduction_terms e SurfNum ZoneNum C))
          (snd (conduction_terms e SurfNum ZoneNum C))
          (Gate.Alphag gate) (Green.temps g) (Green.fluxes g) (Green.reports g) in
      let r := GreenRoof_with_PlantCoverage e fr w SurfNum ZoneNum ConstrNum in
      let g' := World.green (fst (fst r)) in
      SurfNum = Green.FirstEcoSurf g ->
      Frame.WS f = wind
      /\ Green.temps g' = Solved.temps s
      /\ Green.fluxes g' = Solved.fluxes s
      /\ snd r = Green.Tsoil_avg (Solved.temps s) - KelvinConv
      /\ (forall T : R,
            plant_h_conv e SurfNum f T
            = h_conv (Frame.indeterminate f) e SurfNum (Frame.Tak f) T wind k_air)
      /\ (forall T : R,
            bare_h_conv e SurfNum f T
            = h_conv_bare (Frame.indeterminate f) e SurfNum (Frame.Tak f) T wind k_air)).
Proof.
  intros wind. split.
  - intros entry r k' Ws fb c T H.
    destruct (CalcEcoRoof_reference_call e w SurfNum ZoneNum ConstrNum H)
      as ((H1 & H2 & H3 & _) & HF).
    split; [exact (Ws_floor_cases e SurfNum)|].
    split; [apply calc_fluxes_wind|].
    split; [exact HF|]. split; [exact H1|]. split; [exact H2|exact H3].
  - intros g p gate f C length k_por h_por s r g' Hfirst.
    assert (Hws : Frame.WS f = wind) by (apply GreenRoof_gate_wind; exact Hfirst).
    assert (Hh : h_por_of length f = h_por).
    { unfold h_por_of. rewrite Hws. reflexivity. }
    destruct (GreenRoof_call e fr w SurfNum ZoneNum ConstrNum)
      as (_ & Ht & Hx & _ & Hr & _).
    unfold GreenRoof_solved in Ht, Hx, Hr.
    fold g in Ht, Hx, Hr. fold p in Ht, Hx, Hr. fold gate in Ht, Hx, Hr.
    fold f in Ht, Hx, Hr. fold C in Ht, Hx, Hr. fold length in Ht, Hx, Hr.
    rewrite Hh in Ht, Hx, Hr.
    split; [exact Hws|]. split; [exact Ht|]. split; [exact Hx|]. split; [exact Hr|].
    split; intro T; [unfold plant_h_conv | unfold bare_h_conv]; rewrite Hws; reflexivity.
Qed.

(** ** Plant coverage 0 and 1 in a call of [GreenRoof_with_PlantCoverage] *)

Lemma green_reports_soil_temperature (p : Green.Properties) (Qsoilpart1 Qsoilpart2 : R)
    (s : Solved.t) (r0 : Green.Reports) :
  Green.Tsoil_avg_Rep (green_reports p Qsoilpart1 Qsoilpart2 s r0)
  = Green.Tsoil_avg (Solved.temps s) - KelvinConv.
Proof. reflexivity. Qed.

(** C4.  In a call of [GreenRoof_with_PlantCoverage], with [g0] the statics
    as the entry block leaves them and [f] the frame of the solves:
    - when the plant coverage [sigma_f] is 0 the plant solve and the
      vegetated-soil solve are skipped, so that the plant and
      vegetated-soil temperatures stay as they were; the bare-soil
      temperature is the result of the bare-soil solve started from the
      temperature carried over; [Tsoil_avg], the temperature returned and
      the soil temperature reported are that result; and the reported
      plant temperature and plant fluxes and [Vfluxf] are zero;
    - when [sigma_f] is 1 the bare-soil solve is skipped, so that the
      bare-soil temperature stays as it was; the plant and vegetated-soil
      temperatures are the results of their solves, the second made with
      the plant temperature just found; [Tsoil_avg] and the temperature
      returned are the vegetated-soil result; and the bare-soil reports
      enter the averages with weight zero. *)
Theorem GreenRoof_coverage_edge_cases
    (e : Env.t) (fr : Frame.t) (w : World.t) (SurfNum ZoneNum ConstrNum : Z) :
  let g0 := GreenRoof_statics e w SurfNum ConstrNum in
  let p := Green.props g0 in
  let t0 := Green.temps g0 in
  let f := Gate.frame (GreenRoof_gate e fr w SurfNum ConstrNum) in
  let f_VWC := GreenRoof_f_VWC e fr w SurfNum ConstrNum in
  let tau_lw := exp (- Green.Klw p * Green.LAI p) in
  let EpsilonOne :=
    Green.epsilonp p + Green.epsilong p - Green.epsilong p * Green.epsilonp p in
  let h_por := h_por_of (sqrt (Env.Surface_Area e SurfNum)) f in
  let Qsoilpart1 :=
    fst (conduction_terms e SurfNum ZoneNum (storm_construction e SurfNum ConstrNum)) in
  let Qsoilpart2 :=
    snd (conduction_terms e SurfNum ZoneNum (storm_construction e SurfNum ConstrNum)) in
  let r := GreenRoof_with_PlantCoverage e fr w SurfNum ZoneNum ConstrNum in
  let g := World.green (fst (fst r)) in
  let t := Green.temps g in
  let rep := Green.reports g in
  Green.sigma_f (Green.props g) = Green.sigma_f p
  /\ (Green.sigma_f p = 0.0 ->
      let bare :=
        root_find
          (Func_bare_s e SurfNum p f Qsoilpart1 Qsoilpart2 (Green.T_soil t0))
          (Func_prim_bare_s e SurfNum p f Qsoilpart2)
          (Green.T_bare_soil t0) (Frame.Solution3 f) (Frame.Func3 f) in
      Green.T_plant t = Green.T_plant t0
      /\ Green.T_soil t = Green.T_soil t0
      /\ Green.T_bare_soil t = bare
      /\ Green.Tsoil_avg t = bare
      /\ snd r = bare - KelvinConv
      /\ Green.Tsoil_avg_Rep rep = bare - KelvinConv
      /\ Green.T_plant_Rep rep = 0.0
      /\ Green.Qconv_p_Rep rep = 0.0
      /\ Green.Q_ET_p_Rep rep = 0.0
      /\ Green.Vfluxf (Green.fluxes g) = 0.0)
  /\ (Green.sigma_f p = 1 ->
      let plant :=
        root_find
          (Func_p e SurfNum p f tau_lw EpsilonOne f_VWC (Green.T_soil t0))
          (Func_prim_p e SurfNum p f tau_lw EpsilonOne f_VWC (Green.T_soil t0))
          (Green.T_plant t0) (Frame.Solution1 f) (Frame.Func1 f) in
      let soil :=
        root_find
          (Func_s e SurfNum p f tau_lw EpsilonOne h_por Qsoilpart1 Qsoilpart2
             plant (Green.T_bare_soil t0))
          (Func_prim_s e SurfNum p f tau_lw EpsilonOne h_por Qsoilpart2 plant)
          (Green.T_soil t0) (Frame.Solution2 f) (Frame.Func2 f) in
      Green.T_plant t = plant
      /\ Green.T_soil t = soil
      /\ Green.T_bare_soil t = Green.T_bare_soil t0
      /\ Green.Tsoil_avg t = soil
      /\ snd r = soil - KelvinConv
      /\ Green.Tsoil_avg_Rep rep = soil - KelvinConv
      /\ Green.Qconv_s_avg_Rep rep = Green.Qconv_s_Rep rep
      /\ Green.Q_E_avg_Rep rep = Green.Q_E_s_Rep rep
      /\ Green.Q_sol_s_avg_Rep rep = Green.Q_sol_soil_Rep rep
      /\ Green.Q_IR_s_avg_Rep rep = Green.Q_IR_s_Rep rep
      /\ Green.Q_E_avg (Green.fluxes g) = Green.Q_E_s (Green.fluxes g)).
Proof.
  intros g0 p t0 f f_VWC tau_lw EpsilonOne h_por Qsoilpart1 Qsoilpart2 r g t rep.
  destruct (GreenRoof_call e fr w SurfNum ZoneNum ConstrNum)
    as (Hp & Ht & Hx & Hrep & Hr & _).
  unfold GreenRoof_solved in Ht, Hx, Hrep, Hr.
  fold g0 in Hp, Ht, Hx, Hrep, Hr. fold p in Hp, Ht, Hx, Hrep, Hr.
  fold t0 in Ht, Hx, Hrep, Hr. fold f in Ht, Hx, Hrep, Hr.
  fold f_VWC in Ht, Hx, Hrep, Hr. fold tau_lw in Ht, Hx, Hrep, Hr.
  fold EpsilonOne in Ht, Hx, Hrep, Hr. fold h_por in Ht, Hx, Hrep, Hr.
  fold Qsoilpart1 in Ht, Hx, Hrep, Hr. fold Qsoilpart2 in Ht, Hx, Hrep, Hr.
  fold r in Hp, Ht, Hx, Hrep, Hr. fold g in Hp, Ht, Hx, Hrep.
  fold t in Ht. fold rep in Hrep.
  match type of Ht with
  | _ = Solved.temps (green_solve ?e ?S ?p ?fr ?a1 ?a2 ?a3 ?a4 ?a5 ?a6 ?q1 ?q2 ?a7 ?t0 ?x0 ?r0) =>
      pose proof (green_solve_temperatures e S p fr a1 a2 a3 a4 a5 a6 q1 q2 a7 t0 x0 r0)
        as HT;
      pose proof (green_solve_without_plants e S p fr a1 a2 a3 a4 a5 a6 q1 q2 a7 t0 x0 r0)
        as H0;
      pose proof (green_reports_without_plants e S p fr a1 a2 a3 a4 a5 a6 q1 q2 a7 t0 x0 r0)
        as R0;
      pose proof (green_solve_full_cover e S p fr a1 a2 a3 a4 a5 a6 q1 q2 a7 t0 x0 r0)
        as H1;
      pose proof (green_reports_full_cover e S p fr a1 a2 a3 a4 a5 a6 q1 q2 a7 t0 x0 r0)
        as R1;
      set (s := green_solve e S p fr a1 a2 a3 a4 a5 a6 q1 q2 a7 t0 x0 r0) in *
  end.
  cbv zeta in HT.
  assert (Hrt : Green.Tsoil_avg_Rep rep = Green.Tsoil_avg t - KelvinConv).
  { rewrite Hrep, Ht. apply green_reports_soil_temperature. }
  rewrite <- Ht in HT, H0, H1, Hr. rewrite <- Hx in H0, H1. rewrite <- Hrep in R0, R1.
  destruct HT as [HTp HTb].
  split; [rewrite Hp; reflexivity|]. split; intros H.
  - intros bare.
    destruct (H0 H) as (S1 & S2 & S3 & S4). destruct (R0 H) as (Q1 & Q2 & Q3).
    assert (Hb : Green.T_bare_soil t = bare).
    { rewrite HTb by (rewrite H; lra). rewrite S2. reflexivity. }
    assert (Ha : Green.Tsoil_avg t = bare) by (rewrite S4; exact Hb).
    split; [exact S1|]. split; [exact S2|]. split; [exact Hb|]. split; [exact Ha|].
    split; [rewrite Hr, Ha; reflexivity|]. split; [rewrite Hrt, Ha; reflexivity|].
    split; [exact Q1|]. split; [exact Q2|]. split; [exact Q3|exact S3].
  - intros plant soil.
    destruct (H1 H) as (S1 & S2 & S3). destruct (R1 H) as (Q1 & Q2 & Q3 & Q4).
    destruct (HTp ltac:(rewrite H; lra)) as [Tp Ts].
    assert (Hpl : Green.T_plant t = plant) by exact Tp.
    assert (Hso : Green.T_soil t = soil) by (rewrite Ts, Hpl; reflexivity).
    assert (Ha : Green.Tsoil_avg t = soil) by (rewrite S2; exact Hso).
    split; [exact Hpl|]. split; [exact Hso|]. split; [exact S1|]. split; [exact Ha|].
    split; [rewrite Hr, Ha; reflexivity|]. split; [rewrite Hrt, Ha; reflexivity|].
    split; [exact Q1|]. split; [exact Q2|]. split; [exact Q3|]. split; [exact Q4|exact S3].
Qed.
